(** * Document ingestion and resolution: a shallow embedding

  The development follows two source files of the application:

  - [src/lib/documents.ts]: the local cache mirror kept in AsyncStorage and
    the document resolver [fetchStoredDocuments];
  - [src/lib/exercises.ts] (the Mathpix part): the error taxonomy, the
    status-code translation [handleMathpixResponse], the retry wrapper
    [retryWithDelay] and the orchestrator [processWithMathpix].

  Asynchronous functions are embedded as state-passing functions: every
  [await] is a sequencing point of a single-threaded event loop, so a run is
  a sequence of steps over an explicit world.  Exceptions are explicit
  outcomes.

  JavaScript strings are sequences of UTF-16 code units; here a string is a
  sequence of 8-bit characters, read as the code units below 256.  Every
  regular expression in the modelled code is made of ASCII characters, so
  the functions below act on such strings exactly as the source does. *)

From Stdlib Require Import ZArith List String Ascii Bool Lia Floats.
From stdpp Require Import base strings gmap list pretty.
Import ListNotations.

Local Open Scope Z_scope.

(* ===================================================================== *)
(** * JavaScript string operations used by the source                    *)
(* ===================================================================== *)

Module JsString.

(** [s.endsWith(suf)], the test performed by a regular expression of the
    form [/suf$/] whose body is a literal. *)
Fixpoint ends_with (suf s : string) : bool :=
  if String.eqb s suf then true
  else match s with
       | EmptyString => false
       | String _ s' => ends_with suf s'
       end.

(** [s.replace(/suf$/, rep)] for a literal [suf]: the only possible match
    is the one that ends at the end of the input. *)
Fixpoint replace_suffix (suf rep s : string) : string :=
  if String.eqb s suf then rep
  else match s with
       | EmptyString => EmptyString
       | String c s' => String c (replace_suffix suf rep s')
       end.

(** [s.replace(/ab/g, rep)] for a two-character literal [ab]: matches are
    taken from left to right and do not overlap. *)
Fixpoint replace_all2 (a b : ascii) (rep s : string) : string :=
  match s with
  | EmptyString => EmptyString
  | String c s' =>
      match s' with
      | String d rest =>
          if Ascii.eqb c a && Ascii.eqb d b
          then rep +:+ replace_all2 a b rep rest
          else String c (replace_all2 a b rep s')
      | EmptyString => String c EmptyString
      end
  end.

Definition LF : ascii := "010"%char.

(** [s.replace(/\n{3,}/g, '\n\n')]: the quantifier is greedy, so each
    maximal run of at least three line feeds becomes two; shorter runs are
    kept.  [run] counts the line feeds of the current run already seen. *)
Fixpoint collapse_from (run : nat) (s : string) : string :=
  match s with
  | EmptyString => EmptyString
  | String c s' =>
      if Ascii.eqb c LF
      then (if (run <? 2)%nat then String c (collapse_from (S run) s')
            else collapse_from (S run) s')
      else String c (collapse_from O s')
  end.

Definition collapse_newlines (s : string) : string := collapse_from O s.

(** The white space and line terminators of ECMAScript among the code
    units below 256: TAB, LF, VT, FF, CR, SP and NBSP. *)
Definition is_space (c : ascii) : bool :=
  let n := N_of_ascii c in
  ((9 <=? n) && (n <=? 13) || (n =? 32) || (n =? 160))%N.

Fixpoint trimStart (s : string) : string :=
  match s with
  | String c s' => if is_space c then trimStart s' else s
  | EmptyString => EmptyString
  end.

Fixpoint trimEnd (s : string) : string :=
  match s with
  | EmptyString => EmptyString
  | String c s' =>
      match trimEnd s' with
      | EmptyString => if is_space c then EmptyString else String c EmptyString
      | t => String c t
      end
  end.

(** [s.trim()] *)
Definition trim (s : string) : string := trimEnd (trimStart s).

(** ASCII lower-casing; it decides the [i] flag of a regular expression
    whose body consists of ASCII letters. *)
Definition lower (c : ascii) : ascii :=
  let n := N_of_ascii c in
  if ((65 <=? n) && (n <=? 90))%N then ascii_of_N (n + 32) else c.

Fixpoint toLowerAscii (s : string) : string :=
  match s with
  | EmptyString => EmptyString
  | String c s' => String (lower c) (toLowerAscii s')
  end.

(** JavaScript truthiness of a string: [!!s]. *)
Definition nonempty (s : string) : bool := negb (String.eqb s "").

(** Truthiness of a possibly absent string field. *)
Definition truthy (o : option string) : bool :=
  match o with
  | Some s => nonempty s
  | None => false
  end.

End JsString.

(* ===================================================================== *)
(** * [src/lib/documents.ts]                                              *)
(* ===================================================================== *)

Module Documents.
Import JsString.

(** [interface PDFDocument] *)
Record PDFDocument := mkPDFDocument {
  id : string;
  title : string;
  content : string;
  timestamp : Z;
}.

Definition DOCUMENTS_STORAGE_KEY : string := "user_documents".

(** AsyncStorage: a key-value store that can fail.  The source stores
    [JSON.stringify(docs)] and reads it back with [JSON.parse]; on arrays
    of [PDFDocument] (strings and an integer) the two are inverse, so a
    slot holds the array itself.  An absent slot is [getItem] returning
    [null].  [faults] scripts the failures of the device: its head tells
    whether the next call of the store is rejected, and past its end no call
    is rejected.  The program is sequential, so every behaviour of the
    device is one such script.  A read that is rejected stands for
    [getItem] rejecting as well as for [JSON.parse] throwing on what was
    read. *)
Record AsyncStorage := mkAsyncStorage {
  slots : gmap string (list PDFDocument);
  faults : list bool;
}.

(** Whether the next call of the store is rejected. *)
Definition rejects (store : AsyncStorage) : bool :=
  match faults store with
  | fault :: _ => fault
  | [] => false
  end.

(** The store once a call has been answered without a change of the
    slots. *)
Definition afterCall (store : AsyncStorage) : AsyncStorage :=
  mkAsyncStorage (slots store) (tail (faults store)).

(** [await AsyncStorage.getItem(key)]; [None] when the call is rejected. *)
Definition getItem (key : string) (store : AsyncStorage)
    : option (option (list PDFDocument)) * AsyncStorage :=
  (if rejects store then None else Some (slots store !! key), afterCall store).

(** [await AsyncStorage.setItem(key, value)]; [false] when the call is
    rejected, which leaves the slot as it was. *)
Definition setItem (key : string) (value : list PDFDocument)
    (store : AsyncStorage) : bool * AsyncStorage :=
  if rejects store then (false, afterCall store)
  else (true,
        mkAsyncStorage (<[key := value]> (slots store)) (tail (faults store))).

(** [await AsyncStorage.removeItem(key)] *)
Definition removeItem (key : string) (store : AsyncStorage)
    : bool * AsyncStorage :=
  if rejects store then (false, afterCall store)
  else (true, mkAsyncStorage (delete key (slots store)) (tail (faults store))).

(** How a promise of type [Promise<void>] settles. *)
Inductive Settled := Fulfilled | Rejected.

(** The [catch] block logs the failure of [removeItem] and returns. *)
Definition clearDocumentCache (store : AsyncStorage) : AsyncStorage :=
  snd (removeItem DOCUMENTS_STORAGE_KEY store).

(** [storedDocs ? JSON.parse(storedDocs) : []], and [[]] from the [catch]
    block when the read fails. *)
Definition loadDocuments (store : AsyncStorage)
    : list PDFDocument * AsyncStorage :=
  match getItem DOCUMENTS_STORAGE_KEY store with
  | (Some (Some storedDocs), store1) => (storedDocs, store1)
  | (Some None, store1) => ([], store1)
  | (None, store1) => ([], store1)
  end.

(** [userId] is a parameter of the source function and is not used by it.
    [loadDocuments] does not throw; a rejected [setItem] is logged and thrown
    again. *)
Definition saveDocument (userId : string) (document : PDFDocument)
    (store : AsyncStorage) : Settled * AsyncStorage :=
  let (existingDocs, store1) := loadDocuments store in
  let updatedDocs := document :: existingDocs in
  match setItem DOCUMENTS_STORAGE_KEY updatedDocs store1 with
  | (true, store2) => (Fulfilled, store2)
  | (false, store2) => (Rejected, store2)
  end.

(** The expression bound to [title] (web) and to [baseName] (native) in
    [fetchDocument]:
    [name.replace(/\.mmd$/, '').replace(/\.pdf\.mmd$/, '.pdf').replace(/\.pdf$/, '')]. *)
Definition deriveTitle (name : string) : string :=
  replace_suffix ".pdf" ""
    (replace_suffix ".pdf.mmd" ".pdf"
      (replace_suffix ".mmd" "" name)).

(** [Platform.OS === 'web'] or not. *)
Inductive Platform := Web | Native.

(** What [getDownloadURL], [fetch] and [response.text()] produce for one
    storage path: one of the three calls throws, the response is not [ok],
    or the body is read. *)
Inductive Download :=
| DlThrows
| DlNotOk
| DlContent (body : string).

(** The remote side as seen during one call of the resolver: one snapshot,
    in which a path gives the same outcome each time it is tried. *)
Record Remote := mkRemote {
  (** [listAll(ref(storage, prefix))]: the names of the items, or [None]
      when the call throws. *)
  listAll : string -> option (list string);
  download : string -> Download;
  (** whether the 30 s timer wins the race against the fetch of an item *)
  timedOut : string -> bool;
  (** [Date.now()] when the record of an item is built *)
  Date_now : string -> Z;
}.

Definition storagePath (userId fileName : string) : string :=
  "users/" +:+ userId +:+ "/mmd/" +:+ fileName.

(** The [for (const path of paths)] loop of the native branch. *)
Fixpoint tryPaths (remote : Remote) (name baseName : string)
    (paths : list string) : option PDFDocument :=
  match paths with
  | [] => None
  | path :: rest =>
      match download remote path with
      | DlContent body =>
          if nonempty body
          then Some (mkPDFDocument name baseName body (Date_now remote name))
          else tryPaths remote name baseName rest
      | _ => tryPaths remote name baseName rest
      end
  end.

Definition fetchDocument (platform : Platform) (remote : Remote)
    (name userId : string) : option PDFDocument :=
  match platform with
  | Web =>
      let path := storagePath userId name in
      match download remote path with
      | DlContent body =>
          if nonempty body
          then Some (mkPDFDocument name (deriveTitle name) body
                       (Date_now remote name))
          else None
      | _ => None
      end
  | Native =>
      let baseName := deriveTitle name in
      let paths :=
        [ storagePath userId name;
          storagePath userId (baseName +:+ ".mmd");
          storagePath userId (baseName +:+ ".pdf.mmd") ] in
      tryPaths remote name baseName paths
  end.

(** [Promise.race([fetchDocument(item, userId), timeoutPromise])] inside a
    [try]: a lost race rejects and is turned into [null]. *)
Definition fetchWithTimeout (platform : Platform) (remote : Remote)
    (userId name : string) : option PDFDocument :=
  if timedOut remote name then None
  else fetchDocument platform remote name userId.

(** [results.filter(doc => doc !== null)] *)
Fixpoint filterNotNull (results : list (option PDFDocument))
    : list PDFDocument :=
  match results with
  | [] => []
  | Some doc :: rest => doc :: filterNotNull rest
  | None :: rest => filterNotNull rest
  end.

(** The resolved set: [Promise.all] keeps the order of the listing. *)
Definition fetchedDocs (platform : Platform) (remote : Remote)
    (userId : string) (items : list string) : list PDFDocument :=
  filterNotNull (List.map (fetchWithTimeout platform remote userId) items).

(** The inner [try] covers the listing, the fetches and the write of the
    mirror: a listing that throws and a [setItem] that is rejected both end
    in [catch (storageError)], which clears the mirror and returns [[]].
    [loadDocuments] and [clearDocumentCache] do not throw, so nothing reaches
    the outer [catch], which does the same. *)
Definition fetchStoredDocuments (platform : Platform) (remote : Remote)
    (userId : string) (forceRefresh : bool) (store : AsyncStorage)
    : list PDFDocument * AsyncStorage :=
  let (localDocs, store1) :=
    if forceRefresh then ([], store) else loadDocuments store in
  if negb forceRefresh && (0 <? length localDocs)%nat
  then (localDocs, store1)
  else
    match listAll remote ("users/" +:+ userId +:+ "/mmd") with
    | Some items =>
        if (length items =? 0)%nat
        then ([], clearDocumentCache store1)
        else
          let docs := fetchedDocs platform remote userId items in
          if (0 <? length docs)%nat
          then
            match setItem DOCUMENTS_STORAGE_KEY docs store1 with
            | (true, store2) => (docs, store2)
            | (false, store2) =>
                (* catch (storageError): "Clear cache on error" *)
                ([], clearDocumentCache store2)
            end
          else ([], clearDocumentCache store1)
    | None =>
        (* catch (storageError): "Clear cache on error" *)
        ([], clearDocumentCache store1)
    end.

(** The records that a read of the mirror yields when it is not rejected. *)
Definition mirror (store : AsyncStorage) : list PDFDocument :=
  default [] (slots store !! DOCUMENTS_STORAGE_KEY).

(** None of the next [n] calls of the store is rejected. *)
Definition quietFor (n : nat) (store : AsyncStorage) : bool :=
  forallb negb (take n (faults store)).

End Documents.


(* ===================================================================== *)
(** * [src/lib/exercises.ts]: the Mathpix client                          *)
(* ===================================================================== *)

Module Mathpix.
Import JsString.

(** [enum MathpixErrorCode] *)
Inductive MathpixErrorCode :=
| INVALID_CREDENTIALS
| RATE_LIMIT_EXCEEDED
| FILE_TOO_LARGE
| UNSUPPORTED_FORMAT
| PROCESSING_ERROR
| EMPTY_RESPONSE
| NETWORK_ERROR
| TIMEOUT
| LOW_CONFIDENCE
| NO_MATH_DETECTED
| INVALID_CONTENT.

(** The string value of each member of the enumeration. *)
Definition codeValue (code : MathpixErrorCode) : string :=
  match code with
  | INVALID_CREDENTIALS => "invalid_credentials"
  | RATE_LIMIT_EXCEEDED => "rate_limit_exceeded"
  | FILE_TOO_LARGE => "file_too_large"
  | UNSUPPORTED_FORMAT => "unsupported_format"
  | PROCESSING_ERROR => "processing_error"
  | EMPTY_RESPONSE => "empty_response"
  | NETWORK_ERROR => "network_error"
  | TIMEOUT => "timeout"
  | LOW_CONFIDENCE => "low_confidence"
  | NO_MATH_DETECTED => "no_math_detected"
  | INVALID_CONTENT => "invalid_content"
  end.

Definition allCodes : list MathpixErrorCode :=
  [ INVALID_CREDENTIALS; RATE_LIMIT_EXCEEDED; FILE_TOO_LARGE;
    UNSUPPORTED_FORMAT; PROCESSING_ERROR; EMPTY_RESPONSE; NETWORK_ERROR;
    TIMEOUT; LOW_CONFIDENCE; NO_MATH_DETECTED; INVALID_CONTENT ].

(** A thrown value: an instance of [class MathpixError] (its [code]; the
    message and the details play no part in control flow), or anything else
    ([TypeError] of [fetch], [SyntaxError] of [response.json()], an error of
    the storage SDK, a property read on [undefined]). *)
Inductive Thrown :=
| MathpixError (code : MathpixErrorCode)
| OtherError.

Inductive Outcome (A : Type) :=
| Returned (value : A)
| Threw (error : Thrown).

Arguments Returned {A} value.
Arguments Threw {A} error.

Definition MATHPIX_BASE_URL : string := "https://api.mathpix.com/v3".
(** [0.7]: the binary64 number nearest to seven tenths. *)
Definition CONFIDENCE_THRESHOLD : float := 0x1.6666666666666p-1%float.
Definition MAX_RETRIES : Z := 3.
Definition RETRY_DELAY : Z := 2000.

(** The fields that the code reads in the JSON bodies of the service.  A
    field that is absent reads as [undefined]; a field that is present has
    the type of the TypeScript interfaces. *)
Record Json := mkJson {
  pdf_id : option string;
  status : option string;
  error : option string;
  confidence : option float;
  text : option string;
  latex_styled : option string;
}.

(** A [Response] of [fetch].  [body_text] is [None] when [response.text()]
    throws; [body_json] is [None] when [response.json()] throws or yields
    [null], on which the first property read throws. *)
Record Response := mkResponse {
  http_status : Z;
  body_text : option string;
  body_json : option Json;
}.

(** [response.ok] *)
Definition ok (response : Response) : bool :=
  (200 <=? http_status response) && (http_status response <=? 299).

(** [interface MathpixResponse] *)
Record MathpixResponse := mkMathpixResponse {
  mmd : option string;
  res_text : option string;
  res_error : option string;
  res_pdf_id : option string;
}.

(** The world of one orchestration call.  [net] scripts the network: the
    outcome of each successive [fetch], [None] for a call that throws, and a
    call beyond the script throws as well.  The program is sequential and
    deterministic, so every behaviour of the service is one such script.
    [storage_up] tells whether [uploadBytes] succeeds.  The other fields
    record what the program did, in order. *)
Record World := mkWorld {
  net : list (option Response);
  storage_up : bool;
  requests : list string;
  uploads : list (string * string);
  timers : list Z;
}.

(** Asynchronous computations over the world that may throw. *)
Definition M (A : Type) : Type := World -> Outcome A * World.

Definition ret {A} (a : A) : M A := fun w => (Returned a, w).

Definition throw {A} (e : Thrown) : M A := fun w => (Threw e, w).

Definition bind {A B} (m : M A) (k : A -> M B) : M B :=
  fun w =>
    match m w with
    | (Returned a, w') => k a w'
    | (Threw e, w') => (Threw e, w')
    end.

(** [try { m } catch (error) { handler(error) }] *)
Definition try_catch {A} (m : M A) (handler : Thrown -> M A) : M A :=
  fun w =>
    match m w with
    | (Returned a, w') => (Returned a, w')
    | (Threw e, w') => handler e w'
    end.

Notation "'do' x <- m ; k" := (bind m (fun x => k))
  (at level 10, x name, m at level 100, k at level 200).

Definition fetch (url : string) : M Response :=
  fun w =>
    let w' := mkWorld (tail (net w)) (storage_up w) (requests w ++ [url])
                (uploads w) (timers w) in
    match net w with
    | Some response :: _ => (Returned response, w')
    | _ => (Threw OtherError, w')
    end.

(** [await new Promise(resolve => setTimeout(resolve, ms))] *)
Definition sleep (ms : Z) : M unit :=
  fun w =>
    (Returned tt,
     mkWorld (net w) (storage_up w) (requests w) (uploads w) (timers w ++ [ms])).

Definition uploadBytes (path data : string) : M unit :=
  fun w =>
    if storage_up w
    then (Returned tt,
          mkWorld (net w) (storage_up w) (requests w)
            (uploads w ++ [(path, data)]) (timers w))
    else (Threw OtherError, w).

(** [await response.text()] *)
Definition readText (response : Response) : M string :=
  match body_text response with
  | Some s => ret s
  | None => throw OtherError
  end.

(** [await response.json()] *)
Definition readJson (response : Response) : M Json :=
  match body_json response with
  | Some j => ret j
  | None => throw OtherError
  end.

(** The [switch (response.status)] of [handleMathpixResponse]. *)
Definition statusErrorCode (status : Z) : MathpixErrorCode :=
  if status =? 400 then INVALID_CONTENT
  else if status =? 401 then INVALID_CREDENTIALS
  else if status =? 429 then RATE_LIMIT_EXCEEDED
  else if status =? 413 then FILE_TOO_LARGE
  else if status =? 415 then UNSUPPORTED_FORMAT
  else if (status =? 500) || (status =? 502) || (status =? 503)
          || (status =? 504) then PROCESSING_ERROR
  else NETWORK_ERROR.

(** The body text is read for the log only, inside its own [try]; every
    branch of the switch throws. *)
Definition handleMathpixResponse {A} (response : Response) (endpoint : string)
    : M A :=
  throw (MathpixError (statusErrorCode (http_status response))).

(** The test of the [catch] block of [retryWithDelay], without its
    [attempt < retries] conjunct. *)
Definition retryable (e : Thrown) : bool :=
  match e with
  | MathpixError NETWORK_ERROR => true
  | MathpixError PROCESSING_ERROR => true
  | _ => false
  end.

Section Retry.
Context {W T : Type}.
(** [await new Promise(resolve => setTimeout(resolve, ms))] in the world of
    the wrapped operation *)
Variable wait : Z -> W -> W.
Variable operation : W -> Outcome T * W.

(** The [for (let attempt = 1; attempt <= retries; attempt++)] loop.
    [retries] is an integer, as at every call site, which all use the
    default.  [remaining] is the number of iterations left,
    [retries - attempt + 1]; when none is left the loop exits and the
    statement after it throws. *)
Fixpoint retryLoop (remaining : nat) (attempt retries : Z) (w : W)
    : Outcome T * W :=
  match remaining with
  | O => (Threw (MathpixError TIMEOUT), w)
  | S remaining' =>
      match operation w with
      | (Returned value, w1) => (Returned value, w1)
      | (Threw e, w1) =>
          if retryable e && (attempt <? retries)
          then retryLoop remaining' (attempt + 1) retries
                 (wait (RETRY_DELAY * attempt) w1)
          else (Threw e, w1)
      end
  end.

Definition retryWithDelay (retries : Z) (w : W) : Outcome T * W :=
  retryLoop (Z.to_nat retries) 1 retries w.

End Retry.

(** The handler shared by [waitForProcessing], [processWithMathpix] and
    [processImageWithMathpix]: a [MathpixError] is thrown again, anything
    else becomes a [MathpixError] of code [PROCESSING_ERROR]. *)
Definition rethrowTyped {A} (e : Thrown) : M A :=
  match e with
  | MathpixError _ => throw e
  | OtherError => throw (MathpixError PROCESSING_ERROR)
  end.

Definition fieldIs (field : option string) (expected : string) : bool :=
  match field with
  | Some s => String.eqb s expected
  | None => false
  end.

(** The polling loop of [waitForProcessing]; [remaining] counts the
    iterations left of [for (attempt = 0; attempt < maxAttempts; attempt++)].
    The body yields [false] on [return] and [true] to go on. *)
Fixpoint pollLoop (remaining : nat) (pdfId : string) : M unit :=
  match remaining with
  | O => throw (MathpixError TIMEOUT)
  | S remaining' =>
      do again <-
        try_catch
          (do response <- fetch (MATHPIX_BASE_URL +:+ "/pdf/" +:+ pdfId);
           do _ <- (if ok response then ret tt
                    else handleMathpixResponse response "/pdf/status");
           do st <- readJson response;
           if fieldIs (status st) "completed" then ret false
           else if fieldIs (status st) "error"
                then throw (MathpixError PROCESSING_ERROR)
                else (do _ <- sleep 10000; ret true))
          rethrowTyped;
      if again then pollLoop remaining' pdfId else ret tt
  end.

Definition waitForProcessing (pdfId : string) : M unit := pollLoop 30 pdfId.

Definition downloadMMD (pdfId userId filename : string) : M string :=
  do response <- fetch (MATHPIX_BASE_URL +:+ "/pdf/" +:+ pdfId +:+ ".mmd");
  do _ <- (if ok response then ret tt
           else handleMathpixResponse response "/pdf/mmd");
  do mmdContent <- readText response;
  if nonempty (trim mmdContent)
  then (do _ <- uploadBytes ("users/" +:+ userId +:+ "/mmd/" +:+ filename)
                  mmdContent;
        ret mmdContent)
  else throw (MathpixError EMPTY_RESPONSE).

(** [result.confidence < CONFIDENCE_THRESHOLD]; an absent field is
    [undefined], and the comparison is then false. *)
Definition belowThreshold (c : option float) : bool :=
  match c with
  | Some x => PrimFloat.ltb x CONFIDENCE_THRESHOLD
  | None => false
  end.

(** The chain of [replace] calls and the [trim] applied to
    [result.latex_styled].  In a replacement string [$$] stands for one
    dollar sign, so each of the four markers becomes a single [$]. *)
Definition toMMD (latex : string) : string :=
  trim
    (collapse_newlines
      (replace_all2 "\" ")" "$"
        (replace_all2 "\" "(" "$"
          (replace_all2 "\" "]" "$"
            (replace_all2 "\" "[" "$" latex))))).

Definition processImageWithMathpix (imageUrl : string) : M MathpixResponse :=
  try_catch
    (do response <- fetch (MATHPIX_BASE_URL +:+ "/text");
     do _ <- (if ok response then ret tt
              else handleMathpixResponse response "/text");
     do result <- readJson response;
     if truthy (error result) then throw (MathpixError PROCESSING_ERROR)
     else if belowThreshold (confidence result)
     then throw (MathpixError LOW_CONFIDENCE)
     else if negb (truthy (text result)) && negb (truthy (latex_styled result))
     then throw (MathpixError NO_MATH_DETECTED)
     else
       match latex_styled result with
       | None => throw OtherError (* [undefined.replace]: a TypeError *)
       | Some latex =>
           let mmd := toMMD latex in
           if nonempty mmd
           then ret (mkMathpixResponse (Some mmd) (text result) None None)
           else throw (MathpixError EMPTY_RESPONSE)
       end)
    rethrowTyped.

(** [process.env] *)
Record Env := mkEnv {
  EXPO_PUBLIC_MATHPIX_APP_ID : option string;
  EXPO_PUBLIC_MATHPIX_APP_KEY : option string;
}.

(** [/\.(jpg|jpeg|png)$/i.test(filename)] *)
Definition isImage (filename : string) : bool :=
  let f := toLowerAscii filename in
  ends_with ".jpg" f || ends_with ".jpeg" f || ends_with ".png" f.

(** The operation that [processWithMathpix] retries for a document. *)
Definition processPdf (storageUrl userId filename : string)
    : M MathpixResponse :=
  do response <- fetch (MATHPIX_BASE_URL +:+ "/pdf");
  do _ <- (if ok response then ret tt
           else handleMathpixResponse response "/pdf");
  do result <- readJson response;
  match pdf_id result with
  | Some pdfId =>
      if nonempty pdfId
      then
        (do _ <- waitForProcessing pdfId;
         do mmd <- downloadMMD pdfId userId filename;
         ret (mkMathpixResponse (Some mmd) (text result) (error result)
                (pdf_id result)))
      else throw (MathpixError INVALID_CONTENT)
  | None => throw (MathpixError INVALID_CONTENT)
  end.

Definition wait (ms : Z) (w : World) : World := snd (sleep ms w).

Definition processWithMathpix (env : Env)
    (storageUrl userId filename : string) : M MathpixResponse :=
  if negb (truthy (EXPO_PUBLIC_MATHPIX_APP_ID env))
     || negb (truthy (EXPO_PUBLIC_MATHPIX_APP_KEY env))
  then throw (MathpixError INVALID_CREDENTIALS)
  else
    try_catch
      (if isImage filename
       then retryWithDelay wait (processImageWithMathpix storageUrl)
              MAX_RETRIES
       else retryWithDelay wait (processPdf storageUrl userId filename)
              MAX_RETRIES)
      rethrowTyped.

End Mathpix.

(* ===================================================================== *)
(** * Scenarios and observers                                             *)
(* ===================================================================== *)

Module Scenario.
Import JsString Documents.

(** Scenario A: one artifact, found under the current path convention. *)
Definition remoteA : Remote :=
  mkRemote
    (fun prefix =>
       if String.eqb prefix "users/u1/mmd"
       then Some ["calc101.pdf.mmd"%string] else Some [])
    (fun path =>
       if String.eqb path "users/u1/mmd/calc101.pdf.mmd"
       then DlContent "$x^2$" else DlThrows)
    (fun _ => false)
    (fun _ => 1700000000000).

(** A remote store whose listing throws. *)
Definition remoteDown : Remote :=
  mkRemote (fun _ => None) (fun _ => DlThrows) (fun _ => false) (fun _ => 0).

(** A remote store without any artifact. *)
Definition remoteEmpty : Remote :=
  mkRemote (fun _ => Some []) (fun _ => DlThrows) (fun _ => false) (fun _ => 0).

Definition doc1 : PDFDocument := mkPDFDocument "1" "algebra" "$a+b$" 1.
Definition doc2 : PDFDocument := mkPDFDocument "2" "limits" "$\lim$" 2.

(** Scenario E: a mirror that holds two records, on a device that rejects
    no call. *)
Definition mirror2 : AsyncStorage :=
  mkAsyncStorage {[ DOCUMENTS_STORAGE_KEY := [doc1; doc2] ]} [].

(** A device without any slot that rejects no call. *)
Definition storeEmpty : AsyncStorage := mkAsyncStorage ∅ [].

(** The mirror of two records on a device that rejects the next two calls. *)
Definition mirror2Faulty : AsyncStorage :=
  mkAsyncStorage {[ DOCUMENTS_STORAGE_KEY := [doc1; doc2] ]} [true; true].

(** The same on a device that rejects the next call only. *)
Definition mirror2Unreadable : AsyncStorage :=
  mkAsyncStorage {[ DOCUMENTS_STORAGE_KEY := [doc1; doc2] ]} [true].

End Scenario.

(** Observation of [retryWithDelay] from outside, the way a test does it
    with a spy around the operation and a fake timer: the world of the
    operation is paired with a log, the operation records each invocation
    and the timer each delay. *)
Module RetrySpy.
Import Mathpix.

Inductive RetryEvent :=
| Invoked
| Waited (ms : Z).

Section Spy.
Context {W T : Type}.
Variable wait : Z -> W -> W.
Variable operation : W -> Outcome T * W.

Definition spyWait (ms : Z) (s : W * list RetryEvent) : W * list RetryEvent :=
  (wait ms (fst s), snd s ++ [Waited ms]).

Definition spyOperation (s : W * list RetryEvent)
    : Outcome T * (W * list RetryEvent) :=
  (fst (operation (fst s)), (snd (operation (fst s)), snd s ++ [Invoked])).

End Spy.

(** What follows the first invocation when every attempt fails: before
    attempt [n] a delay of [RETRY_DELAY * (n - 1)], then the invocation. *)
Fixpoint laterAttempts (count : nat) (n : Z) : list RetryEvent :=
  match count with
  | O => []
  | S count' =>
      Waited (RETRY_DELAY * (n - 1)) :: Invoked :: laterAttempts count' (n + 1)
  end.

Definition exhaustedLog (retries : Z) : list RetryEvent :=
  Invoked :: laterAttempts (Z.to_nat retries - 1) 2.

(** Number of invocations recorded in a log. *)
Fixpoint invocations (log : list RetryEvent) : nat :=
  match log with
  | [] => O
  | Invoked :: rest => S (invocations rest)
  | Waited _ :: rest => invocations rest
  end.

End RetrySpy.

(** The readings of the specification that the code is compared with. *)
Module Stated.
Import JsString Mathpix.

(** The status mapping in the words of the specification: the four codes
    named one by one, [invalid_content] on the other responses of the 400
    class, [processing_error] on the 5xx responses, [network_error]
    otherwise. *)
Definition claimedStatusCode (status : Z) : MathpixErrorCode :=
  if status =? 401 then INVALID_CREDENTIALS
  else if status =? 429 then RATE_LIMIT_EXCEEDED
  else if status =? 413 then FILE_TOO_LARGE
  else if status =? 415 then UNSUPPORTED_FORMAT
  else if (400 <=? status) && (status <=? 499) then INVALID_CONTENT
  else if (500 <=? status) && (status <=? 599) then PROCESSING_ERROR
  else NETWORK_ERROR.


(** An outcome that is a value or a [MathpixError]. *)
Definition typedExit {A} (o : Outcome A) : bool :=
  match o with
  | Returned _ => true
  | Threw (MathpixError _) => true
  | Threw OtherError => false
  end.

End Stated.

Module MathpixScenario.
Import Mathpix.

Definition env : Env := mkEnv (Some "app"%string) (Some "key"%string).

(** A world at the start of a call: nothing requested, stored or awaited. *)
Definition start (script : list (option Response)) : World :=
  mkWorld script true [] [] [].

(** Scenario C: the submission is answered with status 429. *)
Definition response429 : Response :=
  mkResponse 429 (Some "Too Many Requests"%string) None.

(** Scenario D: a recognition of confidence one half. *)
Definition jsonD : Json :=
  mkJson None None None (Some 0.5%float) (Some "x+1"%string) (Some "x+1"%string).


(** A recognition with plain text and without styled output. *)
Definition jsonTextOnly : Json :=
  mkJson None None None (Some 0.75%float) (Some "x+1"%string) None.

Definition okJson (j : Json) : Response := mkResponse 200 None (Some j).

(** A service that answers 503 to every request. *)
Definition response503 : Response :=
  mkResponse 503 (Some "Service Unavailable"%string) None.

(** An operation of the unit world that fails with a fixed code. *)
Definition failing (code : MathpixErrorCode) (w : unit) : Outcome unit * unit :=
  (Threw (MathpixError code), w).

End MathpixScenario.

(** Runs of [retryWithDelay], told by the invocations that take place in
    them: each invocation starts in the world that the one before and the
    delay after it have left.  [attempt] is the number of the first
    invocation of the run. *)
Module RetryRuns.
Import Mathpix.

Section Runs.
Context {W T : Type}.
Variable wait : Z -> W -> W.
Variable operation : W -> Outcome T * W.

Inductive FailsThenReturns (attempt : Z) (w : W)
    : nat -> T -> W -> Prop :=
| returns_now value w' :
    operation w = (Returned value, w') ->
    FailsThenReturns attempt w O value w'
| fails_first e w1 failures value w' :
    operation w = (Threw e, w1) ->
    retryable e = true ->
    FailsThenReturns (attempt + 1) (wait (RETRY_DELAY * attempt) w1)
      failures value w' ->
    FailsThenReturns attempt w (S failures) value w'.

(** A run in which [count] invocations in a row, each followed by its delay
    but the last one, fail with an error that is retried; [e] and [w'] are
    the error and the world of the last of them. *)
Inductive FailsEveryTime (attempt : Z) (w : W)
    : nat -> Thrown -> W -> Prop :=
| fails_last e w' :
    operation w = (Threw e, w') ->
    retryable e = true ->
    FailsEveryTime attempt w 1 e w'
| fails_more e0 w1 count e w' :
    operation w = (Threw e0, w1) ->
    retryable e0 = true ->
    FailsEveryTime (attempt + 1) (wait (RETRY_DELAY * attempt) w1)
      count e w' ->
    FailsEveryTime attempt w (S count) e w'.

End Runs.

End RetryRuns.

Module MoreScenarios.
Import Mathpix MathpixScenario.

(** A recognition that passes every check. *)
Definition jsonGood : Json :=
  mkJson None None None (Some 0.75%float) (Some "x+1"%string)
    (Some "\(x+1\)"%string).

(** The answer to a submission: the identifier of the job. *)
Definition jsonSubmitted : Json :=
  mkJson (Some "job-1"%string) None None None None None.

(** The answers to a status request. *)
Definition jsonProcessing : Json :=
  mkJson None (Some "processing"%string) None None None None.

Definition jsonCompleted : Json :=
  mkJson None (Some "completed"%string) None None None None.

(** The answer to the download of the converted document. *)
Definition responseMmd : Response :=
  mkResponse 200 (Some "$x^2$"%string) None.

End MoreScenarios.

(** What a run leaves in the world, and the answers that drive the polling
    loop. *)
Module Observers.
Import Mathpix.

(** The address polled by [waitForProcessing]. *)
Definition statusUrl (pdfId : string) : string :=
  MATHPIX_BASE_URL +:+ "/pdf/" +:+ pdfId.

(** An answer after which the loop waits and polls again: a success status
    and a body whose [status] is neither [completed] nor [error]. *)
Definition isPending (response : Response) : bool :=
  ok response &&
  match body_json response with
  | Some j =>
      negb (fieldIs (status j) "completed") && negb (fieldIs (status j) "error")
  | None => false
  end.

(** An answer that ends the loop with success. *)
Definition isCompleted (response : Response) : bool :=
  ok response &&
  match body_json response with
  | Some j => fieldIs (status j) "completed"
  | None => false
  end.

(** The world after [n] answers were consumed by polls of [url], each
    followed by a delay of [ms] when [slept] says so. *)
Definition afterPolls (w : World) (rest : list (option Response))
    (url : string) (n slept : nat) (ms : Z) : World :=
  mkWorld rest (storage_up w) (requests w ++ replicate n url) (uploads w)
    (timers w ++ replicate slept ms).

(** The total of the delays awaited so far. *)
Definition waited (w : World) : Z := foldr Z.add 0 (timers w).

End Observers.

(** Budgets of a computation over the world. *)
Module Budget.
Import Mathpix Observers.

(** [op] sends at most [c] requests and waits at most [d] ms in one run,
    and stores exactly what [persist] tells of the value it returns: nothing
    when it throws. *)
Definition Quiet {T} (c : nat) (d : Z) (persist : T -> list (string * string))
    (op : M T) : Prop :=
  forall w,
    (length (requests (snd (op w))) <= length (requests w) + c)%nat /\
    waited w <= waited (snd (op w)) <= waited w + d /\
    uploads (snd (op w))
      = uploads w ++ match fst (op w) with
                     | Returned value => persist value
                     | Threw _ => []
                     end.

(** The delays of a retry loop with [n] iterations left, all used. *)
Fixpoint delayBudget (n : nat) (attempt : Z) : Z :=
  match n with
  | O => 0
  | S O => 0
  | S n' => RETRY_DELAY * attempt + delayBudget n' (attempt + 1)
  end.

(** The artifact that goes with a result of the document path. *)
Definition artifactOf (userId filename : string) (result : MathpixResponse)
    : list (string * string) :=
  match mmd result with
  | Some content => [("users/" +:+ userId +:+ "/mmd/" +:+ filename, content)]
  | None => []
  end.

End Budget.

(** Observers on strings. *)
Module StringObservers.
Import JsString.

(** Whether the character [a] immediately followed by [b] occurs in [s]. *)
Fixpoint occurs2 (a b : ascii) (s : string) : bool :=
  match s with
  | String c s' =>
      match s' with
      | String d _ => Ascii.eqb c a && Ascii.eqb d b || occurs2 a b s'
      | EmptyString => false
      end
  | EmptyString => false
  end.

(** Whether [s] begins with the character [b]. *)
Definition starts (b : ascii) (s : string) : bool :=
  match s with
  | String d _ => Ascii.eqb d b
  | EmptyString => false
  end.

(** Whether [s], read after [run] line feeds, has no run of three line
    feeds. *)
Fixpoint lfOk (run : nat) (s : string) : bool :=
  match s with
  | EmptyString => true
  | String c s' =>
      if Ascii.eqb c LF then (run <? 2)%nat && lfOk (S run) s'
      else lfOk O s'
  end.

End StringObservers.

(* ===================================================================== *)
(** * [src/app/(tabs)/index.tsx] and the upload bar                       *)
(* ===================================================================== *)

Module HomeScreen.
Import JsString Documents.

(** The part of the state of [HomeScreen] that [loadDocuments] and
    [handleNewDocument] write: the documents listed and the loading flag. *)
Record Screen := mkScreen {
  documents : list PDFDocument;
  loading : bool;
}.

(** [loadDocuments(forceRefresh)] of the screen; [user] is the user of the
    auth store, [None] when nobody is signed in. *)
Definition screenLoadDocuments (user : option string) (platform : Platform)
    (remote : Remote) (forceRefresh : bool) (st : Screen * AsyncStorage)
    : Screen * AsyncStorage :=
  match user with
  | None => st
  | Some uid =>
      let store1 :=
        if forceRefresh then clearDocumentCache (snd st) else snd st in
      let result :=
        fetchStoredDocuments platform remote uid forceRefresh store1 in
      (mkScreen (fst result) false, snd result)
  end.

(** [handleNewDocument(title, content)]; [nowId] and [nowStamp] are the two
    readings of [Date.now()], the first one printed in decimal as the id.
    When [saveDocument] throws, the [catch] block logs the error and the list
    of the screen stays as it is. *)
Definition handleNewDocument (user : option string) (title content : string)
    (nowId nowStamp : Z) (st : Screen * AsyncStorage)
    : Screen * AsyncStorage :=
  match user with
  | None => st
  | Some uid =>
      let newDoc := mkPDFDocument (pretty nowId) title content nowStamp in
      match saveDocument uid newDoc (snd st) with
      | (Fulfilled, store1) =>
          (mkScreen (newDoc :: documents (fst st)) (loading (fst st)), store1)
      | (Rejected, store1) => (fst st, store1)
      end
  end.

(** What happens on the screen, one event after the other. *)
Inductive Action :=
| Load (platform : Platform) (remote : Remote) (forceRefresh : bool)
| NewDocument (title content : string) (nowId nowStamp : Z).

Definition step (user : option string) (st : Screen * AsyncStorage)
    (action : Action) : Screen * AsyncStorage :=
  match action with
  | Load platform remote forceRefresh =>
      screenLoadDocuments user platform remote forceRefresh st
  | NewDocument title content nowId nowStamp =>
      handleNewDocument user title content nowId nowStamp st
  end.

(** [[^/.]+$]: one or more characters to the end, none of them a slash or a
    dot. *)
Fixpoint plainTail (s : string) : bool :=
  match s with
  | EmptyString => true
  | String c s' =>
      negb (Ascii.eqb c "/") && negb (Ascii.eqb c ".") && plainTail s'
  end.

Definition isExtension (s : string) : bool := nonempty s && plainTail s.

(** [filename.replace(/\.[^/.]+$/, "")] of [handleUpload]: the leftmost
    dot that is followed by an extension to the end of the name is where the
    name is cut. *)
Fixpoint uploadTitle (filename : string) : string :=
  match filename with
  | EmptyString => EmptyString
  | String c rest =>
      if Ascii.eqb c "." && isExtension rest then EmptyString
      else String c (uploadTitle rest)
  end.

End HomeScreen.

Module RoundTripScenario.
Import Documents.

(** A remote store that holds the artifact of [calc101.pdf] of user [u1]. *)
Definition remoteStored : Remote :=
  mkRemote
    (fun prefix =>
       if String.eqb prefix "users/u1/mmd"
       then Some ["calc101.pdf"%string] else Some [])
    (fun path =>
       if String.eqb path "users/u1/mmd/calc101.pdf"
       then DlContent "$x^2$" else DlThrows)
    (fun _ => false)
    (fun _ => 1700000000000).

End RoundTripScenario.

(* ===================================================================== *)
(** * [src/lib/exercises.ts]: exercises and solutions in Firestore         *)
(* ===================================================================== *)

Module Firestore.
Import JsString Mathpix.

(** The values of the fields of a document. *)
#[warnings="-register-all"]
Inductive JsValue :=
| JsNull
| JsBool (b : bool)
| JsNum (z : Z)
| JsStr (s : string)
| JsArr (items : list JsValue)
| JsObj (fields : list (string * JsValue)).

(** The data of a document: a JavaScript object, the fields by name. *)
Abbreviation Data := (gmap string JsValue).

(** The database as the client sees it: for the path of each collection,
    its documents by identifier.  [ticks] counts the readings of the clock
    so far. *)
Record Db := mkDb {
  collections : gmap (list string) (gmap string Data);
  ticks : nat;
}.

(** The identifiers that stand for one segment of a path: not empty and
    without a slash.  The SDK splits every other identifier at its slashes,
    so that the reference points elsewhere or is refused; the paths below are
    those of identifiers that are segments. *)
Fixpoint hasSlash (s : string) : bool :=
  match s with
  | EmptyString => false
  | String c s' => Ascii.eqb c "/" || hasSlash s'
  end.

Definition isSegment (s : string) : bool := nonempty s && negb (hasSlash s).

(** [new Date().toISOString()]: the reading number [n] of the clock. *)
Abbreviation Clock := (nat -> string).

(** [collection(db, 'users', userId, 'exercises')] *)
Definition exercisesPath (userId : string) : list string :=
  ["users"; userId; "exercises"]%string.

(** [collection(db, 'users', userId, 'exercises', exerciseId, 'solutions')] *)
Definition solutionsPath (userId exerciseId : string) : list string :=
  ["users"; userId; "exercises"; exerciseId; "solutions"]%string.

(** The documents of a collection; a collection that was never written is
    empty. *)
Definition documentsOf (path : list string) (db : Db) : gmap string Data :=
  default ∅ (collections db !! path).

(** [setDoc(doc(collection, id), data)] once the backend has accepted it:
    the document is replaced as a whole. *)
Definition setDoc (path : list string) (id : string) (data : Data)
    (cs : gmap (list string) (gmap string Data))
    : gmap (list string) (gmap string Data) :=
  <[path := <[id := data]> (default ∅ (cs !! path))]> cs.

(** The fields that [saveSolution] and [saveSolutionsBatch] store:
    [{...solution, exerciseId, subExerciseId, createdAt, updatedAt}]. *)
Definition solutionData (solution : Data) (exerciseId subExerciseId : string)
    (createdAt updatedAt : string) : Data :=
  <["updatedAt" := JsStr updatedAt]>
    (<["createdAt" := JsStr createdAt]>
      (<["subExerciseId" := JsStr subExerciseId]>
        (<["exerciseId" := JsStr exerciseId]> solution))).

(** [saveSolution]; [accepted] tells whether the backend accepts the
    write.  A rejection is logged and thrown again. *)
Definition saveSolution (clock : Clock) (accepted : bool)
    (userId exerciseId subExerciseId : string) (solution : Data) (db : Db)
    : Outcome unit * Db :=
  let data :=
    solutionData solution exerciseId subExerciseId
      (clock (ticks db)) (clock (S (ticks db))) in
  if accepted
  then (Returned tt,
        mkDb (setDoc (solutionsPath userId exerciseId) subExerciseId data
                (collections db))
          (S (S (ticks db))))
  else (Threw OtherError, mkDb (collections db) (S (S (ticks db)))).

(** The [forEach] of [saveSolutionsBatch]: the writes are put in the batch
    one by one, each with two readings of the clock. *)
Fixpoint batchSet (clock : Clock) (userId exerciseId : string)
    (solutions : list (string * Data)) (tick : nat)
    (cs : gmap (list string) (gmap string Data))
    : gmap (list string) (gmap string Data) :=
  match solutions with
  | [] => cs
  | (subExerciseId, solution) :: rest =>
      batchSet clock userId exerciseId rest (S (S tick))
        (setDoc (solutionsPath userId exerciseId) subExerciseId
           (solutionData solution exerciseId subExerciseId
              (clock tick) (clock (S tick)))
           cs)
  end.

(** [saveSolutionsBatch]: [batch.commit()] applies all the writes or
    none. *)
Definition saveSolutionsBatch (clock : Clock) (accepted : bool)
    (userId exerciseId : string) (solutions : list (string * Data)) (db : Db)
    : Outcome unit * Db :=
  let after := (ticks db + 2 * length solutions)%nat in
  if accepted
  then (Returned tt,
        mkDb (batchSet clock userId exerciseId solutions (ticks db)
                (collections db)) after)
  else (Threw OtherError, mkDb (collections db) after).

(** [fetchSolutions]: [{...doc.data(), subExerciseId: doc.id}] for each
    document of the collection.  The order of the result is the one of the
    backend and is left open. *)
Definition fetchSolutions (accepted : bool) (userId exerciseId : string)
    (db : Db) : Outcome (list Data) * Db :=
  if accepted
  then (Returned
          (map (fun entry => <["subExerciseId" := JsStr (fst entry)]> (snd entry))
             (map_to_list (documentsOf (solutionsPath userId exerciseId) db))),
        db)
  else (Threw OtherError, db).

(** [saveExerciseAnalysis]:
    [{...analysis, id: documentId, createdAt, updatedAt}]. *)
Definition saveExerciseAnalysis (clock : Clock) (accepted : bool)
    (userId documentId : string) (analysis : Data) (db : Db)
    : Outcome unit * Db :=
  let data :=
    <["updatedAt" := JsStr (clock (S (ticks db)))]>
      (<["createdAt" := JsStr (clock (ticks db))]>
        (<["id" := JsStr documentId]> analysis)) in
  if accepted
  then (Returned tt,
        mkDb (setDoc (exercisesPath userId) documentId data (collections db))
          (S (S (ticks db))))
  else (Threw OtherError, mkDb (collections db) (S (S (ticks db)))).

(** [fetchExercises]: [{id: doc.id, ...doc.data()}]; a field [id] of the
    data comes after the identifier of the document and replaces it. *)
Definition fetchExercises (accepted : bool) (userId : string) (db : Db)
    : Outcome (list Data) * Db :=
  if accepted
  then (Returned
          (map (fun entry => snd entry ∪ {["id" := JsStr (fst entry)]})
             (map_to_list (documentsOf (exercisesPath userId) db))),
        db)
  else (Threw OtherError, db).

End Firestore.

Module FirestoreScenario.
Import Firestore.

(** A clock whose readings are numbered. *)
Definition clock0 : Clock := fun n => "2025-01-01T00:00:00.00" +:+ pretty n.

(** A solution as the generator produces it. *)
Definition solution0 : Data :=
  {[ "finalAnswer"%string := JsStr "$x = 2$";
     "hints"%string := JsArr [JsStr "isolate x"] ]}.

Definition dbEmpty : Db := mkDb ∅ 0.

End FirestoreScenario.

(* ===================================================================== *)
(** * The auth store                                                      *)
(* ===================================================================== *)

Module AuthStore.

(** [src/types/auth.ts] *)
Inductive UserRole := free | subscriber.

Record UserSubscription := mkSubscription {
  role : UserRole;
  validUntil : option string;
  stripeCustomerId : option string;
}.

Record User := mkUser {
  uid : string;
  email : option string;
  subscription : UserSubscription;
}.

(** The fields of a user of Firebase that the store reads. *)
Record FirebaseUser := mkFirebaseUser {
  fb_uid : string;
  fb_email : option string;
}.

Definition createUserProfile (firebaseUser : FirebaseUser) : User :=
  mkUser (fb_uid firebaseUser) (fb_email firebaseUser)
    (mkSubscription free None None).

(** The data of [AuthState]. *)
Record AuthState := mkAuthState {
  user : option User;
  loading : bool;
  error : option string;
}.

(** [create<AuthState>(...)]: the state at start. *)
Definition initial : AuthState := mkAuthState None true None.

(** The calls of [set] and [setState], one event each.  [signUp] and
    [signIn] write the state twice, before and after the call of Firebase;
    the other events are the end of [signOut], [setError] and the listener of
    [onAuthStateChanged]. *)
Inductive Event :=
| SignStarted
| SignSucceeded (firebaseUser : FirebaseUser)
| SignFailed (message : string)
| SignedOut
| SignOutFailed (message : string)
| ErrorSet (e : option string)
| AuthStateChanged (firebaseUser : option FirebaseUser).

Definition apply (st : AuthState) (event : Event) : AuthState :=
  match event with
  | SignStarted => mkAuthState (user st) true None
  | SignSucceeded firebaseUser =>
      mkAuthState (Some (createUserProfile firebaseUser)) false (error st)
  | SignFailed message => mkAuthState (user st) false (Some message)
  | SignedOut => mkAuthState None (loading st) None
  | SignOutFailed message => mkAuthState (user st) (loading st) (Some message)
  | ErrorSet e => mkAuthState (user st) (loading st) e
  | AuthStateChanged firebaseUser =>
      mkAuthState (option_map createUserProfile firebaseUser) false (error st)
  end.

(** The users of Firebase that a sequence of events reports. *)
Fixpoint reported (events : list Event) : list FirebaseUser :=
  match events with
  | [] => []
  | SignSucceeded firebaseUser :: rest => firebaseUser :: reported rest
  | AuthStateChanged (Some firebaseUser) :: rest =>
      firebaseUser :: reported rest
  | _ :: rest => reported rest
  end.

End AuthStore.

Module RetryScenario.
Import Mathpix AuthStore.

(** The answer "not found". *)
Definition response404 : Response := mkResponse 404 None None.

(** A user as Firebase reports it. *)
Definition firebaseAlice : FirebaseUser :=
  mkFirebaseUser "uid-alice" (Some "alice@example.org"%string).

End RetryScenario.

(* ===================================================================== *)
(** * Facts about the string operations                                  *)
(* ===================================================================== *)

Section StringFacts.
Import JsString.

Lemma ends_with_refl suf : ends_with suf suf = true.
Proof. destruct suf; cbn [ends_with]; now rewrite String.eqb_refl. Qed.

Lemma ends_with_cons c suf s :
  ends_with suf s = true -> ends_with suf (String c s) = true.
Proof.
  intros H. cbn [ends_with]. now destruct (String.eqb (String c s) suf).
Qed.

Lemma ends_with_app pre suf : ends_with suf (pre +:+ suf) = true.
Proof.
  induction pre as [|c pre IH]; simpl String.append.
  - apply ends_with_refl.
  - now apply ends_with_cons.
Qed.

(** A name that ends with [pre ++ suf] ends with [suf]. *)
Lemma ends_with_longer pre suf s :
  ends_with (pre +:+ suf) s = true -> ends_with suf s = true.
Proof.
  induction s as [|c s IH]; intros H; cbn [ends_with] in H.
  - destruct (String.eqb_spec "" (pre +:+ suf)) as [E|_]; [|discriminate].
    destruct pre, suf; try discriminate E. reflexivity.
  - destruct (String.eqb_spec (String c s) (pre +:+ suf)) as [E|_].
    + rewrite E. apply ends_with_app.
    + now apply ends_with_cons, IH.
Qed.

Lemma replace_suffix_absent suf rep s :
  ends_with suf s = false -> replace_suffix suf rep s = s.
Proof.
  induction s as [|c s IH]; cbn [ends_with replace_suffix].
  - now destruct (String.eqb "" suf).
  - destruct (String.eqb (String c s) suf); [discriminate|].
    intros H. now rewrite IH.
Qed.

Lemma replace_suffix_length_le suf rep s :
  (String.length rep <= String.length suf)%nat ->
  (String.length (replace_suffix suf rep s) <= String.length s)%nat.
Proof.
  intros Hle. induction s as [|c s IH]; cbn [replace_suffix].
  - destruct (String.eqb_spec "" suf) as [E|_]; [|cbn; lia].
    subst suf. cbn in Hle. lia.
  - destruct (String.eqb_spec (String c s) suf) as [E|_].
    + subst suf. cbn [String.length] in *. lia.
    + cbn [String.length]. lia.
Qed.

Lemma replace_suffix_length_lt suf rep s :
  (String.length rep < String.length suf)%nat ->
  ends_with suf s = true ->
  (String.length (replace_suffix suf rep s) < String.length s)%nat.
Proof.
  intros Hlt. induction s as [|c s IH]; cbn [ends_with replace_suffix].
  - destruct (String.eqb_spec "" suf) as [E|_]; [|discriminate].
    subst suf. cbn in Hlt. lia.
  - destruct (String.eqb_spec (String c s) suf) as [E|_].
    + subst suf. cbn [String.length] in *. lia.
    + intros H. cbn [String.length]. apply IH in H. lia.
Qed.

End StringFacts.

(* ===================================================================== *)
(** * The document resolver                                               *)
(* ===================================================================== *)

Section DocumentFacts.
Import JsString Documents.

(** C7, as stated, fails: the title of [report.pdf.pdf] is [report.pdf],
    whose title is [report]. *)
Lemma deriveTitle_not_idempotent :
  ~ (forall x : string, deriveTitle (deriveTitle x) = deriveTitle x).
Proof. intros H. specialize (H "report.pdf.pdf"). vm_compute in H. discriminate. Qed.

(** C7, amended: deriving the title twice gives the same result as deriving
    it once exactly for the file names whose derived title ends neither in
    [.mmd] nor in [.pdf]. *)
Theorem deriveTitle_idempotent_iff (x : string) :
  deriveTitle (deriveTitle x) = deriveTitle x <->
  ends_with ".mmd" (deriveTitle x) = false /\
  ends_with ".pdf" (deriveTitle x) = false.
Proof.
  generalize (deriveTitle x). intros y.
  assert (Hshrink : forall z,
    (String.length (replace_suffix ".pdf" ""
       (replace_suffix ".pdf.mmd" ".pdf" z)) <= String.length z)%nat).
  { intros z.
    pose proof (replace_suffix_length_le ".pdf.mmd" ".pdf" z) as H1.
    pose proof (replace_suffix_length_le ".pdf" ""
                  (replace_suffix ".pdf.mmd" ".pdf" z)) as H2.
    simpl in H1, H2. lia. }
  unfold deriveTitle. split.
  - intros Hfix.
    destruct (ends_with ".mmd" y) eqn:Hm.
    + exfalso.
      pose proof (replace_suffix_length_lt ".mmd" "" y) as Hlt.
      simpl in Hlt. specialize (Hlt ltac:(lia) Hm).
      pose proof (Hshrink (replace_suffix ".mmd" "" y)) as Hle.
      rewrite Hfix in Hle. lia.
    + split; [reflexivity|].
      destruct (ends_with ".pdf" y) eqn:Hp; [exfalso|reflexivity].
      rewrite (replace_suffix_absent ".mmd" "" y Hm) in Hfix.
      assert (Hpm : ends_with ".pdf.mmd" y = false).
      { destruct (ends_with ".pdf.mmd" y) eqn:E; [|reflexivity].
        apply (ends_with_longer ".pdf" ".mmd") in E. congruence. }
      rewrite (replace_suffix_absent ".pdf.mmd" ".pdf" y Hpm) in Hfix.
      pose proof (replace_suffix_length_lt ".pdf" "" y) as Hlt.
      simpl in Hlt. specialize (Hlt ltac:(lia) Hp).
      rewrite Hfix in Hlt. lia.
  - intros [Hm Hp].
    assert (Hpm : ends_with ".pdf.mmd" y = false).
    { destruct (ends_with ".pdf.mmd" y) eqn:E; [|reflexivity].
      apply (ends_with_longer ".pdf" ".mmd") in E. congruence. }
    rewrite (replace_suffix_absent ".mmd" "" y Hm).
    rewrite (replace_suffix_absent ".pdf.mmd" ".pdf" y Hpm).
    now rewrite (replace_suffix_absent ".pdf" "" y Hp).
Qed.

End DocumentFacts.

Section ResolverFacts.
Import JsString Documents Scenario.

Lemma loadDocuments_eq (store : AsyncStorage) :
  loadDocuments store
  = (if rejects store then [] else mirror store, afterCall store).
Proof.
  unfold loadDocuments, getItem, mirror.
  destruct (rejects store); [reflexivity|].
  now destruct (slots store !! DOCUMENTS_STORAGE_KEY).
Qed.

Lemma clearDocumentCache_eq (store : AsyncStorage) :
  clearDocumentCache store
  = mkAsyncStorage
      (if rejects store then slots store
       else delete DOCUMENTS_STORAGE_KEY (slots store))
      (tail (faults store)).
Proof.
  unfold clearDocumentCache, removeItem, afterCall.
  now destruct (rejects store).
Qed.

Lemma saveDocument_eq userId document (store : AsyncStorage) :
  saveDocument userId document store
  = if rejects (afterCall store)
    then (Rejected, afterCall (afterCall store))
    else (Fulfilled,
          mkAsyncStorage
            (<[DOCUMENTS_STORAGE_KEY :=
                 document :: (if rejects store then [] else mirror store)]>
               (slots store))
            (tail (tail (faults store)))).
Proof.
  unfold saveDocument. rewrite loadDocuments_eq. unfold setItem.
  now destruct (rejects (afterCall store)).
Qed.

Lemma mirror_insert docs sl fs :
  mirror (mkAsyncStorage (<[DOCUMENTS_STORAGE_KEY := docs]> sl) fs) = docs.
Proof. unfold mirror. cbn [slots]. now rewrite lookup_insert_eq. Qed.

Lemma mirror_delete sl fs :
  mirror (mkAsyncStorage (delete DOCUMENTS_STORAGE_KEY sl) fs) = [].
Proof. unfold mirror. cbn [slots]. now rewrite lookup_delete_eq. Qed.

(** When the cache-first return is not taken, the resolver is decided by the
    remote listing and by the answers of the device to the write and to the
    removal. *)
Lemma fetchStoredDocuments_remote platform remote userId forceRefresh
    (store : AsyncStorage) :
  forceRefresh = true \/ fst (loadDocuments store) = [] ->
  fetchStoredDocuments platform remote userId forceRefresh store =
  let before := if forceRefresh then store else afterCall store in
  match listAll remote ("users/" +:+ userId +:+ "/mmd") with
  | Some items =>
      match fetchedDocs platform remote userId items with
      | [] => ([], clearDocumentCache before)
      | docs =>
          if rejects before
          then ([], clearDocumentCache (afterCall before))
          else (docs,
                mkAsyncStorage
                  (<[DOCUMENTS_STORAGE_KEY := docs]> (slots before))
                  (tail (faults before)))
      end
  | None => ([], clearDocumentCache before)
  end.
Proof.
  intros Hremote. unfold fetchStoredDocuments.
  assert (Hpair :
    (if forceRefresh then ([], store) else loadDocuments store)
    = ([], if forceRefresh then store else afterCall store)).
  { destruct forceRefresh; [reflexivity|].
    destruct Hremote as [Hf | Hempty]; [discriminate Hf|].
    rewrite loadDocuments_eq in *. cbn [fst] in Hempty. now rewrite Hempty. }
  rewrite Hpair. cbv zeta.
  set (before := if forceRefresh then store else afterCall store).
  replace (negb forceRefresh && (0 <? length (@nil PDFDocument))%nat)
    with false by now destruct forceRefresh.
  destruct (listAll remote _) as [items|]; [|reflexivity].
  destruct items as [|name items]; [reflexivity|].
  cbn [length Nat.eqb].
  destruct (fetchedDocs platform remote userId (name :: items)) as [|doc docs];
    [reflexivity|].
  cbn [length Nat.ltb Nat.leb]. unfold setItem.
  now destruct (rejects before).
Qed.

(** C3, as stated, fails: the record of [calc101.pdf.mmd] does not carry the
    title [calc101.pdf], also on a device that rejects no call. *)
Lemma scenarioA_title_not_pdf :
  ~ (forall platform remote forceRefresh (store : AsyncStorage),
       forceRefresh = true \/ fst (loadDocuments store) = [] ->
       faults store = [] ->
       listAll remote "users/u1/mmd" = Some ["calc101.pdf.mmd"%string] ->
       download remote "users/u1/mmd/calc101.pdf.mmd" = DlContent "$x^2$" ->
       timedOut remote "calc101.pdf.mmd" = false ->
       fst (fetchStoredDocuments platform remote "u1" forceRefresh store) =
       [ mkPDFDocument "calc101.pdf.mmd" "calc101.pdf" "$x^2$"
           (Date_now remote "calc101.pdf.mmd") ]).
Proof.
  intros H.
  specialize (H Web remoteA true storeEmpty (or_introl eq_refl)
                eq_refl eq_refl eq_refl eq_refl).
  vm_compute in H. discriminate H.
Qed.

Lemma scenarioA_fetched platform remote :
  download remote "users/u1/mmd/calc101.pdf.mmd" = DlContent "$x^2$" ->
  timedOut remote "calc101.pdf.mmd" = false ->
  fetchedDocs platform remote "u1" ["calc101.pdf.mmd"%string]
  = [ mkPDFDocument "calc101.pdf.mmd" "calc101" "$x^2$"
        (Date_now remote "calc101.pdf.mmd") ].
Proof.
  intros Hdl Htimer.
  unfold fetchedDocs. cbn [List.map]. unfold fetchWithTimeout.
  rewrite Htimer.
  assert (Hfetch : fetchDocument platform remote "calc101.pdf.mmd" "u1"
                   = Some (mkPDFDocument "calc101.pdf.mmd" "calc101" "$x^2$"
                             (Date_now remote "calc101.pdf.mmd"))).
  { destruct platform; unfold fetchDocument.
    - change (storagePath "u1" "calc101.pdf.mmd")
        with "users/u1/mmd/calc101.pdf.mmd"%string.
      rewrite Hdl. reflexivity.
    - cbn [tryPaths].
      change (storagePath "u1" "calc101.pdf.mmd")
        with "users/u1/mmd/calc101.pdf.mmd"%string.
      rewrite Hdl. reflexivity. }
  rewrite Hfetch. reflexivity.
Qed.

(** C3, amended: when the resolver consults the remote store, the listing of
    owner [u1] holds the single artifact [calc101.pdf.mmd] and the download
    of the current-convention path yields [$x^2$] before the timer, then
    (1) if the device accepts the write of the mirror, the resolver returns
        exactly one record, with id [calc101.pdf.mmd], title [calc101] and
        content [$x^2$], and the mirror then holds exactly that record;
    (2) if the device rejects the write, the resolver returns no record and
        removes the mirror, or leaves the slots as they were when the
        removal is rejected too.
    [before] is the device at the time of the write: after the read of the
    mirror when there was one. *)
Theorem scenarioA_resolves platform remote forceRefresh (store : AsyncStorage) :
  forceRefresh = true \/ fst (loadDocuments store) = [] ->
  listAll remote "users/u1/mmd" = Some ["calc101.pdf.mmd"%string] ->
  download remote "users/u1/mmd/calc101.pdf.mmd" = DlContent "$x^2$" ->
  timedOut remote "calc101.pdf.mmd" = false ->
  let record :=
    mkPDFDocument "calc101.pdf.mmd" "calc101" "$x^2$"
      (Date_now remote "calc101.pdf.mmd") in
  let before := if forceRefresh then store else snd (loadDocuments store) in
  let result := fetchStoredDocuments platform remote "u1" forceRefresh store in
  (rejects before = false ->
     fst result = [record] /\
     mirror (snd result) = [record] /\
     slots (snd result) = <[DOCUMENTS_STORAGE_KEY := [record]]> (slots store)) /\
  (rejects before = true ->
     fst result = [] /\
     (rejects (afterCall before) = false ->
        slots (snd result) = delete DOCUMENTS_STORAGE_KEY (slots store)) /\
     (rejects (afterCall before) = true ->
        slots (snd result) = slots store)).
Proof.
  intros Hremote Hlist Hdl Htimer record before result. subst result.
  rewrite (fetchStoredDocuments_remote _ _ _ _ _ Hremote).
  change ("users/" +:+ "u1" +:+ "/mmd") with "users/u1/mmd"%string.
  rewrite Hlist, (scenarioA_fetched platform remote Hdl Htimer).
  fold record. cbv zeta.
  assert (Hbefore : (if forceRefresh then store else afterCall store) = before).
  { subst before. rewrite loadDocuments_eq. reflexivity. }
  rewrite Hbefore.
  assert (Hslots : slots before = slots store).
  { rewrite <- Hbefore. now destruct forceRefresh. }
  split; intros Hw; rewrite Hw; cbn [fst snd].
  - rewrite mirror_insert. cbn [slots]. now rewrite Hslots.
  - rewrite clearDocumentCache_eq. cbn [slots].
    split; [reflexivity|].
    split; intros Hr; rewrite Hr; cbn [afterCall slots]; now rewrite Hslots.
Qed.

(** Scenario A on a native platform, with a forced refresh over a mirror
    of two records on a device that rejects no call. *)
Lemma scenarioA_resolves_witness :
  let record :=
    mkPDFDocument "calc101.pdf.mmd" "calc101" "$x^2$" 1700000000000 in
  let result := fetchStoredDocuments Native remoteA "u1" true mirror2 in
  fst result = [record] /\
  mirror (snd result) = [record] /\
  slots (snd result)
    = <[DOCUMENTS_STORAGE_KEY := [record]]> (slots mirror2).
Proof.
  apply (scenarioA_resolves Native remoteA true mirror2);
    [left; reflexivity | reflexivity | reflexivity | reflexivity | reflexivity].
Defined.

(** Scenario A on a device that rejects the write of the mirror and then
    the removal: no record is returned and the mirror holds its two former
    records. *)
Lemma scenarioA_rejected_write :
  fst (fetchStoredDocuments Native remoteA "u1" true mirror2Faulty) = [] /\
  mirror (snd (fetchStoredDocuments Native remoteA "u1" true mirror2Faulty))
    = [doc1; doc2].
Proof. split; vm_compute; reflexivity. Qed.

(** A save whose read of the mirror is rejected: the write goes through and
    the slot holds the new record alone. *)
Lemma saveDocument_failed_read :
  fst (saveDocument "u1" doc1 mirror2Unreadable) = Fulfilled /\
  mirror (snd (saveDocument "u1" doc1 mirror2Unreadable)) = [doc1].
Proof. split; vm_compute; reflexivity. Qed.

(** Scenario B: a listing without items empties the mirror, whatever it
    held, and the result is empty. *)
Lemma scenarioB_empty_listing :
  fst (fetchStoredDocuments Web remoteEmpty "u1" true mirror2) = [] /\
  slots (snd (fetchStoredDocuments Web remoteEmpty "u1" true mirror2))
    !! DOCUMENTS_STORAGE_KEY = None.
Proof. split; vm_compute; reflexivity. Qed.

(** C2, as stated, fails in its last part: a listing that throws does not
    leave the mirror as it was, also on a device that rejects no call. *)
Lemma listing_failure_clears_mirror :
  ~ (forall platform remote userId forceRefresh (store : AsyncStorage),
       forceRefresh = true \/ fst (loadDocuments store) = [] ->
       faults store = [] ->
       listAll remote ("users/" +:+ userId +:+ "/mmd") = None ->
       mirror
         (snd (fetchStoredDocuments platform remote userId forceRefresh store))
       = mirror store).
Proof.
  intros H.
  specialize (H Web remoteDown "u1"%string true mirror2 (or_introl eq_refl)
                eq_refl eq_refl).
  vm_compute in H. discriminate H.
Qed.

(** C2, amended: whenever the resolver consults the remote store,
    (1) a listing whose artifacts resolve to a non-empty set replaces the
        mirror by that set, whatever it held, when the device accepts the
        write; when the device rejects the write the result is empty and the
        mirror is removed as in the cases below;
    (2) a listing of zero artifacts removes the mirror;
    (3) so does a listing none of whose artifacts resolves; and
    (4) so does a listing that fails.
    In the last three cases the result is empty.  A removal that the device
    rejects is swallowed: the slots are then as they were.  No case touches
    another slot.  [before] is the device when the remote store is
    consulted: after the read of the mirror when there was one. *)
Theorem fetchStoredDocuments_mirror_policy platform remote userId forceRefresh
    (store : AsyncStorage) :
  forceRefresh = true \/ fst (loadDocuments store) = [] ->
  let listing := listAll remote ("users/" +:+ userId +:+ "/mmd") in
  let before := if forceRefresh then store else snd (loadDocuments store) in
  let result := fetchStoredDocuments platform remote userId forceRefresh store in
  let removedAt (device : AsyncStorage) :=
    fst result = [] /\
    (rejects device = false ->
       slots (snd result) = delete DOCUMENTS_STORAGE_KEY (slots store)) /\
    (rejects device = true -> slots (snd result) = slots store) in
  (forall items,
     listing = Some items ->
     fetchedDocs platform remote userId items <> [] ->
     (rejects before = false ->
        fst result = fetchedDocs platform remote userId items /\
        slots (snd result)
          = <[DOCUMENTS_STORAGE_KEY := fetchedDocs platform remote userId items]>
              (slots store)) /\
     (rejects before = true -> removedAt (afterCall before))) /\
  (listing = Some [] -> removedAt before) /\
  (forall items,
     listing = Some items ->
     fetchedDocs platform remote userId items = [] ->
     removedAt before) /\
  (listing = None -> removedAt before).
Proof.
  intros Hremote listing before result removedAt.
  subst listing result removedAt. cbv beta.
  rewrite (fetchStoredDocuments_remote _ _ _ _ _ Hremote). cbv zeta.
  assert (Hbefore : (if forceRefresh then store else afterCall store) = before).
  { subst before. rewrite loadDocuments_eq. reflexivity. }
  rewrite Hbefore.
  assert (Hslots : slots before = slots store).
  { rewrite <- Hbefore. now destruct forceRefresh. }
  assert (Hclear : forall device,
    slots device = slots store ->
    (rejects device = false ->
       slots (clearDocumentCache device)
       = delete DOCUMENTS_STORAGE_KEY (slots store)) /\
    (rejects device = true -> slots (clearDocumentCache device) = slots store)).
  { intros device Hd. rewrite clearDocumentCache_eq. cbn [slots].
    split; intros ->; now rewrite Hd. }
  split; [|split; [|split]].
  - intros items -> Hsome.
    destruct (fetchedDocs _ _ _ items) as [|doc docs]; [congruence|].
    split; intros Hw; rewrite Hw; cbn [fst snd slots].
    + now rewrite Hslots.
    + split; [reflexivity|]. apply Hclear. exact Hslots.
  - intros ->. cbn [fst snd]. split; [reflexivity | now apply Hclear].
  - intros items -> ->. cbn [fst snd].
    split; [reflexivity | now apply Hclear].
  - intros ->. cbn [fst snd]. split; [reflexivity | now apply Hclear].
Qed.

(** A forced refresh over a mirror of two records while the listing fails. *)
Lemma fetchStoredDocuments_mirror_policy_witness :
  fst (fetchStoredDocuments Native remoteDown "u1" true mirror2) = [] /\
  slots (snd (fetchStoredDocuments Native remoteDown "u1" true mirror2))
    = delete DOCUMENTS_STORAGE_KEY (slots mirror2).
Proof.
  destruct (fetchStoredDocuments_mirror_policy Native remoteDown "u1" true
              mirror2 (or_introl eq_refl))
    as (_ & _ & _ & Hdown).
  destruct (Hdown eq_refl) as (Hempty & Hgone & _).
  split; [exact Hempty | exact (Hgone eq_refl)].
Defined.

(** C6, as stated, fails: a record saved for one user is returned by the
    resolver for another one. *)
Lemma mirror_shared_between_users :
  ~ (forall platform remote (userA userB : string) document
            (store : AsyncStorage),
       userA <> userB ->
       ~ In document
           (fst (fetchStoredDocuments platform remote userB false
                   (snd (saveDocument userA document store))))).
Proof.
  intros H.
  apply (H Web remoteDown "alice"%string "bob"%string doc1 storeEmpty);
    [discriminate|].
  vm_compute. left. reflexivity.
Qed.

(** C6, amended: the mirror is the single slot [user_documents], shared by
    all users.  [saveDocument] does not depend on its user and touches no
    other slot.  It reads the records of the slot, none when the read is
    rejected; when the device accepts the write, it leaves in the slot the
    record in front of the records read, and the resolver called without
    refresh for any user then returns the saved record followed by those
    records, provided its read is not rejected; when the device rejects the
    write, [saveDocument] throws and the slots are as they were. *)
Theorem mirror_single_slot platform remote (userA userB : string) document
    (store : AsyncStorage) :
  let existing := fst (loadDocuments store) in
  let saved := saveDocument userA document store in
  saveDocument userA document store = saveDocument userB document store /\
  (rejects store = false -> existing = mirror store) /\
  (rejects store = true -> existing = []) /\
  (rejects (snd (loadDocuments store)) = false ->
     fst saved = Fulfilled /\
     mirror (snd saved) = document :: existing /\
     (rejects (snd saved) = false ->
        fst (fetchStoredDocuments platform remote userB false (snd saved))
        = document :: existing)) /\
  (rejects (snd (loadDocuments store)) = true ->
     fst saved = Rejected /\ slots (snd saved) = slots store) /\
  delete DOCUMENTS_STORAGE_KEY (slots (snd saved))
    = delete DOCUMENTS_STORAGE_KEY (slots store).
Proof.
  intros existing saved. subst existing saved.
  rewrite !saveDocument_eq, loadDocuments_eq. cbn [fst snd].
  split; [reflexivity|].
  split; [now intros ->|]. split; [now intros ->|].
  split; [|split].
  - intros Hw. rewrite Hw. cbn [fst snd]. split; [reflexivity|].
    rewrite mirror_insert. split; [reflexivity|].
    intros Hr. unfold fetchStoredDocuments.
    rewrite loadDocuments_eq, Hr, mirror_insert. reflexivity.
  - intros Hw. rewrite Hw. cbn [fst snd]. split; reflexivity.
  - destruct (rejects (afterCall store)); cbn [snd slots afterCall];
      [reflexivity | apply delete_insert_eq].
Qed.



End ResolverFacts.

(* ===================================================================== *)
(** * The status-code translation                                         *)
(* ===================================================================== *)

Section StatusFacts.
Import Mathpix Stated MathpixScenario.

(** C4, as stated, fails: status 501 is a 5xx response and is reported as
    [network_error]; status 404 is of the 400 class and is reported as
    [network_error] too. *)
Lemma status_501_is_network_error :
  ~ (forall (response : Response) (endpoint : string) (w : World),
       ok response = false ->
       fst (handleMathpixResponse (A := unit) response endpoint w) =
       Threw (MathpixError (claimedStatusCode (http_status response)))).
Proof.
  intros H.
  specialize (H (mkResponse 501 None None) "/pdf"%string (start []) eq_refl).
  vm_compute in H. discriminate H.
Qed.

Ltac status_cases s :=
  unfold statusErrorCode, claimedStatusCode;
  destruct (Z.eqb_spec s 400); [subst; cbn; intuition (try discriminate; try lia)|];
  destruct (Z.eqb_spec s 401); [subst; cbn; intuition (try discriminate; try lia)|];
  destruct (Z.eqb_spec s 429); [subst; cbn; intuition (try discriminate; try lia)|];
  destruct (Z.eqb_spec s 413); [subst; cbn; intuition (try discriminate; try lia)|];
  destruct (Z.eqb_spec s 415); [subst; cbn; intuition (try discriminate; try lia)|];
  destruct (Z.eqb_spec s 500); [subst; cbn; intuition (try discriminate; try lia)|];
  destruct (Z.eqb_spec s 502); [subst; cbn; intuition (try discriminate; try lia)|];
  destruct (Z.eqb_spec s 503); [subst; cbn; intuition (try discriminate; try lia)|];
  destruct (Z.eqb_spec s 504); [subst; cbn; intuition (try discriminate; try lia)|].

(** The code agrees with the stated mapping except on the 4xx statuses
    other than 400, 401, 413, 415 and 429 and on the 5xx statuses other than
    500, 502, 503 and 504. *)
Lemma statusErrorCode_agrees_iff (s : Z) :
  statusErrorCode s = claimedStatusCode s <->
  ~ (400 <= s <= 599) \/
  s = 400 \/ s = 401 \/ s = 413 \/ s = 415 \/ s = 429 \/
  s = 500 \/ s = 502 \/ s = 503 \/ s = 504.
Proof.
  status_cases s.
  cbn.
  destruct (Z.leb_spec 400 s), (Z.leb_spec s 499), (Z.leb_spec 500 s),
    (Z.leb_spec s 599); cbn; intuition (try discriminate; try lia).
Qed.

(** C4, amended: for every response, whatever the endpoint,
    [handleMathpixResponse] throws a [MathpixError] and changes nothing; its
    code is [invalid_content] exactly on status 400, [invalid_credentials]
    on 401, [rate_limit_exceeded] on 429, [file_too_large] on 413,
    [unsupported_format] on 415, [processing_error] exactly on 500, 502, 503
    and 504, and [network_error] on every other status. *)
Theorem handleMathpixResponse_codes (A : Type) (response : Response)
    (endpoint : string) (w : World) :
  let s := http_status response in
  let code := statusErrorCode s in
  handleMathpixResponse (A := A) response endpoint w
    = (Threw (MathpixError code), w) /\
  (code = INVALID_CONTENT <-> s = 400) /\
  (code = INVALID_CREDENTIALS <-> s = 401) /\
  (code = RATE_LIMIT_EXCEEDED <-> s = 429) /\
  (code = FILE_TOO_LARGE <-> s = 413) /\
  (code = UNSUPPORTED_FORMAT <-> s = 415) /\
  (code = PROCESSING_ERROR <-> s = 500 \/ s = 502 \/ s = 503 \/ s = 504) /\
  (code = NETWORK_ERROR <->
     s <> 400 /\ s <> 401 /\ s <> 429 /\ s <> 413 /\ s <> 415 /\
     s <> 500 /\ s <> 502 /\ s <> 503 /\ s <> 504).
Proof.
  intros s code. subst code. split; [reflexivity|].
  generalize s. clear. intros s.
  status_cases s.
  cbn. intuition (try discriminate; try lia).
Qed.

End StatusFacts.

(* ===================================================================== *)
(** * The retry wrapper                                                   *)
(* ===================================================================== *)

Section RetryFacts.
Import Mathpix RetrySpy MathpixScenario.
Context {W T : Type}.
Variable wait : Z -> W -> W.
Variable operation : W -> Outcome T * W.

(** The spies do not disturb the run: outcome and world are those of the
    run without them. *)
Lemma spy_erasure remaining attempt retries w log :
  fst (retryLoop (spyWait wait) (spyOperation operation)
         remaining attempt retries (w, log))
    = fst (retryLoop wait operation remaining attempt retries w) /\
  fst (snd (retryLoop (spyWait wait) (spyOperation operation)
              remaining attempt retries (w, log)))
    = snd (retryLoop wait operation remaining attempt retries w).
Proof.
  revert attempt w log.
  induction remaining as [|remaining IH]; intros attempt w log;
    cbn [retryLoop]; [split; reflexivity|].
  change (spyOperation operation (w, log))
    with (fst (operation w), (snd (operation w), log ++ [Invoked])).
  destruct (operation w) as [[value|e] w1]; cbn [fst snd];
    [split; reflexivity|].
  destruct (retryable e && (attempt <? retries)); [|split; reflexivity].
  change (spyWait wait (RETRY_DELAY * attempt) (w1, log ++ [Invoked]))
    with (wait (RETRY_DELAY * attempt) w1,
          (log ++ [Invoked]) ++ [Waited (RETRY_DELAY * attempt)]).
  apply IH.
Qed.

End RetryFacts.

Section RetryExhaustion.
Import Mathpix RetrySpy RetryRuns MathpixScenario.
Context {W T : Type}.
Variable wait : Z -> W -> W.
Variable operation : W -> Outcome T * W.

Lemma retryLoop_step (wait' : Z -> W * list RetryEvent -> W * list RetryEvent)
    (op : W * list RetryEvent -> Outcome T * (W * list RetryEvent))
    remaining attempt retries s :
  retryLoop wait' op (S remaining) attempt retries s =
  match op s with
  | (Returned value, s1) => (Returned value, s1)
  | (Threw e, s1) =>
      if retryable e && (attempt <? retries)
      then retryLoop wait' op remaining (attempt + 1) retries
             (wait' (RETRY_DELAY * attempt) s1)
      else (Threw e, s1)
  end.
Proof. reflexivity. Qed.

Lemma spyWait_pair ms (w : W) log :
  spyWait wait ms (w, log) = (wait ms w, log ++ [Waited ms]).
Proof. reflexivity. Qed.

Lemma spyOperation_pair (w : W) log :
  spyOperation operation (w, log)
    = (fst (operation w), (snd (operation w), log ++ [Invoked])).
Proof. reflexivity. Qed.

Lemma FailsEveryTime_positive attempt w count e w' :
  FailsEveryTime wait operation attempt w count e w' -> (1 <= count)%nat.
Proof. destruct 1; lia. Qed.

(** The error of such a run is the one of an invocation, and is retried. *)
Lemma FailsEveryTime_last attempt w count e w' :
  FailsEveryTime wait operation attempt w count e w' ->
  retryable e = true /\ exists wlast, operation wlast = (Threw e, w').
Proof.
  induction 1 as [attempt w e w' Hop He | attempt w e0 w1 count e w' _ _ _ IH];
    [|exact IH].
  split; [exact He | now exists w].
Qed.

Lemma retryLoop_exhausted retries :
  forall count attempt w e w' log,
    FailsEveryTime wait operation attempt w count e w' ->
    retries = attempt + Z.of_nat count - 1 ->
    retryLoop (spyWait wait) (spyOperation operation)
      count attempt retries (w, log)
    = (Threw e, (w', log ++ Invoked :: laterAttempts (count - 1) (attempt + 1))).
Proof.
  induction count as [|count IH]; intros attempt w e w' log Hrun;
    inversion Hrun as [e1 w1' Hop He | e0 w1 c e1 w1' Hop He Hrest]; subst;
    intros Hretries;
    rewrite retryLoop_step, spyOperation_pair, Hop; cbn [fst snd]; rewrite He.
  - replace (attempt <? retries) with false by lia. reflexivity.
  - pose proof (FailsEveryTime_positive _ _ _ _ _ Hrest) as Hpos.
    replace (attempt <? retries) with true by lia.
    cbn [andb]. rewrite spyWait_pair.
    rewrite (IH (attempt + 1) _ e w' _ Hrest) by lia.
    rewrite <- !app_assoc. cbn [app].
    destruct count as [|count]; [lia|].
    replace (S (S count) - 1)%nat with (S count) by lia.
    replace (S count - 1)%nat with count by lia.
    cbn [laterAttempts].
    replace (attempt + 1 - 1) with attempt by lia. reflexivity.
Qed.

End RetryExhaustion.

Section LogFacts.
Import Mathpix RetrySpy.

Lemma invocations_app log1 log2 :
  invocations (log1 ++ log2) = (invocations log1 + invocations log2)%nat.
Proof.
  induction log1 as [|[|ms] log1 IH]; cbn [app invocations];
    [reflexivity | now rewrite IH | exact IH].
Qed.

Lemma invocations_laterAttempts count n :
  invocations (laterAttempts count n) = count.
Proof.
  revert n. induction count as [|count IH]; intros n;
    cbn [laterAttempts invocations]; [reflexivity | now rewrite IH].
Qed.

End LogFacts.

Section RetryClaims.
Import Mathpix RetrySpy RetryRuns MathpixScenario.

(** C1, as stated, fails: after three failures of code [network_error] the
    wrapper throws that error, not one of code [timeout]. *)
Lemma retry_exhaustion_not_timeout :
  ~ (forall (W T : Type) (wait : Z -> W -> W)
            (operation : W -> Outcome T * W) (w : W),
       (forall w0, exists code w',
          operation w0 = (Threw (MathpixError code), w') /\
          (code = NETWORK_ERROR \/ code = PROCESSING_ERROR)) ->
       fst (retryWithDelay wait operation MAX_RETRIES w)
         = Threw (MathpixError TIMEOUT)).
Proof.
  intros H.
  specialize (H unit unit (fun _ w => w) (failing NETWORK_ERROR) tt).
  cbn in H. discriminate H.
  intros w0. exists NETWORK_ERROR, w0. split; [reflexivity | now left].
Qed.

(** C1, amended: when [retries] is at least 1 and each of the [retries]
    invocations of the run fails with code [network_error] or
    [processing_error], the wrapper invokes the operation exactly [retries]
    times, waits [RETRY_DELAY * (n - 1)] before attempt [n] for every
    [n >= 2], and then throws the error of the last invocation unchanged:
    its code is one of those two, not [timeout]. *)
Theorem retry_exhaustion (W T : Type) (wait : Z -> W -> W)
    (operation : W -> Outcome T * W) (retries : Z) (w w' : W) (e : Thrown) :
  1 <= retries ->
  FailsEveryTime wait operation 1 w (Z.to_nat retries) e w' ->
  retryWithDelay (spyWait wait) (spyOperation operation) retries (w, [])
    = (Threw e, (w', exhaustedLog retries)) /\
  retryWithDelay wait operation retries w = (Threw e, w') /\
  invocations (exhaustedLog retries) = Z.to_nat retries /\
  (exists wlast, operation wlast = (Threw e, w')) /\
  (e = MathpixError NETWORK_ERROR \/ e = MathpixError PROCESSING_ERROR) /\
  e <> MathpixError TIMEOUT.
Proof.
  intros Hretries Hrun. unfold retryWithDelay, exhaustedLog.
  pose proof (retryLoop_exhausted wait operation retries (Z.to_nat retries)
                1 w e w' [] Hrun ltac:(lia)) as Hspy.
  cbn [app] in Hspy. change (1 + 1) with 2 in Hspy.
  destruct (FailsEveryTime_last wait operation _ _ _ _ _ Hrun)
    as [He Hlast].
  split; [exact Hspy|]. split; [|split; [|split; [exact Hlast|]]].
  - destruct (spy_erasure wait operation (Z.to_nat retries) 1 retries w [])
      as [Ho Hw].
    rewrite Hspy in Ho, Hw. cbn [fst snd] in Ho, Hw.
    destruct (retryLoop wait operation (Z.to_nat retries) 1 retries w)
      as [o wf].
    cbn [fst snd] in Ho, Hw. now subst.
  - cbn [invocations]. rewrite invocations_laterAttempts. lia.
  - destruct e as [[]|]; try discriminate He;
      (split; [auto | discriminate]).
Qed.

(** The submission of a document answered three times with status 503. *)
Lemma retry_exhaustion_witness :
  let operation := processPdf "https://files/calc101.pdf" "u1" "calc101.pdf" in
  let w := start [Some response503; Some response503; Some response503] in
  let w' := mkWorld [] true
              [ "https://api.mathpix.com/v3/pdf"%string;
                "https://api.mathpix.com/v3/pdf"%string;
                "https://api.mathpix.com/v3/pdf"%string ] [] [2000; 4000] in
  let e := MathpixError PROCESSING_ERROR in
  retryWithDelay (spyWait wait) (spyOperation operation) MAX_RETRIES (w, [])
    = (Threw e, (w', [Invoked; Waited 2000; Invoked; Waited 4000; Invoked])) /\
  retryWithDelay wait operation MAX_RETRIES w = (Threw e, w') /\
  invocations [Invoked; Waited 2000; Invoked; Waited 4000; Invoked] = 3%nat /\
  (exists wlast, operation wlast = (Threw e, w')) /\
  (e = MathpixError NETWORK_ERROR \/ e = MathpixError PROCESSING_ERROR) /\
  e <> MathpixError TIMEOUT.
Proof.
  apply (retry_exhaustion World MathpixResponse wait
           (processPdf "https://files/calc101.pdf" "u1" "calc101.pdf")
           MAX_RETRIES
           (start [Some response503; Some response503; Some response503])
           (mkWorld [] true
              [ "https://api.mathpix.com/v3/pdf"%string;
                "https://api.mathpix.com/v3/pdf"%string;
                "https://api.mathpix.com/v3/pdf"%string ] [] [2000; 4000])
           (MathpixError PROCESSING_ERROR)).
  - unfold MAX_RETRIES. lia.
  - change (Z.to_nat MAX_RETRIES) with 3%nat.
    eapply fails_more; [reflexivity | reflexivity |].
    eapply fails_more; [reflexivity | reflexivity |].
    apply fails_last; reflexivity.
Defined.

(** C8: when [retries] is at least 1 and the first invocation fails with a
    code other than [network_error] and [processing_error], the wrapper
    invokes the operation exactly once, waits for nothing, and throws the
    same error; the world is the one that this invocation left. *)
Theorem retry_propagates_other_codes (W T : Type) (wait : Z -> W -> W)
    (operation : W -> Outcome T * W) (retries : Z) (w w1 : W)
    (code : MathpixErrorCode) :
  1 <= retries ->
  operation w = (Threw (MathpixError code), w1) ->
  code <> NETWORK_ERROR ->
  code <> PROCESSING_ERROR ->
  retryWithDelay (spyWait wait) (spyOperation operation) retries (w, [])
    = (Threw (MathpixError code), (w1, [Invoked])) /\
  retryWithDelay wait operation retries w = (Threw (MathpixError code), w1).
Proof.
  intros Hretries Hop Hnet Hproc. unfold retryWithDelay.
  destruct (Z.to_nat retries) as [|remaining] eqn:Hn; [lia|].
  assert (Hno : retryable (MathpixError code) = false)
    by (destruct code; try reflexivity; congruence).
  cbn [retryLoop].
  change (spyOperation operation (w, []))
    with (fst (operation w), (snd (operation w), [Invoked])).
  rewrite Hop. cbn [fst snd]. rewrite Hno. split; reflexivity.
Qed.

(** Scenario C as an instance: the submission of a document answered with
    status 429. *)
Lemma retry_propagates_other_codes_witness :
  let operation := processPdf "https://files/calc101.pdf" "u1" "calc101.pdf" in
  let after := mkWorld [] true ["https://api.mathpix.com/v3/pdf"%string] [] [] in
  retryWithDelay (spyWait wait) (spyOperation operation) MAX_RETRIES
    (start [Some response429], [])
    = (Threw (MathpixError RATE_LIMIT_EXCEEDED), (after, [Invoked])) /\
  retryWithDelay wait operation MAX_RETRIES (start [Some response429])
    = (Threw (MathpixError RATE_LIMIT_EXCEEDED), after).
Proof.
  apply (retry_propagates_other_codes World MathpixResponse wait
           (processPdf "https://files/calc101.pdf" "u1" "calc101.pdf")
           MAX_RETRIES (start [Some response429])
           (mkWorld [] true ["https://api.mathpix.com/v3/pdf"%string] [] [])
           RATE_LIMIT_EXCEEDED).
  - unfold MAX_RETRIES. lia.
  - reflexivity.
  - discriminate.
  - discriminate.
Defined.

(** Scenario C through the orchestrator: one request, no delay, and the
    error of code [rate_limit_exceeded] reaches the caller. *)
Lemma scenarioC_orchestrator :
  processWithMathpix env "https://files/calc101.pdf" "u1" "calc101.pdf"
    (start [Some response429])
  = (Threw (MathpixError RATE_LIMIT_EXCEEDED),
     mkWorld [] true ["https://api.mathpix.com/v3/pdf"%string] [] []).
Proof. vm_compute. reflexivity. Qed.

(** A service that answers 503 three times: three submissions, delays of
    2000 and 4000 ms, and the error of the last answer reaches the caller. *)
Lemma unavailable_service_orchestrator :
  processWithMathpix env "https://files/calc101.pdf" "u1" "calc101.pdf"
    (start [Some response503; Some response503; Some response503])
  = (Threw (MathpixError PROCESSING_ERROR),
     mkWorld [] true
       [ "https://api.mathpix.com/v3/pdf"%string;
         "https://api.mathpix.com/v3/pdf"%string;
         "https://api.mathpix.com/v3/pdf"%string ]
       [] [2000; 4000]).
Proof. vm_compute. reflexivity. Qed.

End RetryClaims.

(* ===================================================================== *)
(** * The orchestrator                                                    *)
(* ===================================================================== *)

Section OrchestratorFacts.
Import JsString Mathpix Stated MathpixScenario.

Lemma allCodes_complete (code : MathpixErrorCode) : In code allCodes.
Proof. destruct code; cbn; tauto. Qed.

Lemma codeValue_injective (a b : MathpixErrorCode) :
  codeValue a = codeValue b -> a = b.
Proof. destruct a, b; intros H; try reflexivity; discriminate H. Qed.

Lemma allCodes_eleven : length allCodes = 11%nat /\ NoDup allCodes.
Proof.
  split; [reflexivity|].
  unfold allCodes.
  repeat (apply NoDup_cons_2;
          [rewrite ?elem_of_cons, elem_of_nil; intuition discriminate|]).
  apply NoDup_nil_2.
Qed.

(** A computation guarded by the shared handler exits with a value or with
    a [MathpixError]; what was thrown untyped has become
    [processing_error]. *)
Lemma try_catch_rethrowTyped {A} (m : M A) (w : World) :
  match fst (m w) with
  | Returned value =>
      fst (try_catch m rethrowTyped w) = Returned value
  | Threw (MathpixError code) =>
      fst (try_catch m rethrowTyped w) = Threw (MathpixError code)
  | Threw OtherError =>
      fst (try_catch m rethrowTyped w) = Threw (MathpixError PROCESSING_ERROR)
  end.
Proof. unfold try_catch. now destruct (m w) as [[value|[code|]] w']. Qed.

Lemma try_catch_typed {A} (m : M A) (w : World) :
  typedExit (fst (try_catch m rethrowTyped w)) = true.
Proof. unfold try_catch. now destruct (m w) as [[value|[code|]] w']. Qed.

(** C9: whatever the credentials, the arguments and the behaviour of the
    network and of the storage, [processWithMathpix] exits with a value or
    with a [MathpixError] whose code is one of the eleven of the
    enumeration, and so does [processImageWithMathpix].  With a credential
    missing the exit is [invalid_credentials].  Otherwise the exit is the one
    of the retried attempts of the path taken, with one change: a value and
    a [MathpixError] pass as they are, and anything else that was thrown
    becomes [processing_error].  This is what happens to a submission whose
    [fetch] throws: it is not tried again, and the caller gets
    [processing_error] after one request.  Inside [processImageWithMathpix]
    a [fetch] or a [response.json()] that throws becomes [processing_error]
    in the same way, and the error of a response with a failure status keeps
    the code of that status. *)
Theorem processWithMathpix_typed_exit (env0 : Env)
    (storageUrl userId filename : string) (w : World) :
  let attempts :=
    if isImage filename
    then retryWithDelay wait (processImageWithMathpix storageUrl) MAX_RETRIES
    else retryWithDelay wait (processPdf storageUrl userId filename)
           MAX_RETRIES in
  let exit := fst (processWithMathpix env0 storageUrl userId filename w) in
  let image := fst (processImageWithMathpix storageUrl w) in
  let fetchThrows := net w = [] \/ exists rest, net w = None :: rest in
  ((exists value, exit = Returned value) \/
   (exists code, exit = Threw (MathpixError code) /\ In code allCodes)) /\
  ((exists value, image = Returned value) \/
   (exists code, image = Threw (MathpixError code) /\ In code allCodes)) /\
  length allCodes = 11%nat /\
  (truthy (EXPO_PUBLIC_MATHPIX_APP_ID env0) = false \/
   truthy (EXPO_PUBLIC_MATHPIX_APP_KEY env0) = false ->
   exit = Threw (MathpixError INVALID_CREDENTIALS)) /\
  (truthy (EXPO_PUBLIC_MATHPIX_APP_ID env0) = true ->
   truthy (EXPO_PUBLIC_MATHPIX_APP_KEY env0) = true ->
   snd (processWithMathpix env0 storageUrl userId filename w)
     = snd (attempts w) /\
   (forall value, fst (attempts w) = Returned value -> exit = Returned value) /\
   (forall code,
      fst (attempts w) = Threw (MathpixError code) ->
      exit = Threw (MathpixError code)) /\
   (fst (attempts w) = Threw OtherError ->
      exit = Threw (MathpixError PROCESSING_ERROR)) /\
   (isImage filename = false -> fetchThrows ->
      fst (attempts w) = Threw OtherError /\
      exit = Threw (MathpixError PROCESSING_ERROR) /\
      requests (snd (processWithMathpix env0 storageUrl userId filename w))
        = requests w ++ [MATHPIX_BASE_URL +:+ "/pdf"])) /\
  (fetchThrows -> image = Threw (MathpixError PROCESSING_ERROR)) /\
  (forall response rest,
     net w = Some response :: rest ->
     (ok response = false ->
        image = Threw (MathpixError (statusErrorCode (http_status response)))) /\
     (ok response = true -> body_json response = None ->
        image = Threw (MathpixError PROCESSING_ERROR))).
Proof.
  intros attempts exit image fetchThrows.
  assert (Htyped : forall (o : Outcome MathpixResponse),
    typedExit o = true ->
    (exists value, o = Returned value) \/
    (exists code, o = Threw (MathpixError code) /\ In code allCodes)).
  { intros [value|[code|]] H; [left; eauto | right | discriminate H].
    exists code. split; [reflexivity | apply allCodes_complete]. }
  assert (Himage : fetchThrows -> image = Threw (MathpixError PROCESSING_ERROR)).
  { subst image fetchThrows.
    unfold processImageWithMathpix, try_catch, bind, fetch.
    now intros [-> | [rest ->]]. }
  split; [|split; [|split; [reflexivity|split; [|split; [|split]]]]].
  - apply Htyped. subst exit. unfold processWithMathpix.
    destruct (negb (truthy (EXPO_PUBLIC_MATHPIX_APP_ID env0))
              || negb (truthy (EXPO_PUBLIC_MATHPIX_APP_KEY env0)));
      [reflexivity | apply try_catch_typed].
  - apply Htyped. subst image. unfold processImageWithMathpix.
    apply try_catch_typed.
  - subst exit. unfold processWithMathpix.
    intros [-> | ->]; [reflexivity|].
    now rewrite orb_true_r.
  - intros Hid Hkey. subst exit. unfold processWithMathpix.
    rewrite Hid, Hkey. cbn [negb orb]. fold attempts.
    unfold try_catch.
    assert (Hlaw :
      snd (let (o, w') := attempts w in
           match o with
           | Returned a => (Returned a, w')
           | Threw e => rethrowTyped e w'
           end) = snd (attempts w) /\
      (forall value,
         fst (attempts w) = Returned value ->
         fst (let (o, w') := attempts w in
              match o with
              | Returned a => (Returned a, w')
              | Threw e => rethrowTyped e w'
              end) = Returned value) /\
      (forall code,
         fst (attempts w) = Threw (MathpixError code) ->
         fst (let (o, w') := attempts w in
              match o with
              | Returned a => (Returned a, w')
              | Threw e => rethrowTyped e w'
              end) = Threw (MathpixError code)) /\
      (fst (attempts w) = Threw OtherError ->
         fst (let (o, w') := attempts w in
              match o with
              | Returned a => (Returned a, w')
              | Threw e => rethrowTyped e w'
              end) = Threw (MathpixError PROCESSING_ERROR))).
    { destruct (attempts w) as [[value|[code|]] w1];
        unfold rethrowTyped, throw; cbn [fst snd];
        repeat split; congruence. }
    destruct Hlaw as (Hworld & Hvalue & Hcode & Hother).
    split; [exact Hworld|]. split; [exact Hvalue|]. split; [exact Hcode|].
    split; [exact Hother|].
    intros Hdoc Hthrows.
    assert (Hrun : attempts w
                   = (Threw OtherError,
                      mkWorld (tail (net w)) (storage_up w)
                        (requests w ++ [MATHPIX_BASE_URL +:+ "/pdf"])
                        (uploads w) (timers w))).
    { subst attempts. rewrite Hdoc.
      unfold retryWithDelay. change (Z.to_nat MAX_RETRIES) with 3%nat.
      cbn [retryLoop]. unfold processPdf at 1, bind at 1 2 3, fetch.
      now destruct Hthrows as [-> | [rest ->]]. }
    split; [now rewrite Hrun|]. split; [apply Hother; now rewrite Hrun|].
    transitivity (requests (snd (attempts w)));
      [exact (f_equal requests Hworld) | now rewrite Hrun].
  - exact Himage.
  - intros response rest Hnet. subst image.
    unfold processImageWithMathpix, try_catch, bind, fetch, readJson.
    rewrite Hnet. split.
    + intros ->. reflexivity.
    + intros -> ->. reflexivity.
Qed.

(** An untyped failure inside the orchestrator, here a network that is
    down, reaches the caller as [processing_error]. *)
Lemma network_down_is_processing_error :
  fst (processPdf "https://files/calc101.pdf" "u1" "calc101.pdf" (start []))
    = Threw OtherError /\
  fst (processWithMathpix env "https://files/calc101.pdf" "u1" "calc101.pdf"
         (start []))
    = Threw (MathpixError PROCESSING_ERROR).
Proof. split; vm_compute; reflexivity. Qed.

End OrchestratorFacts.

Section ImageFacts.
Import JsString Mathpix Stated MathpixScenario MoreScenarios.






(** Scenario D through the orchestrator: one request, no retry, nothing
    stored, and [low_confidence] reaches the caller. *)
Lemma scenarioD_orchestrator :
  processWithMathpix env "https://files/photo.jpg" "u1" "photo.JPG"
    (start [Some (okJson jsonD)])
  = (Threw (MathpixError LOW_CONFIDENCE),
     mkWorld [] true ["https://api.mathpix.com/v3/text"%string] [] []).
Proof. vm_compute. reflexivity. Qed.

(** Plain text without styled output: the read of [latex_styled.replace]
    throws a [TypeError], which leaves the image path as
    [processing_error]. *)
Lemma text_without_latex_is_processing_error :
  truthy (text jsonTextOnly) = true /\
  processImageWithMathpix "https://files/photo.jpg"
    (start [Some (okJson jsonTextOnly)])
  = (Threw (MathpixError PROCESSING_ERROR),
     mkWorld [] true ["https://api.mathpix.com/v3/text"%string] [] []).
Proof. split; vm_compute; reflexivity. Qed.

(** The threshold is compared as binary64 numbers: 0.7 itself passes. *)
Lemma threshold_is_strict :
  belowThreshold (Some CONFIDENCE_THRESHOLD) = false /\
  belowThreshold (Some 0.5%float) = true /\
  belowThreshold None = false.
Proof. repeat split; reflexivity. Qed.

(** Markers become single dollar signs, line feeds are collapsed and the
    ends are trimmed. *)
Lemma toMMD_example :
  toMMD (" \[a\] and \(b\)" +:+ String LF (String LF (String LF (String LF "c "))))
  = ("$a$ and $b$" +:+ String LF (String LF "c"))%string.
Proof. vm_compute. reflexivity. Qed.

End ImageFacts.

(* ===================================================================== *)
(** * More on the retry wrapper                                           *)
(* ===================================================================== *)

Section RetryBounds.
Import Mathpix RetrySpy RetryRuns MathpixScenario.
Context {W T : Type}.
Variable wait : Z -> W -> W.
Variable operation : W -> Outcome T * W.

Lemma retryLoop_zero (wait' : Z -> W -> W) (op : W -> Outcome T * W)
    attempt retries w :
  retryLoop wait' op O attempt retries w = (Threw (MathpixError TIMEOUT), w).
Proof. reflexivity. Qed.

(** The log of any run is a beginning of the log of the exhausted run. *)
Lemma retryLoop_log_prefix retries remaining attempt w log :
  retries = attempt + Z.of_nat remaining ->
  exists events,
    snd (snd (retryLoop (spyWait wait) (spyOperation operation)
                (S remaining) attempt retries (w, log)))
      = log ++ events /\
    events `prefix_of` Invoked :: laterAttempts remaining (attempt + 1) /\
    (invocations events <= S remaining)%nat.
Proof.
  revert attempt w log.
  induction remaining as [|remaining IH]; intros attempt w log Hretries;
    rewrite retryLoop_step, spyOperation_pair;
    destruct (operation w) as [[value|e] w1]; cbn [fst snd].
  - exists [Invoked]. cbn. split; [reflexivity|]. split; [|lia].
    exists []. reflexivity.
  - replace (attempt <? retries) with false by lia.
    rewrite andb_false_r. cbn [fst snd].
    exists [Invoked]. cbn. split; [reflexivity|]. split; [|lia].
    exists []. reflexivity.
  - exists [Invoked]. cbn [fst snd invocations].
    split; [reflexivity|]. split; [|lia].
    eexists. reflexivity.
  - destruct (retryable e && (attempt <? retries)); cbn [fst snd].
    + rewrite spyWait_pair.
      destruct (IH (attempt + 1) (wait (RETRY_DELAY * attempt) w1)
                  ((log ++ [Invoked]) ++ [Waited (RETRY_DELAY * attempt)]))
        as (events & Hlog & [rest Hrest] & Hcount); [lia|].
      exists (Invoked :: Waited (RETRY_DELAY * attempt) :: events).
      rewrite Hlog. rewrite <- !app_assoc. cbn [app invocations].
      split; [reflexivity|]. split; [|lia].
      exists rest. cbn [laterAttempts].
      replace (attempt + 1 - 1) with attempt by lia.
      cbn [app]. now rewrite <- Hrest.
    + exists [Invoked]. cbn [invocations].
      split; [reflexivity|]. split; [|lia].
      eexists. reflexivity.
Qed.

(** The log of any run stops on an invocation: it is the first invocation
    followed by a number of rounds "wait, invoke". *)
Lemma retryLoop_log_shape retries remaining attempt w log :
  retries = attempt + Z.of_nat remaining ->
  exists k,
    (k <= remaining)%nat /\
    snd (snd (retryLoop (spyWait wait) (spyOperation operation)
                (S remaining) attempt retries (w, log)))
      = log ++ Invoked :: laterAttempts k (attempt + 1).
Proof.
  revert attempt w log.
  induction remaining as [|remaining IH]; intros attempt w log Hretries;
    rewrite retryLoop_step, spyOperation_pair;
    destruct (operation w) as [[value|e] w1]; cbn [fst snd];
    try (exists O; split; [lia | reflexivity]).
  - replace (attempt <? retries) with false by lia.
    rewrite andb_false_r. cbn [fst snd].
    exists O. split; [lia | reflexivity].
  - destruct (retryable e && (attempt <? retries)); cbn [fst snd];
      [|exists O; split; [lia | reflexivity]].
    rewrite spyWait_pair.
    destruct (IH (attempt + 1) (wait (RETRY_DELAY * attempt) w1)
                ((log ++ [Invoked]) ++ [Waited (RETRY_DELAY * attempt)]))
      as (k & Hk & Hlog); [lia|].
    exists (S k). split; [lia|].
    rewrite Hlog. rewrite <- !app_assoc. cbn [app laterAttempts].
    replace (attempt + 1 - 1) with attempt by lia. reflexivity.
Qed.

Lemma last_laterAttempts k n :
  last (Invoked :: laterAttempts k n) = Some Invoked.
Proof.
  revert n. induction k as [|k IH]; intros n; [reflexivity|].
  cbn [laterAttempts]. rewrite !last_cons_cons. apply IH.
Qed.

(** With at least one attempt allowed, what the wrapper returns or throws is
    what one invocation of the operation returned or threw. *)
Lemma retryLoop_transparent retries remaining attempt w :
  retries = attempt + Z.of_nat remaining ->
  exists w0,
    operation w0 = retryLoop wait operation (S remaining) attempt retries w.
Proof.
  revert attempt w.
  induction remaining as [|remaining IH]; intros attempt w Hretries;
    cbn [retryLoop]; destruct (operation w) as [[value|e] w1] eqn:Hop;
    try (exists w; exact Hop).
  - replace (attempt <? retries) with false by lia.
    rewrite andb_false_r. exists w. exact Hop.
  - destruct (retryable e && (attempt <? retries)); [|exists w; exact Hop].
    apply IH. lia.
Qed.

Lemma retryLoop_recovers retries :
  forall failures attempt w value w' remaining log,
    FailsThenReturns wait operation attempt w failures value w' ->
    (failures < remaining)%nat ->
    retries = attempt + Z.of_nat remaining - 1 ->
    retryLoop (spyWait wait) (spyOperation operation)
      remaining attempt retries (w, log)
    = (Returned value,
       (w', log ++ Invoked :: laterAttempts failures (attempt + 1))).
Proof.
  induction failures as [|failures IH];
    intros attempt w value w' remaining log Hrun Hlt;
    inversion Hrun as [v0 w0 Hop | e w1 f v0 w0 Hop He Hrest]; subst;
    intros Hretries;
    (destruct remaining as [|remaining]; [lia|]);
    rewrite retryLoop_step, spyOperation_pair, Hop; cbn [fst snd].
  - reflexivity.
  - rewrite He. replace (attempt <? retries) with true by lia.
    cbn [andb]. rewrite spyWait_pair.
    rewrite (IH (attempt + 1) _ value w' remaining _ Hrest); [|lia|lia].
    rewrite <- !app_assoc. cbn [app laterAttempts].
    replace (attempt + 1 - 1) with attempt by lia. reflexivity.
Qed.

End RetryBounds.

Section RetryExtras.
Import Mathpix RetrySpy RetryRuns MathpixScenario MoreScenarios.

(** X1: whatever the operation does, with at least one attempt allowed the
    wrapper does "invoke, wait 2000, invoke, wait 4000, ..." and stops on an
    invocation: it invokes the operation [k + 1] times for some
    [k < retries], never more than [retries] times, never waits before the
    first attempt nor after the last one, and never for another delay.  With
    [retries] below 1 it throws [timeout] without invoking the operation. *)
Theorem retry_never_exceeds (W T : Type) (wait : Z -> W -> W)
    (operation : W -> Outcome T * W) (retries : Z) (w : W) :
  let log :=
    snd (snd (retryWithDelay (spyWait wait) (spyOperation operation)
                retries (w, []))) in
  (1 <= retries ->
     exists k,
       (k < Z.to_nat retries)%nat /\
       log = Invoked :: laterAttempts k 2 /\
       invocations log = S k /\
       last log = Some Invoked) /\
  log `prefix_of` exhaustedLog retries /\
  (invocations log <= Z.to_nat retries)%nat /\
  (retries <= 0 ->
     log = [] /\
     retryWithDelay wait operation retries w
       = (Threw (MathpixError TIMEOUT), w)).
Proof.
  intros log. subst log. unfold retryWithDelay, exhaustedLog.
  destruct (Z.to_nat retries) as [|remaining] eqn:Hn.
  - cbn [retryLoop snd invocations]. split; [lia|]. split; [|split].
    + eexists. reflexivity.
    + lia.
    + intros _. split; reflexivity.
  - destruct (retryLoop_log_prefix wait operation retries remaining 1 w [])
      as (events & Hlog & Hprefix & Hcount); [lia|].
    destruct (retryLoop_log_shape wait operation retries remaining 1 w [])
      as (k & Hk & Hshape); [lia|].
    rewrite Hshape. rewrite Hshape in Hlog. cbn [app] in *.
    replace (S remaining - 1)%nat with remaining by lia.
    split; [|split; [|split]]; [| | |lia].
    + intros _. exists k. change (1 + 1) with 2.
      split; [lia|]. split; [reflexivity|].
      cbn [invocations]. rewrite invocations_laterAttempts.
      split; [reflexivity | apply last_laterAttempts].
    + rewrite Hlog. exact Hprefix.
    + rewrite Hlog. exact Hcount.
Qed.

(** X2: with at least one attempt allowed, the wrapper adds no outcome of
    its own: the value or the error it ends with, and the world it leaves,
    are those of one invocation of the operation. *)
Theorem retry_outcome_is_an_invocation (W T : Type) (wait : Z -> W -> W)
    (operation : W -> Outcome T * W) (retries : Z) (w : W) :
  1 <= retries ->
  exists w0, operation w0 = retryWithDelay wait operation retries w.
Proof.
  intros Hretries. unfold retryWithDelay.
  destruct (Z.to_nat retries) as [|remaining] eqn:Hn; [lia|].
  apply retryLoop_transparent. lia.
Qed.

Lemma retry_outcome_is_an_invocation_witness :
  exists w0,
    processImageWithMathpix "https://files/photo.jpg" w0
    = retryWithDelay wait (processImageWithMathpix "https://files/photo.jpg")
        MAX_RETRIES (start [Some response503; Some (okJson jsonGood)]).
Proof.
  apply (retry_outcome_is_an_invocation World MathpixResponse wait
           (processImageWithMathpix "https://files/photo.jpg") MAX_RETRIES
           (start [Some response503; Some (okJson jsonGood)])).
  unfold MAX_RETRIES. lia.
Defined.

(** X3: when the operation fails [n] times in a row with [network_error] or
    [processing_error] and then returns, and [n < retries], the wrapper
    returns that value after [n + 1] invocations, having waited
    [RETRY_DELAY * k] after the [k]-th failure. *)
Theorem retry_recovers (W T : Type) (wait : Z -> W -> W)
    (operation : W -> Outcome T * W) (retries : Z) (w w' : W)
    (failures : nat) (value : T) :
  FailsThenReturns wait operation 1 w failures value w' ->
  Z.of_nat failures < retries ->
  retryWithDelay (spyWait wait) (spyOperation operation) retries (w, [])
    = (Returned value, (w', Invoked :: laterAttempts failures 2)) /\
  retryWithDelay wait operation retries w = (Returned value, w').
Proof.
  intros Hrun Hlt. unfold retryWithDelay.
  assert (Hspy :
    retryLoop (spyWait wait) (spyOperation operation)
      (Z.to_nat retries) 1 retries (w, [])
    = (Returned value, (w', Invoked :: laterAttempts failures 2))).
  { rewrite (retryLoop_recovers wait operation retries failures 1 w value w'
               (Z.to_nat retries) [] Hrun); [reflexivity|lia|lia]. }
  split; [exact Hspy|].
  destruct (spy_erasure wait operation (Z.to_nat retries) 1 retries w [])
    as [Ho Hw].
  rewrite Hspy in Ho, Hw. cbn [fst snd] in Ho, Hw.
  destruct (retryLoop wait operation (Z.to_nat retries) 1 retries w) as [o wf].
  cbn [fst snd] in Ho, Hw. now subst.
Qed.

(** A recognition answered first with status 503 and then properly. *)
Lemma retry_recovers_witness :
  let operation := processImageWithMathpix "https://files/photo.jpg" in
  let w := start [Some response503; Some (okJson jsonGood)] in
  let value := mkMathpixResponse (Some "$x+1$"%string) (Some "x+1"%string)
                 None None in
  let w' := mkWorld [] true
              [ "https://api.mathpix.com/v3/text"%string;
                "https://api.mathpix.com/v3/text"%string ] [] [2000] in
  retryWithDelay (spyWait wait) (spyOperation operation) MAX_RETRIES (w, [])
    = (Returned value, (w', [Invoked; Waited 2000; Invoked])) /\
  retryWithDelay wait operation MAX_RETRIES w = (Returned value, w').
Proof.
  apply (retry_recovers World MathpixResponse wait
           (processImageWithMathpix "https://files/photo.jpg") MAX_RETRIES
           (start [Some response503; Some (okJson jsonGood)])
           (mkWorld [] true
              [ "https://api.mathpix.com/v3/text"%string;
                "https://api.mathpix.com/v3/text"%string ] [] [2000])
           1%nat
           (mkMathpixResponse (Some "$x+1$"%string) (Some "x+1"%string)
              None None)).
  - eapply fails_first; [reflexivity | reflexivity |].
    apply returns_now. reflexivity.
  - unfold MAX_RETRIES. lia.
Defined.

End RetryExtras.

(* ===================================================================== *)
(** * Polling, download and the document path                             *)
(* ===================================================================== *)

Section PollFacts.
Import JsString Mathpix Stated Observers MathpixScenario MoreScenarios.

Lemma pollLoop_pending k pdfId (w : World) response rest :
  net w = Some response :: rest ->
  isPending response = true ->
  pollLoop (S k) pdfId w
  = pollLoop k pdfId
      (mkWorld rest (storage_up w) (requests w ++ [statusUrl pdfId])
         (uploads w) (timers w ++ [10000])).
Proof.
  intros Hnet Hpending. unfold isPending in Hpending.
  apply andb_true_iff in Hpending as [Hok Hbody].
  destruct (body_json response) as [j|] eqn:Hjson; [|discriminate].
  apply andb_true_iff in Hbody as [Hc He].
  apply negb_true_iff in Hc, He.
  cbn [pollLoop]. unfold bind at 1, try_catch, bind, fetch, readJson.
  rewrite Hnet. cbn [tail]. rewrite Hok, Hjson. unfold ret at 1 2.
  rewrite Hc, He. unfold sleep, ret. cbn [net storage_up requests uploads timers].
  reflexivity.
Qed.

Lemma pollLoop_completed k pdfId (w : World) response rest :
  net w = Some response :: rest ->
  isCompleted response = true ->
  pollLoop (S k) pdfId w
  = (Returned tt,
     mkWorld rest (storage_up w) (requests w ++ [statusUrl pdfId])
       (uploads w) (timers w)).
Proof.
  intros Hnet Hdone. unfold isCompleted in Hdone.
  apply andb_true_iff in Hdone as [Hok Hbody].
  destruct (body_json response) as [j|] eqn:Hjson; [|discriminate].
  cbn [pollLoop]. unfold bind at 1, try_catch, bind, fetch, readJson.
  rewrite Hnet. cbn [tail]. rewrite Hok, Hjson. unfold ret at 1 2.
  rewrite Hbody. reflexivity.
Qed.

Lemma pollLoop_pendings pdfId pendings :
  forall k (w : World) rest,
    Forall (fun r => isPending r = true) pendings ->
    net w = (map Some pendings) ++ rest ->
    pollLoop (length pendings + k) pdfId w
    = pollLoop k pdfId
        (afterPolls w rest (statusUrl pdfId) (length pendings)
           (length pendings) 10000).
Proof.
  induction pendings as [|response pendings IH]; intros k w rest Hall Hnet.
  - cbn in Hnet. cbn [length Nat.add]. unfold afterPolls. cbn [replicate].
    rewrite !app_nil_r. rewrite <- Hnet. now destruct w.
  - inversion Hall as [|? ? Hpending Hrest]; subst.
    cbn [length Nat.add].
    rewrite (pollLoop_pending _ pdfId w response ((map Some pendings) ++ rest)
               Hnet Hpending).
    rewrite (IH k (mkWorld (map Some pendings ++ rest) (storage_up w)
                     (requests w ++ [statusUrl pdfId]) (uploads w)
                     (timers w ++ [10000])) rest Hrest eq_refl).
    unfold afterPolls. cbn [net storage_up requests uploads timers replicate].
    now rewrite <- !app_assoc.
Qed.

Lemma afterPolls_zero (w : World) url ms :
  afterPolls w (net w) url 0 0 ms = w.
Proof. destruct w. unfold afterPolls. cbn. now rewrite !app_nil_r. Qed.

(** What a polling loop of [k] iterations leaves behind, whatever the
    service answers. *)
Lemma pollLoop_footprint pdfId :
  forall k (w : World),
    exists m t,
      (m <= k)%nat /\ (t <= m)%nat /\
      snd (pollLoop k pdfId w)
        = afterPolls w (drop m (net w)) (statusUrl pdfId) m t 10000 /\
      typedExit (fst (pollLoop k pdfId w)) = true.
Proof.
  induction k as [|k IH]; intros w.
  - exists O, O. cbn [pollLoop drop]. unfold throw. cbn [fst snd].
    rewrite afterPolls_zero. repeat split; lia.
  - assert (Hone : forall o : Outcome unit,
      typedExit o = true ->
      exists m t,
        (m <= S k)%nat /\ (t <= m)%nat /\
        mkWorld (tail (net w)) (storage_up w)
          (requests w ++ [statusUrl pdfId]) (uploads w) (timers w)
          = afterPolls w (drop m (net w)) (statusUrl pdfId) m t 10000 /\
        typedExit o = true).
    { intros o Ho. exists 1%nat, O.
      unfold afterPolls. cbn [replicate]. rewrite app_nil_r.
      split; [lia|]. split; [lia|]. split; [|exact Ho].
      now destruct (net w). }
    cbn [pollLoop].
    unfold bind, try_catch, fetch, readJson, handleMathpixResponse,
      rethrowTyped, throw, ret, sleep.
    fold (statusUrl pdfId).
    destruct (net w) as [|[response|] rest] eqn:Hnet;
      cbn [tail fst snd] in *; try (apply Hone; reflexivity).
    destruct (ok response); cbn [fst snd];
      [|apply Hone; reflexivity].
    destruct (body_json response) as [j|]; cbn [fst snd];
      [|apply Hone; reflexivity].
    destruct (fieldIs (status j) "completed"); cbn [fst snd];
      [apply Hone; reflexivity|].
    destruct (fieldIs (status j) "error"); cbn [fst snd];
      [apply Hone; reflexivity|].
    cbn [net storage_up requests uploads timers].
    destruct (IH (mkWorld rest (storage_up w)
                    (requests w ++ [statusUrl pdfId]) (uploads w)
                    (timers w ++ [10000])))
      as (m & t & Hm & Ht & Hworld & Htyped).
    exists (S m), (S t). rewrite Hworld, Htyped.
    unfold afterPolls.
    cbn [net storage_up requests uploads timers replicate drop].
    rewrite <- !app_assoc. cbn [app].
    repeat split; lia.
Qed.

(** X4: when the service answers [n] polls with a status that is neither
    [completed] nor [error] and the next one with [completed], and [n < 30],
    [waitForProcessing] returns after exactly [n + 1] requests, all to the
    status address of the job, and [n] delays of 10 s; it stores nothing and
    leaves the later answers unread. *)
Theorem waitForProcessing_completes pdfId (w : World) pendings done rest :
  Forall (fun r => isPending r = true) pendings ->
  isCompleted done = true ->
  (length pendings < 30)%nat ->
  net w = map Some pendings ++ Some done :: rest ->
  waitForProcessing pdfId w
  = (Returned tt,
     mkWorld rest (storage_up w)
       (requests w ++ replicate (S (length pendings)) (statusUrl pdfId))
       (uploads w)
       (timers w ++ replicate (length pendings) 10000)).
Proof.
  intros Hpend Hdone Hlt Hnet. unfold waitForProcessing.
  replace 30%nat with (length pendings + S (29 - length pendings))%nat by lia.
  rewrite (pollLoop_pendings pdfId pendings _ w (Some done :: rest) Hpend Hnet).
  rewrite (pollLoop_completed _ pdfId
             (afterPolls w (Some done :: rest) (statusUrl pdfId)
                (length pendings) (length pendings) 10000)
             done rest eq_refl Hdone).
  unfold afterPolls. cbn [storage_up requests uploads timers].
  rewrite <- app_assoc.
  replace (replicate (length pendings) (statusUrl pdfId) ++ [statusUrl pdfId])
    with (replicate (S (length pendings)) (statusUrl pdfId)); [reflexivity|].
  now rewrite replicate_S_end.
Qed.

Lemma waitForProcessing_completes_witness :
  waitForProcessing "job-1"
    (start [Some (okJson jsonProcessing); Some (okJson jsonProcessing);
            Some (okJson jsonCompleted); Some responseMmd])
  = (Returned tt,
     mkWorld [Some responseMmd] true
       (replicate 3 (statusUrl "job-1")) [] (replicate 2 10000)).
Proof.
  apply (waitForProcessing_completes "job-1"
           (start [Some (okJson jsonProcessing); Some (okJson jsonProcessing);
                   Some (okJson jsonCompleted); Some responseMmd])
           [okJson jsonProcessing; okJson jsonProcessing]
           (okJson jsonCompleted) [Some responseMmd]).
  - repeat constructor.
  - reflexivity.
  - cbn. lia.
  - reflexivity.
Defined.

(** X5: when the service answers thirty polls in a row with a status that
    is neither [completed] nor [error], [waitForProcessing] throws [timeout]
    after exactly thirty requests and thirty delays of 10 s: it waits once
    more after the last poll. *)
Theorem waitForProcessing_times_out pdfId (w : World) pendings rest :
  Forall (fun r => isPending r = true) pendings ->
  length pendings = 30%nat ->
  net w = map Some pendings ++ rest ->
  waitForProcessing pdfId w
  = (Threw (MathpixError TIMEOUT),
     mkWorld rest (storage_up w)
       (requests w ++ replicate 30 (statusUrl pdfId)) (uploads w)
       (timers w ++ replicate 30 10000)) /\
  waited (snd (waitForProcessing pdfId w)) = waited w + 300000.
Proof.
  intros Hpend Hlen Hnet.
  assert (Hrun : waitForProcessing pdfId w
    = (Threw (MathpixError TIMEOUT),
       mkWorld rest (storage_up w)
         (requests w ++ replicate 30 (statusUrl pdfId)) (uploads w)
         (timers w ++ replicate 30 10000))).
  { unfold waitForProcessing. rewrite <- Hlen.
    replace (length pendings) with (length pendings + 0)%nat at 1 by lia.
    now rewrite (pollLoop_pendings pdfId pendings O w rest Hpend Hnet). }
  split; [exact Hrun|].
  rewrite Hrun. unfold waited. cbn [snd timers]. rewrite foldr_app.
  change (foldr Z.add 0 (replicate 30 10000)) with 300000.
  generalize (timers w). intros l. induction l as [|x l IHl]; cbn [foldr]; lia.
Qed.

Lemma waitForProcessing_times_out_witness :
  waitForProcessing "job-1"
    (start (map Some (replicate 30 (okJson jsonProcessing))))
  = (Threw (MathpixError TIMEOUT),
     mkWorld [] true (replicate 30 (statusUrl "job-1")) []
       (replicate 30 10000)) /\
  waited (snd (waitForProcessing "job-1"
                 (start (map Some (replicate 30 (okJson jsonProcessing))))))
  = 0 + 300000.
Proof.
  apply (waitForProcessing_times_out "job-1"
           (start (map Some (replicate 30 (okJson jsonProcessing))))
           (replicate 30 (okJson jsonProcessing)) []).
  - apply Forall_replicate. reflexivity.
  - reflexivity.
  - cbn [start net]. now rewrite app_nil_r.
Defined.

(** X6: whatever the service answers, [waitForProcessing] ends with a value
    or a [MathpixError], never with an untyped error; it sends at most
    thirty requests, all to the status address of the job, waits only for
    delays of 10 s, at most one per request, stores nothing and reads one
    answer per request. *)
Theorem waitForProcessing_footprint pdfId (w : World) :
  exists m t,
    (m <= 30)%nat /\ (t <= m)%nat /\
    requests (snd (waitForProcessing pdfId w))
      = requests w ++ replicate m (statusUrl pdfId) /\
    timers (snd (waitForProcessing pdfId w))
      = timers w ++ replicate t 10000 /\
    uploads (snd (waitForProcessing pdfId w)) = uploads w /\
    net (snd (waitForProcessing pdfId w)) = drop m (net w) /\
    fst (waitForProcessing pdfId w) <> Threw OtherError.
Proof.
  unfold waitForProcessing.
  destruct (pollLoop_footprint pdfId 30 w) as (m & t & Hm & Ht & Hw & Hty).
  exists m, t. rewrite Hw. unfold afterPolls.
  cbn [net requests uploads timers].
  repeat split; try assumption.
  intros Hbad. rewrite Hbad in Hty. discriminate Hty.
Qed.

End PollFacts.

Section DownloadFacts.
Import JsString Mathpix Stated Observers Budget MathpixScenario MoreScenarios.

Lemma waited_app (w : World) extra n s r u :
  waited (mkWorld n s r u (timers w ++ extra))
  = waited w + foldr Z.add 0 extra.
Proof.
  unfold waited. cbn [timers]. rewrite foldr_app.
  generalize (timers w). intros l.
  induction l as [|x l IHl]; cbn [foldr]; lia.
Qed.

Lemma sum_replicate t ms : foldr Z.add 0 (replicate t ms) = Z.of_nat t * ms.
Proof. induction t as [|t IH]; cbn [replicate foldr]; lia. Qed.

(** X7: [downloadMMD] sends one request.  When it returns, the text it
    returns is not blank and has been stored, untrimmed, as the single new
    artifact [users/<userId>/mmd/<filename>]; when it throws, nothing was
    stored. *)
Theorem downloadMMD_stores_iff_returns pdfId userId filename (w : World) :
  let run := downloadMMD pdfId userId filename w in
  requests (snd run)
    = requests w ++ [MATHPIX_BASE_URL +:+ "/pdf/" +:+ pdfId +:+ ".mmd"] /\
  timers (snd run) = timers w /\
  match fst run with
  | Returned content =>
      trim content <> ""%string /\
      storage_up w = true /\
      uploads (snd run)
        = uploads w ++ [("users/" +:+ userId +:+ "/mmd/" +:+ filename, content)]
  | Threw _ => uploads (snd run) = uploads w
  end.
Proof.
  intros run. subst run.
  unfold downloadMMD, bind, fetch, readText, handleMathpixResponse,
    uploadBytes, throw, ret.
  destruct (net w) as [|[response|] rest]; cbn [fst snd requests timers uploads];
    try (repeat split; reflexivity).
  destruct (ok response); cbn [fst snd requests timers uploads];
    [|repeat split; reflexivity].
  destruct (body_text response) as [content|];
    cbn [fst snd requests timers uploads]; [|repeat split; reflexivity].
  unfold nonempty.
  destruct (String.eqb_spec (trim content) ""); cbn [negb fst snd];
    cbn [requests timers uploads storage_up]; [repeat split; reflexivity|].
  destruct (storage_up w); cbn [fst snd requests timers uploads];
    repeat split; try reflexivity; assumption.
Qed.

End DownloadFacts.

(* ===================================================================== *)
(** * Budgets: requests, delays and stored artifacts                      *)
(* ===================================================================== *)

Section QuietFacts.
Import JsString Mathpix Stated Observers Budget MathpixScenario.

Lemma Quiet_weaken {T} c d c' d' persist (op : M T) :
  (c <= c')%nat -> d <= d' -> Quiet c d persist op -> Quiet c' d' persist op.
Proof.
  intros Hc Hd Hop w. destruct (Hop w) as (Hr & Hw & Hu).
  split; [lia|]. split; [lia|exact Hu].
Qed.

Lemma Quiet_ret {T} (value : T) persist :
  persist value = [] -> Quiet 0 0 persist (ret value).
Proof.
  intros Hp w. unfold ret. cbn [fst snd]. rewrite Hp, app_nil_r.
  split; [lia|]. split; [lia|reflexivity].
Qed.

Lemma Quiet_throw {T} e (persist : T -> list (string * string)) :
  Quiet 0 0 persist (throw e).
Proof.
  intros w. unfold throw. cbn [fst snd]. rewrite app_nil_r.
  split; [lia|]. split; [lia|reflexivity].
Qed.

Lemma Quiet_fetch url : Quiet 1 0 (fun _ => []) (fetch url).
Proof.
  intros w. unfold fetch.
  destruct (net w) as [|[response|] rest]; cbn [fst snd requests uploads];
    rewrite length_app, app_nil_r; unfold waited; cbn [timers length];
    (split; [lia|]; split; [lia|reflexivity]).
Qed.

Lemma Quiet_readJson response : Quiet 0 0 (fun _ => []) (readJson response).
Proof.
  unfold readJson. destruct (body_json response);
    [now apply Quiet_ret | apply Quiet_throw].
Qed.

Lemma Quiet_checkOk response endpoint :
  Quiet 0 0 (fun _ => [])
    (if ok response then ret tt
     else handleMathpixResponse response endpoint).
Proof.
  destruct (ok response); [now apply Quiet_ret | apply Quiet_throw].
Qed.

(** Sequencing after a computation that stores nothing. *)
Lemma Quiet_bind {A T} c1 d1 c2 d2 persist (m : M A) (k : A -> M T) :
  0 <= d2 ->
  Quiet c1 d1 (fun _ => []) m ->
  (forall a, Quiet c2 d2 persist (k a)) ->
  Quiet (c1 + c2) (d1 + d2) persist (bind m k).
Proof.
  intros Hd2 Hm Hk w. unfold bind.
  destruct (Hm w) as (Hr & Hw & Hu).
  destruct (m w) as [[a|e] w1]; cbn [fst snd] in *.
  - destruct (Hk a w1) as (Hr2 & Hw2 & Hu2).
    rewrite app_nil_r in Hu. rewrite Hu in Hu2.
    split; [lia|]. split; [lia|exact Hu2].
  - split; [lia|]. split; [lia|exact Hu].
Qed.

(** The handler shared by the orchestrator leaves the world as it is. *)
Lemma Quiet_try_catch {T} c d persist (m : M T) :
  Quiet c d persist m -> Quiet c d persist (try_catch m rethrowTyped).
Proof.
  intros Hm w. unfold try_catch, rethrowTyped, throw.
  destruct (Hm w) as (Hr & Hw & Hu).
  destruct (m w) as [[a|[code|]] w1]; cbn [fst snd] in *;
    (split; [lia|]; split; [lia|exact Hu]).
Qed.

Lemma Quiet_sleep ms : 0 <= ms -> Quiet 0 ms (fun _ => []) (sleep ms).
Proof.
  intros Hms w. unfold sleep. cbn [fst snd requests uploads].
  rewrite waited_app, app_nil_r. cbn [foldr].
  split; [lia|]. split; [lia|reflexivity].
Qed.

Lemma Quiet_waitForProcessing pdfId :
  Quiet 30 300000 (fun _ => []) (waitForProcessing pdfId).
Proof.
  intros w. unfold waitForProcessing.
  destruct (pollLoop_footprint pdfId 30 w) as (m & t & Hm & Ht & Hw & _).
  rewrite Hw. unfold afterPolls. cbn [requests uploads].
  rewrite waited_app, sum_replicate, length_app, length_replicate.
  split; [lia|]. split; [lia|].
  destruct (fst (pollLoop 30 pdfId w)); now rewrite app_nil_r.
Qed.

Lemma Quiet_downloadMMD pdfId userId filename :
  Quiet 1 0
    (fun content => [("users/" +:+ userId +:+ "/mmd/" +:+ filename, content)])
    (downloadMMD pdfId userId filename).
Proof.
  intros w.
  unfold downloadMMD, bind, fetch, readText, handleMathpixResponse,
    uploadBytes, throw, ret, waited.
  destruct (net w) as [|[response|] rest];
    cbn [fst snd requests timers uploads storage_up net];
    rewrite ?length_app, ?app_nil_r; cbn [length];
    try (split; [lia|]; split; [lia|reflexivity]).
  destruct (ok response); cbn [fst snd requests timers uploads storage_up net];
    rewrite ?length_app, ?app_nil_r; cbn [length];
    [|split; [lia|]; split; [lia|reflexivity]].
  destruct (body_text response) as [content|];
    cbn [fst snd requests timers uploads storage_up net];
    rewrite ?length_app, ?app_nil_r; cbn [length];
    [|split; [lia|]; split; [lia|reflexivity]].
  destruct (nonempty (trim content)); cbn [fst snd requests timers uploads storage_up net];
    rewrite ?length_app, ?app_nil_r; cbn [length];
    [|split; [lia|]; split; [lia|reflexivity]].
  destruct (storage_up w); cbn [fst snd requests timers uploads storage_up net];
    rewrite ?length_app, ?app_nil_r; cbn [length];
    (split; [lia|]; split; [lia|reflexivity]).
Qed.

Lemma Quiet_processImage imageUrl :
  Quiet 1 0 (fun _ => []) (processImageWithMathpix imageUrl).
Proof.
  unfold processImageWithMathpix. apply Quiet_try_catch.
  change 1%nat with (1 + (0 + (0 + 0)))%nat.
  change 0 with (0 + (0 + (0 + 0))) at 1.
  apply Quiet_bind; [lia | apply Quiet_fetch |]. intros response.
  apply Quiet_bind; [lia | apply Quiet_checkOk |]. intros _.
  apply Quiet_bind; [lia | apply Quiet_readJson |]. intros result.
  destruct (truthy (error result)); [apply Quiet_throw|].
  destruct (belowThreshold (confidence result)); [apply Quiet_throw|].
  destruct (negb (truthy (text result)) && negb (truthy (latex_styled result)));
    [apply Quiet_throw|].
  destruct (latex_styled result) as [latex|]; [|apply Quiet_throw].
  destruct (nonempty (toMMD latex)); [now apply Quiet_ret | apply Quiet_throw].
Qed.

Lemma Quiet_processPdf storageUrl userId filename :
  Quiet 32 300000 (artifactOf userId filename)
    (processPdf storageUrl userId filename).
Proof.
  unfold processPdf.
  change 32%nat with (1 + (0 + (0 + (30 + (1 + 0)))))%nat.
  change 300000 with (0 + (0 + (0 + (300000 + (0 + 0))))).
  apply Quiet_bind; [lia | apply Quiet_fetch |]. intros response.
  apply Quiet_bind; [lia | apply Quiet_checkOk |]. intros _.
  apply Quiet_bind; [lia | apply Quiet_readJson |]. intros result.
  assert (Hthrow : forall c d e,
    (0 <= d) -> Quiet (T := MathpixResponse) c d (artifactOf userId filename)
                  (throw e)).
  { intros c d e Hd. apply (Quiet_weaken 0 0); [lia | lia | apply Quiet_throw]. }
  destruct (pdf_id result) as [pdfId|]; [|apply Hthrow; lia].
  destruct (nonempty pdfId); [|apply Hthrow; lia].
  apply Quiet_bind; [lia | apply Quiet_waitForProcessing |]. intros _.
  intros w. unfold bind.
  destruct (Quiet_downloadMMD pdfId userId filename w) as (Hr & Hw & Hu).
  destruct (downloadMMD pdfId userId filename w) as [[content|e] w1];
    cbn [fst snd] in *; unfold ret; cbn [fst snd];
    (split; [lia|]; split; [lia|exact Hu]).
Qed.

Lemma delayBudget_nonneg n attempt : 0 <= attempt -> 0 <= delayBudget n attempt.
Proof.
  revert attempt. induction n as [|n IH]; intros attempt Ha; [cbn; lia|].
  cbn [delayBudget]. destruct n as [|n]; [lia|].
  specialize (IH (attempt + 1) ltac:(lia)). unfold RETRY_DELAY in *. lia.
Qed.

(** The retry loop costs at most the budget of the operation for each of
    its iterations, plus the delays between them; it stores what its last
    invocation stored. *)
Lemma Quiet_retryLoop {T} c d persist (op : M T) retries :
  0 <= d ->
  Quiet c d persist op ->
  forall n attempt,
    0 <= attempt ->
    retries <= attempt + Z.of_nat n - 1 ->
    Quiet (n * c) (Z.of_nat n * d + delayBudget n attempt) persist
      (retryLoop wait op n attempt retries).
Proof.
  intros Hd Hop. induction n as [|n IH]; intros attempt Ha Hretries w.
  - cbn [retryLoop fst snd delayBudget]. rewrite app_nil_r.
    split; [lia|]. split; [lia|reflexivity].
  - pose proof (delayBudget_nonneg (S n) attempt Ha) as Hbudget.
    cbn [retryLoop].
    destruct (Hop w) as (Hr & Hw & Hu).
    destruct (op w) as [[value|e] w1]; cbn [fst snd] in *.
    + split; [lia|]. split; [lia|exact Hu].
    + destruct (retryable e && (attempt <? retries)) eqn:Hretry;
        cbn [fst snd]; [|split; [lia|]; split; [lia|exact Hu]].
      apply andb_true_iff in Hretry as [_ Hlt]. apply Z.ltb_lt in Hlt.
      destruct n as [|n]; [lia|].
      destruct (IH (attempt + 1) ltac:(lia) ltac:(lia)
                  (wait (RETRY_DELAY * attempt) w1)) as (Hr2 & Hw2 & Hu2).
      destruct (Quiet_sleep (RETRY_DELAY * attempt)
                  ltac:(unfold RETRY_DELAY; lia) w1) as (Hr3 & Hw3 & Hu3).
      change (snd (sleep (RETRY_DELAY * attempt) w1))
        with (wait (RETRY_DELAY * attempt) w1) in Hr3, Hw3, Hu3.
      cbn [fst] in Hu3. rewrite !app_nil_r in *.
      rewrite Hu3, Hu in Hu2.
      change (delayBudget (S (S n)) attempt)
        with (RETRY_DELAY * attempt + delayBudget (S n) (attempt + 1)).
      split; [lia|]. split; [lia|exact Hu2].
Qed.

(** The whole orchestrator: an image costs at most three requests and 6 s
    of delays and stores nothing; a document costs at most 96 requests and
    906 s of delays and stores the artifact of the result it returns. *)
Lemma Quiet_processWithMathpix env0 storageUrl userId filename :
  Quiet (if isImage filename then 3 else 96)
    (if isImage filename then 6000 else 906000)
    (if isImage filename then fun _ => [] else artifactOf userId filename)
    (processWithMathpix env0 storageUrl userId filename).
Proof.
  unfold processWithMathpix.
  destruct (negb (truthy (EXPO_PUBLIC_MATHPIX_APP_ID env0))
            || negb (truthy (EXPO_PUBLIC_MATHPIX_APP_KEY env0))).
  - apply (Quiet_weaken 0 0);
      [lia | now destruct (isImage filename) | apply Quiet_throw].
  - apply Quiet_try_catch. unfold retryWithDelay, MAX_RETRIES.
    destruct (isImage filename).
    + apply (Quiet_retryLoop 1 0 _ _ 3 ltac:(lia)
               (Quiet_processImage storageUrl) 3%nat 1); lia.
    + apply (Quiet_retryLoop 32 300000 _ _ 3 ltac:(lia)
               (Quiet_processPdf storageUrl userId filename) 3%nat 1); lia.
Qed.

End QuietFacts.

Section OrchestratorExtras.
Import JsString Mathpix Stated Observers Budget MathpixScenario MoreScenarios.

Lemma processPdf_returns_mmd storageUrl userId filename (w : World) result :
  fst (processPdf storageUrl userId filename w) = Returned result ->
  exists content, mmd result = Some content.
Proof.
  unfold processPdf, bind, fetch, readJson, handleMathpixResponse, throw, ret.
  destruct (net w) as [|[response|] rest]; cbn [fst snd]; try discriminate.
  destruct (ok response); cbn [fst snd]; [|discriminate].
  destruct (body_json response) as [j|]; cbn [fst snd]; [|discriminate].
  destruct (pdf_id j) as [pdfId|]; cbn [fst snd]; [|discriminate].
  destruct (nonempty pdfId); cbn [fst snd]; [|discriminate].
  destruct (waitForProcessing pdfId _) as [[[]|e] w2]; cbn [fst snd];
    [|discriminate].
  destruct (downloadMMD pdfId userId filename w2) as [[content|e] w3];
    cbn [fst snd]; [|discriminate].
  intros [= <-]. now exists content.
Qed.

(** X8: the orchestrator stores an artifact exactly when it returns the
    result of a document: then the single new artifact is
    [users/<userId>/mmd/<filename>] and holds the markup it returns.  When it
    throws, and on the image path in every case, it stores nothing, however
    many attempts were made. *)
Theorem processWithMathpix_stores_on_success (env0 : Env)
    (storageUrl userId filename : string) (w : World) :
  let run := processWithMathpix env0 storageUrl userId filename w in
  match fst run with
  | Returned result =>
      if isImage filename
      then uploads (snd run) = uploads w
      else exists content,
             mmd result = Some content /\
             uploads (snd run)
               = uploads w
                 ++ [("users/" +:+ userId +:+ "/mmd/" +:+ filename, content)]
  | Threw _ => uploads (snd run) = uploads w
  end.
Proof.
  intros run. subst run.
  destruct (Quiet_processWithMathpix env0 storageUrl userId filename w)
    as (_ & _ & Hu).
  destruct (fst (processWithMathpix env0 storageUrl userId filename w))
    as [result|e] eqn:Hout; [|now rewrite app_nil_r in Hu].
  destruct (isImage filename) eqn:Himage; [now rewrite app_nil_r in Hu|].
  assert (Hmmd : exists content, mmd result = Some content).
  { revert Hout. unfold processWithMathpix. rewrite Himage.
    destruct (negb (truthy (EXPO_PUBLIC_MATHPIX_APP_ID env0))
              || negb (truthy (EXPO_PUBLIC_MATHPIX_APP_KEY env0)));
      [discriminate|].
    unfold try_catch, retryWithDelay, MAX_RETRIES.
    destruct (retryLoop_transparent wait
                (processPdf storageUrl userId filename) 3 2 1 w eq_refl)
      as [w0 Hw0].
    change (Z.to_nat 3) with 3%nat. rewrite <- Hw0.
    pose proof (processPdf_returns_mmd storageUrl userId filename w0) as Hret.
    destruct (processPdf storageUrl userId filename w0) as [[r|[code|]] w1];
      cbn [fst snd] in *; try discriminate.
    intros [= <-]. now apply Hret. }
  destruct Hmmd as [content Hmmd]. exists content. split; [exact Hmmd|].
  unfold artifactOf in Hu. now rewrite Hmmd in Hu.
Qed.

(** X9: one call of the orchestrator sends at most 3 requests and waits at
    most 6 s for an image, and at most 96 requests and 906 s for a
    document, whatever the service answers; without credentials it sends
    nothing and throws [invalid_credentials]. *)
Theorem processWithMathpix_budget (env0 : Env)
    (storageUrl userId filename : string) (w : World) :
  let run := processWithMathpix env0 storageUrl userId filename w in
  (length (requests (snd run))
     <= length (requests w) + (if isImage filename then 3 else 96))%nat /\
  waited w <= waited (snd run)
    <= waited w + (if isImage filename then 6000 else 906000) /\
  (truthy (EXPO_PUBLIC_MATHPIX_APP_ID env0) = false \/
   truthy (EXPO_PUBLIC_MATHPIX_APP_KEY env0) = false ->
   run = (Threw (MathpixError INVALID_CREDENTIALS), w)).
Proof.
  intros run. subst run.
  destruct (Quiet_processWithMathpix env0 storageUrl userId filename w)
    as (Hr & Hw & _).
  split; [exact Hr|]. split; [exact Hw|].
  intros Hmissing. unfold processWithMathpix.
  destruct Hmissing as [-> | ->]; cbn [negb orb]; [reflexivity|].
  now rewrite orb_true_r.
Qed.

(** X10: a conversion that goes well.  With credentials set and a file
    that is not an image, when the submission is accepted with a job
    identifier, [n < 30] polls find the job unfinished, the next one finds it
    completed, the download yields text that is not blank and the storage
    accepts it, the orchestrator returns that text with the fields of the
    submission answer; it has sent the submission, [n + 1] polls and the
    download, in this order, waited [n] times 10 s, and stored the text as
    the single new artifact. *)
Theorem processWithMathpix_converts (env0 : Env)
    (storageUrl userId filename : string) (w : World)
    submitted j pdfId pendings done downloaded content rest :
  truthy (EXPO_PUBLIC_MATHPIX_APP_ID env0) = true ->
  truthy (EXPO_PUBLIC_MATHPIX_APP_KEY env0) = true ->
  isImage filename = false ->
  net w = Some submitted :: map Some pendings
            ++ Some done :: Some downloaded :: rest ->
  ok submitted = true ->
  body_json submitted = Some j ->
  pdf_id j = Some pdfId ->
  nonempty pdfId = true ->
  Forall (fun r => isPending r = true) pendings ->
  (length pendings < 30)%nat ->
  isCompleted done = true ->
  ok downloaded = true ->
  body_text downloaded = Some content ->
  nonempty (trim content) = true ->
  storage_up w = true ->
  processWithMathpix env0 storageUrl userId filename w
  = (Returned (mkMathpixResponse (Some content) (text j) (error j)
                 (Some pdfId)),
     mkWorld rest true
       (requests w
          ++ [MATHPIX_BASE_URL +:+ "/pdf"]
          ++ replicate (S (length pendings)) (statusUrl pdfId)
          ++ [MATHPIX_BASE_URL +:+ "/pdf/" +:+ pdfId +:+ ".mmd"])
       (uploads w ++ [("users/" +:+ userId +:+ "/mmd/" +:+ filename, content)])
       (timers w ++ replicate (length pendings) 10000)).
Proof.
  intros Hid Hkey Himage Hnet Hok Hjson Hpdf Hne Hpend Hlt Hdone
    Hok2 Htext Hne2 Hup.
  unfold processWithMathpix. rewrite Hid, Hkey, Himage. cbn [negb orb].
  unfold try_catch, retryWithDelay, MAX_RETRIES.
  change (Z.to_nat 3) with 3%nat. cbn [retryLoop].
  assert (Hrun : processPdf storageUrl userId filename w
    = (Returned (mkMathpixResponse (Some content) (text j) (error j)
                   (Some pdfId)),
       mkWorld rest true
         (requests w
            ++ [MATHPIX_BASE_URL +:+ "/pdf"]
            ++ replicate (S (length pendings)) (statusUrl pdfId)
            ++ [MATHPIX_BASE_URL +:+ "/pdf/" +:+ pdfId +:+ ".mmd"])
         (uploads w
            ++ [("users/" +:+ userId +:+ "/mmd/" +:+ filename, content)])
         (timers w ++ replicate (length pendings) 10000))).
  { unfold processPdf. unfold bind at 1. unfold fetch. rewrite Hnet.
    cbn [tail]. unfold bind at 1. rewrite Hok. unfold ret at 1.
    unfold bind at 1. unfold readJson. rewrite Hjson. unfold ret at 1.
    rewrite Hpdf, Hne. unfold bind at 1.
    unfold waitForProcessing.
    replace 30%nat with (length pendings + S (29 - length pendings))%nat by lia.
    rewrite (pollLoop_pendings pdfId pendings _
               (mkWorld
                  (map Some pendings ++ Some done :: Some downloaded :: rest)
                  (storage_up w) (requests w ++ [MATHPIX_BASE_URL +:+ "/pdf"])
                  (uploads w) (timers w))
               (Some done :: Some downloaded :: rest) Hpend eq_refl).
    rewrite (pollLoop_completed _ pdfId
               (afterPolls _ (Some done :: Some downloaded :: rest)
                  (statusUrl pdfId) (length pendings) (length pendings) 10000)
               done (Some downloaded :: rest) eq_refl Hdone).
    unfold afterPolls. cbn [net storage_up requests uploads timers].
    unfold bind, downloadMMD, bind, fetch.
    cbn [net storage_up requests uploads timers tail].
    rewrite Hok2. unfold ret at 1. unfold readText. rewrite Htext.
    unfold ret at 1. rewrite Hne2. unfold uploadBytes.
    cbn [net storage_up requests uploads timers]. rewrite Hup.
    unfold ret. f_equal. f_equal.
    rewrite replicate_S_end, <- !app_assoc. reflexivity. }
  rewrite Hrun. reflexivity.
Qed.

Lemma processWithMathpix_converts_witness :
  processWithMathpix env "https://files/calc101.pdf" "u1" "calc101.pdf"
    (start [Some (okJson jsonSubmitted); Some (okJson jsonProcessing);
            Some (okJson jsonProcessing); Some (okJson jsonCompleted);
            Some responseMmd])
  = (Returned (mkMathpixResponse (Some "$x^2$"%string) None None
                 (Some "job-1"%string)),
     mkWorld [] true
       [ "https://api.mathpix.com/v3/pdf"%string;
         "https://api.mathpix.com/v3/pdf/job-1"%string;
         "https://api.mathpix.com/v3/pdf/job-1"%string;
         "https://api.mathpix.com/v3/pdf/job-1"%string;
         "https://api.mathpix.com/v3/pdf/job-1.mmd"%string ]
       [("users/u1/mmd/calc101.pdf"%string, "$x^2$"%string)]
       [10000; 10000]).
Proof.
  apply (processWithMathpix_converts env "https://files/calc101.pdf" "u1"
           "calc101.pdf"
           (start [Some (okJson jsonSubmitted); Some (okJson jsonProcessing);
                   Some (okJson jsonProcessing); Some (okJson jsonCompleted);
                   Some responseMmd])
           (okJson jsonSubmitted) jsonSubmitted "job-1"
           [okJson jsonProcessing; okJson jsonProcessing]
           (okJson jsonCompleted) responseMmd "$x^2$" []);
    try reflexivity.
  - repeat constructor.
  - cbn. lia.
Defined.

End OrchestratorExtras.

(* ===================================================================== *)
(** * Normal forms of the string operations                               *)
(* ===================================================================== *)

Section NormalForms.
Import JsString StringObservers Mathpix.

(** Induction on strings two characters at a time. *)
Lemma string_ind2 (P : string -> Prop) :
  P ""%string ->
  (forall c, P (String c "")) ->
  (forall c d s, P s -> P (String d s) -> P (String c (String d s))) ->
  forall s, P s.
Proof.
  intros H0 H1 H2 s.
  assert (H : P s /\ forall c, P (String c s)); [|tauto].
  induction s as [|d s [IHs IHc]]; [auto|].
  split; [apply IHc|]. intros c. apply H2; [exact IHs | apply IHc].
Qed.

Lemma occurs2_cons a b p t :
  occurs2 a b (String p t) = Ascii.eqb p a && starts b t || occurs2 a b t.
Proof. destruct t; cbn [occurs2 starts]; [now rewrite andb_false_r|reflexivity]. Qed.

Lemma occurs2_tail a b p t :
  occurs2 a b (String p t) = false -> occurs2 a b t = false.
Proof. rewrite occurs2_cons. now intros [_ ?]%orb_false_iff. Qed.

Lemma replace_all2_absent a b rep s :
  occurs2 a b s = false -> replace_all2 a b rep s = s.
Proof.
  induction s as [|c s IH]; [reflexivity|].
  intros H. cbn [replace_all2]. destruct s as [|d rest]; [reflexivity|].
  cbn [occurs2] in H. apply orb_false_iff in H as [Hpair Hrest].
  rewrite Hpair. now rewrite (IH Hrest).
Qed.

Lemma replace_all2_cons2 a b rep x y s :
  replace_all2 a b rep (String x (String y s))
  = if Ascii.eqb x a && Ascii.eqb y b
    then rep +:+ replace_all2 a b rep s
    else String x (replace_all2 a b rep (String y s)).
Proof. reflexivity. Qed.

(** A replaced string begins with the first character of the source or
    with the replacement. *)
Lemma replace_all2_starts a b x y s :
  starts x (replace_all2 a b "$" (String y s)) = true ->
  y = x \/ x = "$"%char.
Proof.
  cbn [replace_all2]. destruct s as [|d rest].
  - cbn [starts]. intros H%Ascii.eqb_eq. now left.
  - destruct (Ascii.eqb y a && Ascii.eqb d b).
    + change (starts x (String "$" (replace_all2 a b "$" rest)) = true -> y = x \/ x = "$"%char).
      cbn [starts]. intros H%Ascii.eqb_eq. now right.
    + cbn [starts]. intros H%Ascii.eqb_eq. now left.
Qed.

(** Replacing the pairs [c d] by a dollar sign brings in no pair [a b],
    when neither [a] nor [b] is the dollar sign. *)
Lemma replace_all2_keeps_absent a b c d s :
  a <> "$"%char -> b <> "$"%char ->
  occurs2 a b s = false ->
  occurs2 a b (replace_all2 c d "$" s) = false.
Proof.
  intros Ha Hb. pattern s. apply string_ind2; clear s.
  - reflexivity.
  - reflexivity.
  - intros x y s IHs IHy Hocc.
    rewrite occurs2_cons in Hocc. apply orb_false_iff in Hocc as [Hxy Hys].
    rewrite replace_all2_cons2. destruct (Ascii.eqb x c && Ascii.eqb y d).
    + change ("$" +:+ replace_all2 c d "$" s)
        with (String "$" (replace_all2 c d "$" s)).
      rewrite occurs2_cons.
      replace (Ascii.eqb "$" a) with false
        by (symmetry; apply Ascii.eqb_neq; congruence).
      cbn [andb orb]. apply IHs. now apply occurs2_tail in Hys.
    + rewrite occurs2_cons. rewrite (IHy Hys), orb_false_r.
      destruct (Ascii.eqb_spec x a) as [-> | Hxa]; [|reflexivity].
      cbn [andb].
      destruct (starts b (replace_all2 c d "$" (String y s))) eqn:Hst;
        [|reflexivity].
      apply replace_all2_starts in Hst as [-> | ->]; [|congruence].
      cbn [starts] in Hxy. now rewrite !Ascii.eqb_refl in Hxy.
Qed.

(** After the replacement of the pairs [a b], none is left. *)
Lemma replace_all2_removes a b s :
  a <> "$"%char -> b <> "$"%char ->
  occurs2 a b (replace_all2 a b "$" s) = false.
Proof.
  intros Ha Hb. pattern s. apply string_ind2; clear s.
  - reflexivity.
  - reflexivity.
  - intros x y s IHs IHy. rewrite replace_all2_cons2.
    destruct (Ascii.eqb x a && Ascii.eqb y b) eqn:Hpair.
    + change ("$" +:+ replace_all2 a b "$" s)
        with (String "$" (replace_all2 a b "$" s)).
      rewrite occurs2_cons, IHs.
      replace (Ascii.eqb "$" a) with false
        by (symmetry; apply Ascii.eqb_neq; congruence).
      reflexivity.
    + rewrite occurs2_cons, IHy, orb_false_r.
      destruct (Ascii.eqb_spec x a) as [-> | Hxa]; [|reflexivity].
      cbn [andb].
      destruct (starts b (replace_all2 a b "$" (String y s))) eqn:Hst;
        [|reflexivity].
      apply replace_all2_starts in Hst as [-> | ->]; [|congruence].
      now rewrite !Ascii.eqb_refl in Hpair.
Qed.

(** Collapsing line feeds brings in no new pair of characters. *)
Lemma collapse_from_keeps_absent a b s :
  forall run p,
    ((1 <= run)%nat -> p = LF) ->
    occurs2 a b (String p s) = false ->
    occurs2 a b (String p (collapse_from run s)) = false.
Proof.
  induction s as [|c s IH]; intros run p Hp Hocc; [exact Hocc|].
  cbn [collapse_from].
  rewrite occurs2_cons in Hocc. apply orb_false_iff in Hocc as [Hpc Hcs].
  destruct (Ascii.eqb_spec c LF) as [-> | Hc].
  - destruct (run <? 2)%nat eqn:Hrun.
    + rewrite occurs2_cons. cbn [starts]. cbn [starts] in Hpc. rewrite Hpc.
      apply (IH (S run) LF); [reflexivity | exact Hcs].
    + apply Nat.ltb_ge in Hrun. rewrite (Hp ltac:(lia)).
      apply (IH (S run) LF); [reflexivity | exact Hcs].
  - rewrite occurs2_cons. cbn [starts]. cbn [starts] in Hpc. rewrite Hpc.
    apply (IH O c); [lia | exact Hcs].
Qed.

Lemma collapse_newlines_keeps_absent a b s :
  occurs2 a b s = false -> occurs2 a b (collapse_newlines s) = false.
Proof.
  unfold collapse_newlines. destruct s as [|c s]; [reflexivity|].
  intros Hocc. cbn [collapse_from].
  destruct (Ascii.eqb_spec c LF) as [-> | Hc]; cbn [Nat.ltb Nat.leb].
  - apply (collapse_from_keeps_absent a b s 1 LF); [reflexivity | exact Hocc].
  - apply (collapse_from_keeps_absent a b s 0 c); [lia | exact Hocc].
Qed.

Lemma trimStart_keeps_absent a b s :
  occurs2 a b s = false -> occurs2 a b (trimStart s) = false.
Proof.
  induction s as [|c s IH]; [reflexivity|]. intros Hocc.
  cbn [trimStart]. destruct (is_space c); [|exact Hocc].
  apply IH. now apply occurs2_tail in Hocc.
Qed.

Lemma trimEnd_starts b s : starts b (trimEnd s) = true -> starts b s = true.
Proof.
  destruct s as [|c s]; [discriminate|]. cbn [trimEnd].
  destruct (trimEnd s); [|intros H; exact H].
  destruct (is_space c); [discriminate | intros H; exact H].
Qed.

Lemma trimEnd_keeps_absent a b s :
  occurs2 a b s = false -> occurs2 a b (trimEnd s) = false.
Proof.
  induction s as [|c s IH]; [reflexivity|]. intros Hocc.
  rewrite occurs2_cons in Hocc. apply orb_false_iff in Hocc as [Hpc Hcs].
  specialize (IH Hcs). cbn [trimEnd].
  destruct (trimEnd s) as [|d t] eqn:Ht.
  - now destruct (is_space c).
  - rewrite occurs2_cons, IH, orb_false_r.
    destruct (Ascii.eqb c a); [|reflexivity]. cbn [andb] in *.
    destruct (starts b (String d t)) eqn:Hst; [|reflexivity].
    rewrite <- Ht in Hst. apply trimEnd_starts in Hst. congruence.
Qed.

Lemma lfOk_mono s : forall run run', (run' <= run)%nat ->
  lfOk run s = true -> lfOk run' s = true.
Proof.
  destruct s as [|c s]; intros run run' Hle; [reflexivity|].
  cbn [lfOk]. destruct (Ascii.eqb c LF); [|auto].
  intros [Hlt Hs]%andb_true_iff. apply Nat.ltb_lt in Hlt.
  apply andb_true_iff. split; [apply Nat.ltb_lt; lia|].
  revert Hs. clear Hlt. revert run run' Hle.
  induction s as [|d s IH]; intros run run' Hle; [reflexivity|].
  cbn [lfOk]. destruct (Ascii.eqb d LF); [|auto].
  intros [Hlt Hs]%andb_true_iff. apply Nat.ltb_lt in Hlt.
  apply andb_true_iff. split; [apply Nat.ltb_lt; lia|].
  apply (IH (S run) (S run')); [lia | exact Hs].
Qed.

Lemma lfOk_fixed s : forall run, lfOk run s = true -> collapse_from run s = s.
Proof.
  induction s as [|c s IH]; intros run; [reflexivity|].
  cbn [lfOk collapse_from]. destruct (Ascii.eqb c LF).
  - intros [Hlt Hs]%andb_true_iff. rewrite Hlt. now rewrite (IH _ Hs).
  - intros Hs. now rewrite (IH _ Hs).
Qed.

Lemma collapse_from_lfOk s : forall run, lfOk run (collapse_from run s) = true.
Proof.
  induction s as [|c s IH]; intros run; [reflexivity|].
  cbn [collapse_from]. destruct (Ascii.eqb c LF) eqn:Hc.
  - destruct (run <? 2)%nat eqn:Hrun.
    + cbn [lfOk]. rewrite Hc, Hrun. apply IH.
    + apply (lfOk_mono _ (S run)); [lia | apply IH].
  - cbn [lfOk]. rewrite Hc. apply IH.
Qed.

Lemma lfOk_tail c s run : lfOk run (String c s) = true -> lfOk O s = true.
Proof.
  cbn [lfOk]. destruct (Ascii.eqb c LF); [|auto].
  intros [_ Hs]%andb_true_iff. apply (lfOk_mono _ (S run)); [lia | exact Hs].
Qed.

Lemma trimStart_lfOk s : lfOk O s = true -> lfOk O (trimStart s) = true.
Proof.
  induction s as [|c s IH]; [reflexivity|]. intros H.
  cbn [trimStart]. destruct (is_space c); [|exact H].
  apply IH. now apply lfOk_tail in H.
Qed.

Lemma trimEnd_lfOk s : forall run, lfOk run s = true -> lfOk run (trimEnd s) = true.
Proof.
  induction s as [|c s IH]; intros run; [reflexivity|].
  cbn [lfOk trimEnd]. destruct (Ascii.eqb c LF) eqn:Hc.
  - intros [Hlt Hs]%andb_true_iff. specialize (IH _ Hs).
    destruct (trimEnd s) as [|d t].
    + destruct (is_space c); [reflexivity|]. cbn [lfOk]. now rewrite Hc, Hlt.
    + cbn [lfOk] in *. now rewrite Hc, Hlt, IH.
  - intros Hs. specialize (IH _ Hs).
    destruct (trimEnd s) as [|d t].
    + destruct (is_space c); [reflexivity|]. cbn [lfOk]. now rewrite Hc.
    + cbn [lfOk] in *. now rewrite Hc, IH.
Qed.

Lemma trimEnd_idempotent s : trimEnd (trimEnd s) = trimEnd s.
Proof.
  induction s as [|c s IH]; [reflexivity|]. cbn [trimEnd].
  destruct (trimEnd s) as [|d t] eqn:Ht.
  - destruct (is_space c) eqn:Hc; [reflexivity|]. cbn [trimEnd]. now rewrite Hc.
  - cbn [trimEnd] in *. now rewrite IH.
Qed.

Lemma trimStart_trimEnd_trimStart s :
  trimStart (trimEnd (trimStart s)) = trimEnd (trimStart s).
Proof.
  induction s as [|c s IH]; [reflexivity|]. cbn [trimStart].
  destruct (is_space c) eqn:Hc; [exact IH|].
  cbn [trimEnd]. destruct (trimEnd s); rewrite ?Hc; cbn [trimStart];
    now rewrite Hc.
Qed.

Lemma trim_idempotent s : trim (trim s) = trim s.
Proof.
  unfold trim. rewrite trimStart_trimEnd_trimStart. apply trimEnd_idempotent.
Qed.

Lemma trim_keeps_absent a b s :
  occurs2 a b s = false -> occurs2 a b (trim s) = false.
Proof.
  intros H. unfold trim. now apply trimEnd_keeps_absent, trimStart_keeps_absent.
Qed.

(** X11: the markup that the image path returns is in normal form: it
    contains none of the four bracket markers and no run of three line
    feeds, it has no white space at either end, and normalizing it again
    changes nothing. *)
Theorem toMMD_normal_form (latex : string) :
  let t := toMMD latex in
  occurs2 "\" "[" t = false /\
  occurs2 "\" "]" t = false /\
  occurs2 "\" "(" t = false /\
  occurs2 "\" ")" t = false /\
  lfOk O t = true /\
  collapse_newlines t = t /\
  trim t = t /\
  toMMD t = t.
Proof.
  intros t.
  assert (Hmarker : forall b : ascii,
    b <> "$"%char ->
    (forall s, occurs2 "\" b s = false ->
               occurs2 "\" b (trim (collapse_newlines s)) = false) /\
    (forall c s, occurs2 "\" b s = false ->
                 occurs2 "\" b (replace_all2 "\" c "$" s) = false) /\
    (forall s, occurs2 "\" b (replace_all2 "\" b "$" s) = false)).
  { intros b Hb. split; [|split].
    - intros s H. now apply trim_keeps_absent, collapse_newlines_keeps_absent.
    - intros c s H. apply replace_all2_keeps_absent; [discriminate|exact Hb|exact H].
    - intros s. apply replace_all2_removes; [discriminate|exact Hb]. }
  assert (H1 : occurs2 "\" "[" t = false).
  { destruct (Hmarker "["%char ltac:(discriminate)) as (Ht & Hk & Hr).
    apply Ht. do 3 apply Hk. apply Hr. }
  assert (H2 : occurs2 "\" "]" t = false).
  { destruct (Hmarker "]"%char ltac:(discriminate)) as (Ht & Hk & Hr).
    apply Ht. do 2 apply Hk. apply Hr. }
  assert (H3 : occurs2 "\" "(" t = false).
  { destruct (Hmarker "("%char ltac:(discriminate)) as (Ht & Hk & Hr).
    apply Ht. apply Hk. apply Hr. }
  assert (H4 : occurs2 "\" ")" t = false).
  { destruct (Hmarker ")"%char ltac:(discriminate)) as (Ht & Hk & Hr).
    apply Ht. apply Hr. }
  assert (H5 : lfOk O t = true).
  { unfold t, toMMD, trim, collapse_newlines.
    apply trimEnd_lfOk, trimStart_lfOk, collapse_from_lfOk. }
  assert (H6 : collapse_newlines t = t) by now apply lfOk_fixed.
  assert (H7 : trim t = t) by apply trim_idempotent.
  repeat split; try assumption.
  unfold toMMD at 1.
  rewrite (replace_all2_absent "\" "[" "$" t H1).
  rewrite (replace_all2_absent "\" "]" "$" t H2).
  rewrite (replace_all2_absent "\" "(" "$" t H3).
  rewrite (replace_all2_absent "\" ")" "$" t H4).
  now rewrite H6.
Qed.

Lemma ends_with_split suf s :
  ends_with suf s = true -> exists pre, s = pre +:+ suf.
Proof.
  induction s as [|c s IH]; cbn [ends_with].
  - destruct (String.eqb_spec "" suf) as [<- | _]; [|discriminate].
    now exists ""%string.
  - destruct (String.eqb_spec (String c s) suf) as [<- | _].
    + now exists ""%string.
    + intros H. destruct (IH H) as [pre ->]. now exists (String c pre).
Qed.

Lemma toLowerAscii_app a b :
  toLowerAscii (a +:+ b) = toLowerAscii a +:+ toLowerAscii b.
Proof.
  induction a as [|c a IH]; [reflexivity|].
  change (String c a +:+ b) with (String c (a +:+ b)).
  cbn [toLowerAscii]. rewrite IH. reflexivity.
Qed.

Lemma toLowerAscii_split p : forall f q,
  toLowerAscii f = p +:+ q ->
  exists base ext,
    f = base +:+ ext /\ toLowerAscii base = p /\ toLowerAscii ext = q.
Proof.
  induction p as [|c p IH]; intros f q H.
  - exists ""%string, f. auto.
  - destruct f as [|x f]; [discriminate|].
    change (String c p +:+ q) with (String c (p +:+ q)) in H.
    cbn [toLowerAscii] in H. injection H as Hx Hf.
    destruct (IH f q Hf) as (base & ext & -> & <- & <-).
    exists (String x base), ext. cbn [toLowerAscii]. rewrite Hx. auto.
Qed.

(** X12: the orchestrator takes the image path exactly for the file names
    that end with [.jpg], [.jpeg] or [.png] in any mix of upper and lower
    case; every other name, also one without extension, goes to the document
    path. *)
Theorem isImage_iff (filename : string) :
  isImage filename = true <->
  exists base ext,
    filename = base +:+ ext /\
    (toLowerAscii ext = ".jpg"%string \/
     toLowerAscii ext = ".jpeg"%string \/
     toLowerAscii ext = ".png"%string).
Proof.
  unfold isImage. rewrite !orb_true_iff. split.
  - intros H.
    assert (Hsuf : exists suf,
      ends_with suf (toLowerAscii filename) = true /\
      (suf = ".jpg"%string \/ suf = ".jpeg"%string \/ suf = ".png"%string)).
    { destruct H as [[H|H]|H]; eexists; (split; [exact H|]); auto. }
    destruct Hsuf as (suf & Hends & Hsuf).
    apply ends_with_split in Hends as [pre Hpre].
    apply toLowerAscii_split in Hpre as (base & ext & -> & _ & Hext).
    exists base, ext. split; [reflexivity|].
    rewrite Hext. exact Hsuf.
  - intros (base & ext & -> & Hext). rewrite toLowerAscii_app.
    destruct Hext as [-> | [-> | ->]];
      [left; left | left; right | right]; apply ends_with_app.
Qed.

End NormalForms.

(* ===================================================================== *)
(** * More on the document resolver                                       *)
(* ===================================================================== *)

Section ResolverExtras.
Import JsString Documents Scenario.

Lemma string_length_append a b :
  String.length (a +:+ b) = (String.length a + String.length b)%nat.
Proof.
  induction a as [|c a IH]; [reflexivity|].
  change (String c a +:+ b) with (String c (a +:+ b)).
  cbn [String.length]. now rewrite IH.
Qed.

Lemma replace_suffix_app suf rep pre :
  replace_suffix suf rep (pre +:+ suf) = pre +:+ rep.
Proof.
  induction pre as [|c pre IH].
  - change ("" +:+ suf) with suf. change ("" +:+ rep) with rep.
    destruct suf; cbn [replace_suffix]; now rewrite String.eqb_refl.
  - change (String c pre +:+ suf) with (String c (pre +:+ suf)).
    change (String c pre +:+ rep) with (String c (pre +:+ rep)).
    cbn [replace_suffix].
    destruct (String.eqb_spec (String c (pre +:+ suf)) suf) as [E|_];
      [|now rewrite IH].
    apply (f_equal String.length) in E.
    cbn [String.length] in E. rewrite string_length_append in E. lia.
Qed.

Lemma append_inv_same_length a : forall b x y,
  String.length x = String.length y ->
  a +:+ x = b +:+ y -> a = b /\ x = y.
Proof.
  induction a as [|c a IH]; intros b x y Hlen H; destruct b as [|d b].
  - auto.
  - change ("" +:+ x) with x in H. subst x.
    change (String d b +:+ y) with (String d (b +:+ y)) in Hlen.
    cbn [String.length] in Hlen. rewrite string_length_append in Hlen. lia.
  - change ("" +:+ y) with y in H. subst y.
    change (String c a +:+ x) with (String c (a +:+ x)) in Hlen.
    cbn [String.length] in Hlen. rewrite string_length_append in Hlen. lia.
  - change (String c a +:+ x) with (String c (a +:+ x)) in H.
    change (String d b +:+ y) with (String d (b +:+ y)) in H.
    injection H as -> H. destruct (IH b x y Hlen H) as [-> ->]. auto.
Qed.

(** A name that ends with one suffix does not end with another one of the
    same length. *)
Lemma ends_with_other suf suf' pre :
  String.length suf = String.length suf' ->
  suf <> suf' ->
  ends_with suf' (pre +:+ suf) = false.
Proof.
  intros Hlen Hne. destruct (ends_with suf' (pre +:+ suf)) eqn:E; [|reflexivity].
  apply ends_with_split in E as [pre' E].
  apply append_inv_same_length in E as [_ E]; [contradiction|exact Hlen].
Qed.

Lemma append_empty (b : string) : b +:+ "" = b.
Proof.
  induction b as [|c b IH]; [reflexivity|].
  change (String c b +:+ "") with (String c (b +:+ "")). now rewrite IH.
Qed.

Lemma deriveTitle_pdf (b : string) : deriveTitle (b +:+ ".pdf") = b.
Proof.
  unfold deriveTitle.
  rewrite (replace_suffix_absent ".mmd" "" (b +:+ ".pdf"))
    by (apply ends_with_other; [reflexivity|discriminate]).
  assert (Hpm : ends_with ".pdf.mmd" (b +:+ ".pdf") = false).
  { destruct (ends_with ".pdf.mmd" (b +:+ ".pdf")) eqn:E; [|reflexivity].
    apply (ends_with_longer ".pdf" ".mmd") in E.
    rewrite ends_with_other in E; [discriminate|reflexivity|discriminate]. }
  rewrite (replace_suffix_absent ".pdf.mmd" ".pdf" _ Hpm).
  now rewrite replace_suffix_app, append_empty.
Qed.

(** X13: the title of [base.pdf] and the title of [base.pdf.mmd] are both
    [base], for every [base]; in general the title is the name without one
    of the endings [.mmd], [.pdf], [.pdf.mmd] and [.pdf.mmd.mmd], or the
    name itself. *)
Theorem deriveTitle_strips (base name : string) :
  deriveTitle (base +:+ ".pdf") = base /\
  deriveTitle (base +:+ ".pdf.mmd") = base /\
  (name = deriveTitle name \/
   name = deriveTitle name +:+ ".mmd" \/
   name = deriveTitle name +:+ ".pdf" \/
   name = deriveTitle name +:+ ".pdf.mmd" \/
   name = deriveTitle name +:+ ".pdf.mmd.mmd").
Proof.
  assert (Hnil0 : forall b : string, b +:+ "" = b).
  { induction b as [|c b IH]; [reflexivity|].
    change (String c b +:+ "") with (String c (b +:+ "")). now rewrite IH. }
  assert (Hinner : forall b,
    replace_suffix ".pdf" "" (replace_suffix ".pdf.mmd" ".pdf" (b +:+ ".pdf"))
    = b).
  { intros b.
    assert (Hpm : ends_with ".pdf.mmd" (b +:+ ".pdf") = false).
    { destruct (ends_with ".pdf.mmd" (b +:+ ".pdf")) eqn:E; [|reflexivity].
      apply (ends_with_longer ".pdf" ".mmd") in E.
      rewrite ends_with_other in E; [discriminate|reflexivity|discriminate]. }
    rewrite (replace_suffix_absent ".pdf.mmd" ".pdf" _ Hpm).
    now rewrite replace_suffix_app, Hnil0. }
  assert (Hpdf : forall b, deriveTitle (b +:+ ".pdf") = b).
  { intros b. unfold deriveTitle.
    rewrite (replace_suffix_absent ".mmd" "" (b +:+ ".pdf"))
      by (apply ends_with_other; [reflexivity|discriminate]).
    apply Hinner. }
  assert (Hnil : forall b : string, b +:+ "" = b).
  { induction b as [|c b IH]; [reflexivity|].
    change (String c b +:+ "") with (String c (b +:+ "")). now rewrite IH. }
  assert (Hassoc : forall a b c : string, (a +:+ b) +:+ c = a +:+ (b +:+ c)).
  { induction a as [|x a IH]; intros b c; [reflexivity|].
    change (String x a +:+ b) with (String x (a +:+ b)).
    change (String x (a +:+ b) +:+ c) with (String x ((a +:+ b) +:+ c)).
    now rewrite IH. }
  split; [apply Hpdf|]. split.
  - unfold deriveTitle.
    change (base +:+ ".pdf.mmd") with (base +:+ (".pdf" +:+ ".mmd")).
    rewrite <- Hassoc, replace_suffix_app, Hnil. apply Hinner.
  - unfold deriveTitle.
    destruct (ends_with ".mmd" name) eqn:Hm.
    + apply ends_with_split in Hm as [n1 ->].
      rewrite replace_suffix_app, Hnil.
      destruct (ends_with ".pdf.mmd" n1) eqn:Hpm.
      * apply ends_with_split in Hpm as [n2 ->].
        rewrite replace_suffix_app, replace_suffix_app, Hnil.
        do 4 right. now rewrite !Hassoc.
      * rewrite (replace_suffix_absent _ _ _ Hpm).
        destruct (ends_with ".pdf" n1) eqn:Hp.
        -- apply ends_with_split in Hp as [n2 ->].
           rewrite replace_suffix_app, Hnil.
           do 3 right. left. now rewrite !Hassoc.
        -- rewrite (replace_suffix_absent _ _ _ Hp). right. now left.
    + rewrite (replace_suffix_absent _ _ _ Hm).
      assert (Hpm : ends_with ".pdf.mmd" name = false).
      { destruct (ends_with ".pdf.mmd" name) eqn:E; [|reflexivity].
        apply (ends_with_longer ".pdf" ".mmd") in E. congruence. }
      rewrite (replace_suffix_absent _ _ _ Hpm).
      destruct (ends_with ".pdf" name) eqn:Hp.
      * apply ends_with_split in Hp as [n2 ->].
        rewrite replace_suffix_app, Hnil. do 2 right. now left.
      * rewrite (replace_suffix_absent _ _ _ Hp). now left.
Qed.

Lemma rejects_fault (store : AsyncStorage) :
  rejects store = true -> true ∈ faults store.
Proof.
  unfold rejects. destruct (faults store) as [|fault rest]; [discriminate|].
  intros ->. apply list_elem_of_here.
Qed.

Lemma fault_afterCall (store : AsyncStorage) :
  true ∈ faults (afterCall store) -> true ∈ faults store.
Proof.
  unfold afterCall. cbn [faults].
  destruct (faults store) as [|fault rest]; [easy|].
  cbn [tail]. apply list_elem_of_further.
Qed.

(** What a removal leaves: the slots without the mirror, or the slots as
    they were when the device rejected the call. *)
Lemma clearDocumentCache_cases (device : AsyncStorage) :
  (exists fs,
     clearDocumentCache device
     = mkAsyncStorage (delete DOCUMENTS_STORAGE_KEY (slots device)) fs) \/
  (exists fs,
     clearDocumentCache device = mkAsyncStorage (slots device) fs /\
     true ∈ faults device).
Proof.
  rewrite clearDocumentCache_eq.
  destruct (rejects device) eqn:Hr; [right | left]; eexists;
    [split; [reflexivity | now apply rejects_fault] | reflexivity].
Qed.

(** What the resolver does in every case: it returns the mirror that it
    read, it writes the records that it fetched, it removes the mirror, or it
    leaves the slots because the device rejected a call. *)
Lemma fetchStoredDocuments_cases platform remote userId forceRefresh
    (store : AsyncStorage) :
  let result := fetchStoredDocuments platform remote userId forceRefresh store in
  (forceRefresh = false /\ rejects store = false /\ mirror store <> [] /\
   result = (mirror store, afterCall store)) \/
  (exists docs fs, docs <> [] /\
     result
     = (docs,
        mkAsyncStorage (<[DOCUMENTS_STORAGE_KEY := docs]> (slots store)) fs)) \/
  (exists fs,
     result
     = ([], mkAsyncStorage (delete DOCUMENTS_STORAGE_KEY (slots store)) fs)) \/
  (exists fs,
     result = ([], mkAsyncStorage (slots store) fs) /\ true ∈ faults store).
Proof.
  intros result. subst result.
  assert (Hremote : forall before,
    slots before = slots store ->
    (true ∈ faults before -> true ∈ faults store) ->
    forceRefresh = true \/ fst (loadDocuments store) = [] ->
    (if forceRefresh then store else afterCall store) = before ->
    (exists docs fs, docs <> [] /\
       fetchStoredDocuments platform remote userId forceRefresh store
       = (docs,
          mkAsyncStorage (<[DOCUMENTS_STORAGE_KEY := docs]> (slots store)) fs)) \/
    (exists fs,
       fetchStoredDocuments platform remote userId forceRefresh store
       = ([], mkAsyncStorage (delete DOCUMENTS_STORAGE_KEY (slots store)) fs)) \/
    (exists fs,
       fetchStoredDocuments platform remote userId forceRefresh store
       = ([], mkAsyncStorage (slots store) fs) /\ true ∈ faults store)).
  { intros before Hslots Hfault Hconsult Hbefore.
    rewrite (fetchStoredDocuments_remote _ _ _ _ _ Hconsult). cbv zeta.
    rewrite Hbefore.
    assert (Hclear : forall device,
      slots device = slots store ->
      (true ∈ faults device -> true ∈ faults store) ->
      (exists fs,
         (@nil PDFDocument, clearDocumentCache device)
         = ([], mkAsyncStorage
                  (delete DOCUMENTS_STORAGE_KEY (slots store)) fs)) \/
      (exists fs,
         (@nil PDFDocument, clearDocumentCache device)
         = ([], mkAsyncStorage (slots store) fs) /\ true ∈ faults store)).
    { intros device Hd Hf.
      destruct (clearDocumentCache_cases device)
        as [[fs ->] | (fs & -> & Hin)]; rewrite Hd;
        [left | right]; exists fs; auto. }
    destruct (listAll remote _) as [items|]; [|right; now apply Hclear].
    destruct (fetchedDocs platform remote userId items) as [|doc docs];
      [right; now apply Hclear|].
    destruct (rejects before) eqn:Hr.
    - right. apply Hclear; [exact Hslots|].
      intros Hin. now apply Hfault, fault_afterCall.
    - left. exists (doc :: docs), (tail (faults before)).
      split; [discriminate | now rewrite Hslots]. }
  destruct forceRefresh.
  - right. apply (Hremote store); auto.
  - destruct (rejects store) eqn:Hr.
    + right. apply (Hremote (afterCall store)); auto using fault_afterCall.
      right. now rewrite loadDocuments_eq, Hr.
    + destruct (mirror store) as [|doc docs] eqn:Hm.
      * right. apply (Hremote (afterCall store)); auto using fault_afterCall.
        right. now rewrite loadDocuments_eq, Hr.
      * left. split; [reflexivity|]. split; [reflexivity|].
        split; [discriminate|].
        unfold fetchStoredDocuments. rewrite loadDocuments_eq, Hr, Hm.
        reflexivity.
Qed.

(** X14: after every call of the resolver the mirror holds exactly the
    records that the call returned, unless the device rejected a call: then
    the call may have returned no record while the slots are as they were.
    No call changes another slot of the local store; on a device that
    rejects nothing the mirror is what was returned. *)
Theorem resolver_result_is_mirror platform remote userId forceRefresh
    (store : AsyncStorage) :
  let result := fetchStoredDocuments platform remote userId forceRefresh store in
  delete DOCUMENTS_STORAGE_KEY (slots (snd result))
    = delete DOCUMENTS_STORAGE_KEY (slots store) /\
  (mirror (snd result) = fst result \/
   fst result = [] /\ slots (snd result) = slots store /\
   true ∈ faults store) /\
  (true ∉ faults store -> mirror (snd result) = fst result).
Proof.
  intros result. subst result.
  assert (Hcases :
    delete DOCUMENTS_STORAGE_KEY
      (slots (snd (fetchStoredDocuments platform remote userId forceRefresh
                     store)))
      = delete DOCUMENTS_STORAGE_KEY (slots store) /\
    (mirror (snd (fetchStoredDocuments platform remote userId forceRefresh
                    store))
       = fst (fetchStoredDocuments platform remote userId forceRefresh store) \/
     fst (fetchStoredDocuments platform remote userId forceRefresh store) = [] /\
     slots (snd (fetchStoredDocuments platform remote userId forceRefresh
                   store)) = slots store /\
     true ∈ faults store)).
  { destruct (fetchStoredDocuments_cases platform remote userId forceRefresh
                store)
      as [(_ & _ & _ & ->) | [(docs & fs & _ & ->) | [[fs ->] | (fs & -> & Hin)]]];
      cbn [fst snd slots afterCall].
    - split; [reflexivity | left; reflexivity].
    - split; [apply delete_insert_eq | left; apply mirror_insert].
    - split; [apply delete_delete_eq | left; apply mirror_delete].
    - split; [reflexivity | right; auto]. }
  destruct Hcases as [Hother Hmirror].
  split; [exact Hother|]. split; [exact Hmirror|].
  intros Hnone. destruct Hmirror as [H | (_ & _ & Hin)]; [exact H|].
  contradiction.
Qed.

(** X15: a forced refresh does not depend on what the local store held: on
    two devices that reject the same calls it returns the same records and
    consumes the same answers, and it leaves the same mirror, unless a call
    was rejected and both devices keep the slots that they had. *)
Theorem forced_refresh_ignores_mirror platform remote userId
    (slots1 slots2 : gmap string (list PDFDocument)) (script : list bool) :
  let run1 :=
    fetchStoredDocuments platform remote userId true
      (mkAsyncStorage slots1 script) in
  let run2 :=
    fetchStoredDocuments platform remote userId true
      (mkAsyncStorage slots2 script) in
  fst run1 = fst run2 /\
  faults (snd run1) = faults (snd run2) /\
  (mirror (snd run1) = mirror (snd run2) \/
   fst run1 = [] /\ slots (snd run1) = slots1 /\ slots (snd run2) = slots2 /\
   true ∈ script).
Proof.
  intros run1 run2. subst run1 run2.
  rewrite !(fetchStoredDocuments_remote _ _ _ true _ (or_introl eq_refl)).
  cbv zeta.
  assert (Hclear : forall fs,
    (forall fault, fault ∈ fs -> fault ∈ script) ->
    faults (clearDocumentCache (mkAsyncStorage slots1 fs))
      = faults (clearDocumentCache (mkAsyncStorage slots2 fs)) /\
    (mirror (clearDocumentCache (mkAsyncStorage slots1 fs))
       = mirror (clearDocumentCache (mkAsyncStorage slots2 fs)) \/
     slots (clearDocumentCache (mkAsyncStorage slots1 fs)) = slots1 /\
     slots (clearDocumentCache (mkAsyncStorage slots2 fs)) = slots2 /\
     true ∈ script)).
  { intros fs Hsub. rewrite !clearDocumentCache_eq.
    unfold rejects. cbn [faults slots].
    destruct fs as [|[|] fs]; cbn [tail].
    - split; [reflexivity | left; now rewrite !mirror_delete].
    - split; [reflexivity | right].
      split; [reflexivity|]. split; [reflexivity|].
      apply Hsub, list_elem_of_here.
    - split; [reflexivity | left; now rewrite !mirror_delete]. }
  destruct (listAll remote _) as [items|]; cbn [fst snd].
  - destruct (fetchedDocs platform remote userId items) as [|doc docs];
      cbn [fst snd].
    + split; [reflexivity|].
      destruct (Hclear script ltac:(auto)) as [Hf [Hm | (H1 & H2 & Hin)]];
        (split; [exact Hf|]);
        [left; exact Hm | right; repeat split; assumption].
    + unfold rejects. cbn [faults slots].
      destruct script as [|[|] script];
        cbn [fst snd faults slots tail afterCall].
      * split; [reflexivity|]. split; [reflexivity|].
        left. now rewrite !mirror_insert.
      * split; [reflexivity|].
        assert (Hsub : forall fault, fault ∈ script -> fault ∈ true :: script)
          by (intros fault; apply list_elem_of_further).
        destruct (Hclear script Hsub) as [Hf [Hm | (H1 & H2 & Hin)]];
          (split; [exact Hf|]);
          [left; exact Hm | right; repeat split; assumption].
      * split; [reflexivity|]. split; [reflexivity|].
        left. now rewrite !mirror_insert.
  - split; [reflexivity|].
    destruct (Hclear script ltac:(auto)) as [Hf [Hm | (H1 & H2 & Hin)]];
      (split; [exact Hf|]);
      [left; exact Hm | right; repeat split; assumption].
Qed.

(** X16: once a call has returned records, a later call without refresh
    whose read of the mirror is not rejected returns the same records and
    leaves the slots as they are, for any user, platform and state of the
    remote store. *)
Theorem resolver_then_cache platform remote userId forceRefresh
    (store : AsyncStorage) platform' remote' userId' :
  let first := fetchStoredDocuments platform remote userId forceRefresh store in
  fst first <> [] ->
  rejects (snd first) = false ->
  fetchStoredDocuments platform' remote' userId' false (snd first)
    = (fst first, afterCall (snd first)).
Proof.
  intros first Hsome Hread.
  assert (Hmirror : mirror (snd first) = fst first).
  { subst first.
    destruct (fetchStoredDocuments_cases platform remote userId forceRefresh
                store)
      as [(_ & _ & _ & H) | [(docs & fs & _ & H) | [[fs H] | (fs & H & _)]]];
      rewrite H in *; cbn [fst snd] in *;
      [reflexivity | apply mirror_insert | contradiction | contradiction]. }
  unfold fetchStoredDocuments at 1.
  rewrite loadDocuments_eq, Hread, Hmirror.
  destruct (fst first) as [|doc docs]; [contradiction | reflexivity].
Qed.

Lemma resolver_then_cache_witness :
  fetchStoredDocuments Web remoteDown "u2" false
    (snd (fetchStoredDocuments Native remoteA "u1" true mirror2))
  = (fst (fetchStoredDocuments Native remoteA "u1" true mirror2),
     afterCall (snd (fetchStoredDocuments Native remoteA "u1" true mirror2))).
Proof.
  apply (resolver_then_cache Native remoteA "u1" true mirror2
           Web remoteDown "u2").
  - vm_compute. discriminate.
  - reflexivity.
Defined.

Lemma fetchDocument_record platform remote name userId doc :
  fetchDocument platform remote name userId = Some doc ->
  id doc = name /\ title doc = deriveTitle name /\
  content doc <> ""%string /\ timestamp doc = Date_now remote name.
Proof.
  assert (Hpaths : forall paths,
    tryPaths remote name (deriveTitle name) paths = Some doc ->
    id doc = name /\ title doc = deriveTitle name /\
    content doc <> ""%string /\ timestamp doc = Date_now remote name).
  { induction paths as [|path paths IH]; [discriminate|].
    cbn [tryPaths]. destruct (download remote path) as [| |body]; try exact IH.
    unfold nonempty. destruct (String.eqb_spec body ""); [exact IH|].
    intros [= <-]. cbn. auto. }
  destruct platform; unfold fetchDocument; [|apply Hpaths].
  destruct (download remote _) as [| |body]; try discriminate.
  unfold nonempty. destruct (String.eqb_spec body ""); [discriminate|].
  intros [= <-]. cbn. auto.
Qed.

(** X17: the records that a listing resolves to follow the order of the
    listing, at most one per listed name; each one carries the listed name as
    id, the derived title, a content that is not empty and the time of its
    own fetch, and none comes from a fetch that lost against the timer. *)
Theorem fetchedDocs_records platform remote userId (items : list string) :
  map id (fetchedDocs platform remote userId items) `sublist_of` items /\
  Forall (fun doc =>
            title doc = deriveTitle (id doc) /\
            content doc <> ""%string /\
            timestamp doc = Date_now remote (id doc) /\
            timedOut remote (id doc) = false)
    (fetchedDocs platform remote userId items).
Proof.
  unfold fetchedDocs.
  induction items as [|name items [IHsub IHall]]; cbn [List.map filterNotNull].
  - split; [apply sublist_nil_l | constructor].
  - destruct (fetchWithTimeout platform remote userId name) as [doc|] eqn:Hf;
      [|split; [now apply sublist_cons | exact IHall]].
    unfold fetchWithTimeout in Hf.
    destruct (timedOut remote name) eqn:Htimer; [discriminate|].
    apply fetchDocument_record in Hf as (Hid & Htitle & Hcontent & Htime).
    cbn [map]. split.
    + rewrite Hid. now apply sublist_skip.
    + constructor; [|exact IHall]. rewrite Hid. auto.
Qed.

Lemma native_finds_web_record remote userId name doc :
  fetchWithTimeout Web remote userId name = Some doc ->
  fetchWithTimeout Native remote userId name = Some doc.
Proof.
  unfold fetchWithTimeout. destruct (timedOut remote name); [discriminate|].
  unfold fetchDocument. cbn [tryPaths].
  destruct (download remote (storagePath userId name)) as [| |body];
    try discriminate.
  destruct (nonempty body); [auto | discriminate].
Qed.

(** X18: on a native platform the resolver finds every record that it finds
    on the web, in the same order: the two extra candidate paths only add
    records. *)
Theorem native_resolves_more remote userId (items : list string) :
  fetchedDocs Web remote userId items
    `sublist_of` fetchedDocs Native remote userId items.
Proof.
  unfold fetchedDocs.
  induction items as [|name items IH]; cbn [List.map filterNotNull];
    [apply sublist_nil_l|].
  destruct (fetchWithTimeout Web remote userId name) as [doc|] eqn:Hweb.
  - rewrite (native_finds_web_record _ _ _ _ Hweb). now apply sublist_skip.
  - destruct (fetchWithTimeout Native remote userId name);
      [now apply sublist_cons | exact IH].
Qed.

Lemma quietFor_S n (store : AsyncStorage) :
  quietFor (S n) store = true ->
  rejects store = false /\ quietFor n (afterCall store) = true.
Proof.
  unfold quietFor, rejects, afterCall. cbn [faults].
  destruct (faults store) as [|fault rest]; cbn [take forallb tail].
  - intros _. split; [reflexivity|]. now rewrite take_nil.
  - intros H. apply andb_true_iff in H as [Hf Hrest].
    split; [now destruct fault | exact Hrest].
Qed.

(** X19: while the device rejects no call, records saved one after the
    other are held by the mirror newest first, in front of what it held;
    none is dropped or merged, and the users they were saved for play no
    part.  Each save takes two calls of the device. *)
Theorem saveDocument_sequence (entries : list (string * PDFDocument))
    (store : AsyncStorage) :
  quietFor (2 * length entries) store = true ->
  let final :=
    foldl (fun st entry => snd (saveDocument (fst entry) (snd entry) st))
      store entries in
  mirror final = rev (map snd entries) ++ mirror store /\
  faults final = drop (2 * length entries) (faults store) /\
  delete DOCUMENTS_STORAGE_KEY (slots final)
    = delete DOCUMENTS_STORAGE_KEY (slots store).
Proof.
  revert store. induction entries as [|[userId doc] entries IH]; intros store.
  - intros _. cbn [foldl length Nat.mul drop map rev app]. auto.
  - replace (2 * length ((userId, doc) :: entries))%nat
      with (S (S (2 * length entries)))%nat by (cbn [length]; lia).
    intros Hquiet.
    apply quietFor_S in Hquiet as [Hread Hquiet].
    apply quietFor_S in Hquiet as [Hwrite Hquiet].
    cbn [foldl fst snd map rev]. cbv zeta.
    rewrite saveDocument_eq, Hread, Hwrite. cbn [snd].
    set (next := mkAsyncStorage
                   (<[DOCUMENTS_STORAGE_KEY := doc :: mirror store]> (slots store))
                   (tail (tail (faults store)))).
    destruct (IH next) as (Hmirror & Hfaults & Hother); [exact Hquiet|].
    cbv zeta in Hmirror, Hfaults, Hother.
    rewrite Hmirror, Hfaults, Hother. subst next.
    rewrite mirror_insert. cbn [faults slots].
    split; [now rewrite <- app_assoc|].
    split; [|apply delete_insert_eq].
    destruct (faults store) as [|f1 [|f2 fs]]; cbn [tail drop];
      now rewrite ?drop_nil.
Qed.

(** Two records saved on a device that rejects no call. *)
Lemma saveDocument_sequence_witness :
  let final :=
    foldl (fun st entry => snd (saveDocument (fst entry) (snd entry) st))
      mirror2 [("alice"%string, doc1); ("bob"%string, doc2)] in
  mirror final = [doc2; doc1] ++ mirror mirror2 /\
  faults final = [] /\
  delete DOCUMENTS_STORAGE_KEY (slots final)
    = delete DOCUMENTS_STORAGE_KEY (slots mirror2).
Proof.
  apply (saveDocument_sequence
           [("alice"%string, doc1); ("bob"%string, doc2)] mirror2).
  reflexivity.
Defined.

(** On a device that rejects no call, every function of the module leaves
    such a device, and the resolver leaves in the mirror what it returns. *)
Lemma reliable_clear (store : AsyncStorage) :
  faults store = [] ->
  clearDocumentCache store
  = mkAsyncStorage (delete DOCUMENTS_STORAGE_KEY (slots store)) [].
Proof.
  intros Hf. rewrite clearDocumentCache_eq. unfold rejects. now rewrite Hf.
Qed.

Lemma reliable_save userId document (store : AsyncStorage) :
  faults store = [] ->
  saveDocument userId document store
  = (Fulfilled,
     mkAsyncStorage
       (<[DOCUMENTS_STORAGE_KEY := document :: mirror store]> (slots store)) []).
Proof.
  intros Hf. rewrite saveDocument_eq. unfold rejects, afterCall.
  cbn [faults]. now rewrite Hf.
Qed.

Lemma reliable_resolver platform remote userId forceRefresh
    (store : AsyncStorage) :
  faults store = [] ->
  faults (snd (fetchStoredDocuments platform remote userId forceRefresh store))
    = [] /\
  mirror (snd (fetchStoredDocuments platform remote userId forceRefresh store))
    = fst (fetchStoredDocuments platform remote userId forceRefresh store).
Proof.
  intros Hf.
  assert (Hafter : afterCall store = store).
  { unfold afterCall. rewrite Hf. now destruct store; cbn in *; subst. }
  assert (Hr : rejects store = false) by (unfold rejects; now rewrite Hf).
  assert (Hremote :
    forceRefresh = true \/ fst (loadDocuments store) = [] ->
    faults (snd (fetchStoredDocuments platform remote userId forceRefresh store))
      = [] /\
    mirror (snd (fetchStoredDocuments platform remote userId forceRefresh store))
      = fst (fetchStoredDocuments platform remote userId forceRefresh store)).
  { intros Hconsult.
    rewrite (fetchStoredDocuments_remote _ _ _ _ _ Hconsult). cbv zeta.
    replace (if forceRefresh then store else afterCall store) with store
      by (now destruct forceRefresh).
    rewrite Hr, (reliable_clear store Hf), Hf.
    destruct (listAll remote _) as [items|]; cbn [fst snd faults];
      [|now rewrite mirror_delete].
    destruct (fetchedDocs platform remote userId items) as [|doc docs];
      cbn [fst snd faults tail];
      [now rewrite mirror_delete | now rewrite mirror_insert]. }
  destruct forceRefresh; [apply Hremote; now left|].
  destruct (mirror store) as [|doc docs] eqn:Hm.
  - apply Hremote. right. now rewrite loadDocuments_eq, Hr.
  - unfold fetchStoredDocuments. rewrite loadDocuments_eq, Hr, Hm, Hafter.
    cbn [fst snd negb andb length Nat.ltb Nat.leb]. auto.
Qed.

End ResolverExtras.

(* ===================================================================== *)
(** * From conversion to resolution, and the screen                       *)
(* ===================================================================== *)

Section RoundTrip.
Import JsString Documents Scenario Mathpix Observers Budget MathpixScenario
  MoreScenarios RoundTripScenario HomeScreen.

Lemma trim_nonempty s : nonempty (trim s) = true -> nonempty s = true.
Proof. now destruct s. Qed.

Lemma downloadMMD_returns_nonblank pdfId userId filename (w : World) content :
  fst (downloadMMD pdfId userId filename w) = Returned content ->
  nonempty (trim content) = true.
Proof.
  unfold downloadMMD, bind, fetch, readText, handleMathpixResponse,
    uploadBytes, throw, ret.
  destruct (net w) as [|[response|] rest]; cbn [fst snd]; try discriminate.
  destruct (ok response); cbn [fst snd]; [|discriminate].
  destruct (body_text response) as [body|]; cbn [fst snd]; [|discriminate].
  destruct (nonempty (trim body)) eqn:Hbody; cbn [fst snd]; [|discriminate].
  cbn [storage_up]. destruct (storage_up w); cbn [fst snd]; [|discriminate].
  now intros [= <-].
Qed.

Lemma processPdf_returns_nonblank storageUrl userId filename (w : World)
    result :
  fst (processPdf storageUrl userId filename w) = Returned result ->
  exists content, mmd result = Some content /\ nonempty (trim content) = true.
Proof.
  unfold processPdf, bind, fetch, readJson, handleMathpixResponse, throw, ret.
  destruct (net w) as [|[response|] rest]; cbn [fst snd]; try discriminate.
  destruct (ok response); cbn [fst snd]; [|discriminate].
  destruct (body_json response) as [j|]; cbn [fst snd]; [|discriminate].
  destruct (pdf_id j) as [pdfId|]; cbn [fst snd]; [|discriminate].
  destruct (nonempty pdfId); cbn [fst snd]; [|discriminate].
  destruct (waitForProcessing pdfId _) as [[[]|e] w2]; cbn [fst snd];
    [|discriminate].
  pose proof (downloadMMD_returns_nonblank pdfId userId filename w2) as Hd.
  destruct (downloadMMD pdfId userId filename w2) as [[content|e] w3];
    cbn [fst snd] in *; [|discriminate].
  intros [= <-]. exists content. auto.
Qed.

(** X20: the round trip from conversion to resolution.  When the
    orchestrator returns the result of a document, and the remote store then
    serves what was last stored, the resolver finds for the same user and
    file name, on either platform and at the first candidate path, a record
    whose content is the markup that the conversion returned, with the file
    name as id and its derived title. *)
Theorem conversion_round_trip (env0 : Env)
    (storageUrl userId filename : string) (w : World) platform remote result :
  let run := processWithMathpix env0 storageUrl userId filename w in
  fst run = Returned result ->
  isImage filename = false ->
  (forall path data,
     last (uploads (snd run)) = Some (path, data) ->
     download remote path = DlContent data) ->
  exists content,
    mmd result = Some content /\
    fetchDocument platform remote filename userId
      = Some (mkPDFDocument filename (deriveTitle filename) content
                (Date_now remote filename)).
Proof.
  intros run Hout Himage Hserved. subst run.
  destruct (Quiet_processWithMathpix env0 storageUrl userId filename w)
    as (_ & _ & Hu).
  rewrite Hout, Himage in Hu.
  assert (Hmmd : exists content,
    mmd result = Some content /\ nonempty (trim content) = true).
  { revert Hout. unfold processWithMathpix. rewrite Himage.
    destruct (negb (truthy (EXPO_PUBLIC_MATHPIX_APP_ID env0))
              || negb (truthy (EXPO_PUBLIC_MATHPIX_APP_KEY env0)));
      [discriminate|].
    unfold try_catch, retryWithDelay, MAX_RETRIES.
    destruct (retryLoop_transparent wait
                (processPdf storageUrl userId filename) 3 2 1 w eq_refl)
      as [w0 Hw0].
    change (Z.to_nat 3) with 3%nat. rewrite <- Hw0.
    pose proof (processPdf_returns_nonblank storageUrl userId filename w0)
      as Hret.
    destruct (processPdf storageUrl userId filename w0) as [[r|[code|]] w1];
      cbn [fst snd] in *; try discriminate.
    intros [= <-]. now apply Hret. }
  destruct Hmmd as (content & Hmmd & Hblank). exists content.
  split; [exact Hmmd|].
  unfold artifactOf in Hu. rewrite Hmmd in Hu.
  assert (Hdl : download remote (storagePath userId filename)
                = DlContent content).
  { apply Hserved. rewrite Hu. apply last_snoc. }
  apply trim_nonempty in Hblank.
  destruct platform; unfold fetchDocument; cbn [tryPaths];
    now rewrite Hdl, Hblank.
Qed.

Lemma conversion_round_trip_witness :
  exists content,
    mmd (mkMathpixResponse (Some "$x^2$"%string) None None
           (Some "job-1"%string)) = Some content /\
    fetchDocument Native remoteStored "calc101.pdf" "u1"
      = Some (mkPDFDocument "calc101.pdf" (deriveTitle "calc101.pdf") content
                (Date_now remoteStored "calc101.pdf")).
Proof.
  apply (conversion_round_trip env "https://files/calc101.pdf" "u1"
           "calc101.pdf"
           (start [Some (okJson jsonSubmitted); Some (okJson jsonCompleted);
                   Some responseMmd])
           Native remoteStored).
  - reflexivity.
  - reflexivity.
  - intros path data [= <- <-]. reflexivity.
Defined.

Lemma plainTail_dot pre post : plainTail (pre +:+ "." +:+ post) = false.
Proof.
  induction pre as [|c pre IH]; [reflexivity|].
  change (String c pre +:+ "." +:+ post)
    with (String c (pre +:+ "." +:+ post)).
  cbn [plainTail]. rewrite IH. apply andb_false_r.
Qed.

(** X21: the title under which the upload bar lists a new document is the
    file name without its last extension: for every [base] and every
    extension made of characters other than the slash and the dot,
    [base.ext] is listed as [base].  For a [.pdf] file this is the title that
    the resolver derives from the stored name after a reload. *)
Theorem uploadTitle_strips_extension (base ext : string) :
  isExtension ext = true ->
  uploadTitle (base +:+ "." +:+ ext) = base /\
  uploadTitle (base +:+ ".pdf") = deriveTitle (base +:+ ".pdf").
Proof.
  assert (Hstrip : forall b e,
    isExtension e = true -> uploadTitle (b +:+ "." +:+ e) = b).
  { intros b e He. induction b as [|c b IH].
    - change ("" +:+ "." +:+ e) with (String "." e).
      cbn [uploadTitle]. rewrite He. reflexivity.
    - change (String c b +:+ "." +:+ e) with (String c (b +:+ "." +:+ e)).
      cbn [uploadTitle]. unfold isExtension at 1.
      rewrite plainTail_dot, andb_false_r, andb_false_r. now rewrite IH. }
  intros Hext. split; [now apply Hstrip|].
  change (base +:+ ".pdf") with (base +:+ "." +:+ "pdf").
  rewrite (Hstrip base "pdf" eq_refl).
  change (base +:+ "." +:+ "pdf") with (base +:+ ".pdf").
  symmetry. apply deriveTitle_pdf.
Qed.

Lemma uploadTitle_strips_extension_witness :
  uploadTitle ("notes.v2" +:+ "." +:+ "pdf") = "notes.v2"%string /\
  uploadTitle ("notes.v2" +:+ ".pdf") = deriveTitle ("notes.v2" +:+ ".pdf").
Proof.
  apply (uploadTitle_strips_extension "notes.v2" "pdf"). reflexivity.
Defined.

(** X22: on the home screen of a signed-in user whose device rejects no
    call, after the first load and then after any sequence of loads,
    refreshes and new documents, handled one after the other, the documents
    listed are exactly the records of the mirror, in the same order; while
    nobody is signed in, no event changes the list or the store. *)
Theorem screen_lists_mirror (uid : string) (actions : list Action)
    platform0 remote0 forceRefresh0 (st0 : Screen * AsyncStorage) :
  faults (snd st0) = [] ->
  let st :=
    foldl (step (Some uid))
      (screenLoadDocuments (Some uid) platform0 remote0 forceRefresh0 st0)
      actions in
  documents (fst st) = mirror (snd st) /\
  faults (snd st) = [] /\
  foldl (step None) st0 actions = st0.
Proof.
  intros Hreliable st. subst st.
  assert (Hload : forall platform remote forceRefresh
                         (st : Screen * AsyncStorage),
    faults (snd st) = [] ->
    documents (fst (screenLoadDocuments (Some uid) platform remote
                      forceRefresh st))
      = mirror (snd (screenLoadDocuments (Some uid) platform remote
                       forceRefresh st)) /\
    faults (snd (screenLoadDocuments (Some uid) platform remote
                   forceRefresh st)) = []).
  { intros platform remote forceRefresh st Hf.
    unfold screenLoadDocuments. cbn [fst snd documents].
    assert (Hf' : faults (if forceRefresh then clearDocumentCache (snd st)
                          else snd st) = []).
    { destruct forceRefresh; [|exact Hf]. now rewrite reliable_clear. }
    destruct (reliable_resolver platform remote uid forceRefresh _ Hf')
      as [Hfaults Hmirror].
    split; [now rewrite Hmirror | exact Hfaults]. }
  assert (Hgoal : forall st : Screen * AsyncStorage,
    documents (fst st) = mirror (snd st) /\ faults (snd st) = [] ->
    documents (fst (foldl (step (Some uid)) st actions))
      = mirror (snd (foldl (step (Some uid)) st actions)) /\
    faults (snd (foldl (step (Some uid)) st actions)) = []).
  { induction actions as [|action actions IH]; intros st Hinv; [exact Hinv|].
    cbn [foldl]. apply IH. destruct Hinv as [Hdocs Hf].
    destruct action as [platform remote forceRefresh
                       | title content nowId nowStamp]; cbn [step].
    - now apply Hload.
    - unfold handleNewDocument. rewrite (reliable_save _ _ _ Hf).
      cbn [fst snd documents faults]. rewrite mirror_insert.
      split; [now rewrite Hdocs | reflexivity]. }
  destruct (Hgoal (screenLoadDocuments (Some uid) platform0 remote0
                     forceRefresh0 st0)) as [Hdocs Hf];
    [now apply Hload|].
  split; [exact Hdocs|]. split; [exact Hf|].
  clear. induction actions as [|action actions IH]; [reflexivity|].
  cbn [foldl]. now destruct action.
Qed.

(** A first load that finds the artifact of scenario A, then a new
    document, then a load without refresh. *)
Lemma screen_lists_mirror_witness :
  let st :=
    foldl (step (Some "u1"%string))
      (screenLoadDocuments (Some "u1"%string) Native remoteA true
         (mkScreen [] true, mirror2))
      [ NewDocument "notes" "$y$" 1700000000001 1700000000002;
        Load Web remoteDown false ] in
  documents (fst st) = mirror (snd st) /\
  faults (snd st) = [] /\
  foldl (step None) (mkScreen [] true, mirror2)
    [ NewDocument "notes" "$y$" 1700000000001 1700000000002;
      Load Web remoteDown false ]
  = (mkScreen [] true, mirror2).
Proof.
  apply (screen_lists_mirror "u1"
           [ NewDocument "notes" "$y$" 1700000000001 1700000000002;
             Load Web remoteDown false ]
           Native remoteA true (mkScreen [] true, mirror2)).
  reflexivity.
Defined.

End RoundTrip.

(* ===================================================================== *)
(** * Exercises and solutions in Firestore                                *)
(* ===================================================================== *)

Section FirestoreFacts.
Import Mathpix Firestore FirestoreScenario.

Lemma documentsOf_setDoc path id (data : Data) cs t :
  documentsOf path (mkDb (setDoc path id data cs) t)
  = <[id := data]> (default ∅ (cs !! path)).
Proof. unfold documentsOf, setDoc. cbn [collections]. now rewrite lookup_insert_eq. Qed.

Lemma documentsOf_setDoc_ne path path' id (data : Data) cs t t' :
  path <> path' ->
  documentsOf path' (mkDb (setDoc path id data cs) t)
  = documentsOf path' (mkDb cs t').
Proof.
  intros Hne. unfold documentsOf, setDoc. cbn [collections].
  now rewrite lookup_insert_ne.
Qed.

Lemma batchSet_other clock userId exerciseId path' solutions :
  solutionsPath userId exerciseId <> path' ->
  forall tick cs,
    batchSet clock userId exerciseId solutions tick cs !! path' = cs !! path'.
Proof.
  intros Hne. induction solutions as [|[sub solution] rest IH]; intros tick cs;
    [reflexivity|].
  cbn [batchSet]. rewrite IH. unfold setDoc. now rewrite lookup_insert_ne.
Qed.

Lemma solutionData_fields solution exerciseId subExerciseId createdAt updatedAt :
  let data := solutionData solution exerciseId subExerciseId createdAt updatedAt in
  data !! "exerciseId"%string = Some (JsStr exerciseId) /\
  data !! "subExerciseId"%string = Some (JsStr subExerciseId) /\
  data !! "createdAt"%string = Some (JsStr createdAt) /\
  data !! "updatedAt"%string = Some (JsStr updatedAt) /\
  forall field : string,
    field <> "exerciseId"%string -> field <> "subExerciseId"%string ->
    field <> "createdAt"%string -> field <> "updatedAt"%string ->
    data !! field = solution !! field.
Proof.
  unfold solutionData. repeat split.
  - now rewrite !lookup_insert_ne, lookup_insert_eq by discriminate.
  - now rewrite !lookup_insert_ne, lookup_insert_eq by discriminate.
  - now rewrite lookup_insert_ne, lookup_insert_eq by discriminate.
  - now rewrite lookup_insert_eq.
  - intros field H1 H2 H3 H4. now rewrite !lookup_insert_ne by congruence.
Qed.

(** X23: a solution that was saved is the one that comes back.  For
    identifiers that are path segments, after an accepted [saveSolution] an
    accepted [fetchSolutions] for the same user and exercise returns the
    stored solution, which carries the given exercise and sub-exercise
    identifiers, the two clock readings, and every other field of the
    solution unchanged; it is the only entry returned for that sub-exercise,
    so a former solution of the sub-exercise is gone. *)
Theorem saveSolution_then_fetch (clock : Clock)
    (userId exerciseId subExerciseId : string) (solution : Data) (db : Db) :
  isSegment userId = true ->
  isSegment exerciseId = true ->
  isSegment subExerciseId = true ->
  let db' :=
    snd (saveSolution clock true userId exerciseId subExerciseId solution db) in
  let stored :=
    solutionData solution exerciseId subExerciseId
      (clock (ticks db)) (clock (S (ticks db))) in
  exists entries,
    fst (fetchSolutions true userId exerciseId db') = Returned entries /\
    stored ∈ entries /\
    (forall entry,
       entry ∈ entries ->
       entry !! "subExerciseId"%string = Some (JsStr subExerciseId) ->
       entry = stored) /\
    (forall field : string,
       field <> "exerciseId"%string -> field <> "subExerciseId"%string ->
       field <> "createdAt"%string -> field <> "updatedAt"%string ->
       stored !! field = solution !! field).
Proof.
  intros _ _ _ db' stored. subst db'.
  unfold saveSolution, fetchSolutions. cbn [fst snd].
  eexists. split; [reflexivity|].
  rewrite documentsOf_setDoc. fold stored.
  destruct (solutionData_fields solution exerciseId subExerciseId
              (clock (ticks db)) (clock (S (ticks db))))
    as (_ & Hsub & _ & _ & Hother). fold stored in Hsub, Hother.
  split; [|split; [|exact Hother]].
  - apply list_elem_of_fmap. exists (subExerciseId, stored). cbn [fst snd].
    split; [now rewrite insert_id|].
    apply elem_of_map_to_list. apply lookup_insert_eq.
  - intros entry Hin Hfield.
    apply list_elem_of_fmap in Hin as ([key data] & -> & Hin).
    cbn [fst snd] in *. rewrite lookup_insert_eq in Hfield.
    injection Hfield as ->.
    apply elem_of_map_to_list in Hin. rewrite lookup_insert_eq in Hin.
    injection Hin as ->. now rewrite insert_id.
Qed.

Lemma saveSolution_then_fetch_witness :
  let db' := snd (saveSolution clock0 true "alice" "ex1" "1" solution0 dbEmpty) in
  let stored :=
    solutionData solution0 "ex1" "1" (clock0 0%nat) (clock0 1%nat) in
  exists entries,
    fst (fetchSolutions true "alice" "ex1" db') = Returned entries /\
    stored ∈ entries /\
    (forall entry,
       entry ∈ entries ->
       entry !! "subExerciseId"%string = Some (JsStr "1") ->
       entry = stored) /\
    (forall field : string,
       field <> "exerciseId"%string -> field <> "subExerciseId"%string ->
       field <> "createdAt"%string -> field <> "updatedAt"%string ->
       stored !! field = solution0 !! field).
Proof.
  apply (saveSolution_then_fetch clock0 "alice" "ex1" "1" solution0 dbEmpty);
    reflexivity.
Defined.

(** X24: solutions are kept apart by user and by exercise.  For
    identifiers that are path segments, a write of solutions for one user
    and exercise, single or in a batch, accepted or not, changes neither the
    solutions that [fetchSolutions] returns for another user or another
    exercise, nor the exercises that [fetchExercises] returns for anybody. *)
Theorem solutions_are_isolated (clock : Clock) (accepted accepted' : bool)
    (userId exerciseId subExerciseId : string) (solution : Data)
    (solutions : list (string * Data)) (userId' exerciseId' : string)
    (db : Db) :
  isSegment userId = true -> isSegment exerciseId = true ->
  isSegment userId' = true -> isSegment exerciseId' = true ->
  isSegment subExerciseId = true ->
  Forall (fun entry => isSegment (fst entry) = true) solutions ->
  userId' <> userId \/ exerciseId' <> exerciseId ->
  let single :=
    snd (saveSolution clock accepted userId exerciseId subExerciseId
           solution db) in
  let batch :=
    snd (saveSolutionsBatch clock accepted userId exerciseId solutions db) in
  fst (fetchSolutions accepted' userId' exerciseId' single)
    = fst (fetchSolutions accepted' userId' exerciseId' db) /\
  fst (fetchSolutions accepted' userId' exerciseId' batch)
    = fst (fetchSolutions accepted' userId' exerciseId' db) /\
  fst (fetchExercises accepted' userId' single)
    = fst (fetchExercises accepted' userId' db) /\
  fst (fetchExercises accepted' userId' batch)
    = fst (fetchExercises accepted' userId' db).
Proof.
  intros _ _ _ _ _ _ Hother single batch.
  assert (Hpath : solutionsPath userId exerciseId
                  <> solutionsPath userId' exerciseId').
  { unfold solutionsPath. intros [= -> ->]. now destruct Hother. }
  assert (Hex : solutionsPath userId exerciseId <> exercisesPath userId')
    by discriminate.
  assert (Hsingle : forall path',
    solutionsPath userId exerciseId <> path' ->
    documentsOf path' single = documentsOf path' db).
  { intros path' Hne. subst single. unfold saveSolution.
    destruct accepted; cbn [snd]; [|reflexivity].
    unfold documentsOf, setDoc. cbn [collections].
    now rewrite lookup_insert_ne. }
  assert (Hbatch : forall path',
    solutionsPath userId exerciseId <> path' ->
    documentsOf path' batch = documentsOf path' db).
  { intros path' Hne. subst batch. unfold saveSolutionsBatch.
    destruct accepted; cbn [snd]; [|reflexivity].
    unfold documentsOf. cbn [collections]. now rewrite batchSet_other. }
  unfold fetchSolutions, fetchExercises.
  destruct accepted'; cbn [fst]; [|auto].
  now rewrite !Hsingle, !Hbatch.
Qed.

Lemma solutions_are_isolated_witness :
  let single :=
    snd (saveSolution clock0 true "alice" "ex1" "1" solution0 dbEmpty) in
  let batch :=
    snd (saveSolutionsBatch clock0 true "alice" "ex1"
           [("1"%string, solution0); ("2"%string, solution0)] dbEmpty) in
  fst (fetchSolutions true "bob" "ex1" single)
    = fst (fetchSolutions true "bob" "ex1" dbEmpty) /\
  fst (fetchSolutions true "bob" "ex1" batch)
    = fst (fetchSolutions true "bob" "ex1" dbEmpty) /\
  fst (fetchExercises true "bob" single)
    = fst (fetchExercises true "bob" dbEmpty) /\
  fst (fetchExercises true "bob" batch)
    = fst (fetchExercises true "bob" dbEmpty).
Proof.
  apply (solutions_are_isolated clock0 true true "alice" "ex1" "1" solution0
           [("1"%string, solution0); ("2"%string, solution0)] "bob" "ex1"
           dbEmpty); try reflexivity.
  - repeat constructor.
  - left. discriminate.
Defined.

(** X25: for identifiers that are path segments, an accepted batch of
    solutions leaves the database as the same solutions saved one by one in
    the order of the batch would, so that of two solutions of one
    sub-exercise the later one stays; a rejected batch leaves every document
    as it was. *)
Theorem saveSolutionsBatch_is_sequence (clock : Clock)
    (userId exerciseId : string) (solutions : list (string * Data)) (db : Db) :
  isSegment userId = true -> isSegment exerciseId = true ->
  Forall (fun entry => isSegment (fst entry) = true) solutions ->
  saveSolutionsBatch clock true userId exerciseId solutions db
  = (Returned tt,
     foldl (fun d entry =>
              snd (saveSolution clock true userId exerciseId
                     (fst entry) (snd entry) d))
       db solutions) /\
  collections (snd (saveSolutionsBatch clock false userId exerciseId
                      solutions db))
  = collections db.
Proof.
  intros _ _ _. split; [|reflexivity].
  unfold saveSolutionsBatch. f_equal.
  revert db. induction solutions as [|[sub solution] rest IH]; intros db.
  - cbn [batchSet foldl length]. destruct db as [cs t]. cbn [collections ticks].
    f_equal. lia.
  - cbn [batchSet foldl length fst snd].
    rewrite <- IH. unfold saveSolution. cbn [snd collections ticks].
    f_equal. lia.
Qed.

Lemma saveSolutionsBatch_is_sequence_witness :
  saveSolutionsBatch clock0 true "alice" "ex1"
    [("1"%string, solution0); ("1"%string, ∅)] dbEmpty
  = (Returned tt,
     foldl (fun d entry =>
              snd (saveSolution clock0 true "alice" "ex1"
                     (fst entry) (snd entry) d))
       dbEmpty [("1"%string, solution0); ("1"%string, ∅)]) /\
  collections (snd (saveSolutionsBatch clock0 false "alice" "ex1"
                      [("1"%string, solution0); ("1"%string, ∅)] dbEmpty))
  = collections dbEmpty.
Proof.
  apply (saveSolutionsBatch_is_sequence clock0 "alice" "ex1"
           [("1"%string, solution0); ("1"%string, ∅)] dbEmpty);
    try reflexivity.
  repeat constructor.
Defined.

(** X26: an analysis that was saved comes back under its document
    identifier.  For identifiers that are path segments, after an accepted
    [saveExerciseAnalysis] an accepted [fetchExercises] for the same user
    returns an entry whose [id] is the document identifier, even when the
    analysis had an [id] field of its own, with the two clock readings and
    every other field of the analysis unchanged. *)
Theorem saveExerciseAnalysis_then_fetch (clock : Clock)
    (userId documentId : string) (analysis : Data) (db : Db) :
  isSegment userId = true ->
  isSegment documentId = true ->
  let db' :=
    snd (saveExerciseAnalysis clock true userId documentId analysis db) in
  exists entries entry,
    fst (fetchExercises true userId db') = Returned entries /\
    entry ∈ entries /\
    entry !! "id"%string = Some (JsStr documentId) /\
    entry !! "createdAt"%string = Some (JsStr (clock (ticks db))) /\
    entry !! "updatedAt"%string = Some (JsStr (clock (S (ticks db)))) /\
    (forall field : string,
       field <> "id"%string -> field <> "createdAt"%string ->
       field <> "updatedAt"%string ->
       entry !! field = analysis !! field).
Proof.
  intros _ _ db'. subst db'.
  unfold saveExerciseAnalysis, fetchExercises. cbn [fst snd].
  set (data := <["updatedAt"%string := JsStr (clock (S (ticks db)))]>
                 (<["createdAt"%string := JsStr (clock (ticks db))]>
                    (<["id"%string := JsStr documentId]> analysis))).
  eexists. exists (data ∪ {["id"%string := JsStr documentId]}).
  split; [reflexivity|]. rewrite documentsOf_setDoc.
  split; [|repeat split].
  - apply list_elem_of_fmap. exists (documentId, data). cbn [fst snd].
    split; [reflexivity|].
    apply elem_of_map_to_list. apply lookup_insert_eq.
  - apply lookup_union_Some_l. unfold data.
    now rewrite !lookup_insert_ne, lookup_insert_eq by discriminate.
  - apply lookup_union_Some_l. unfold data.
    now rewrite lookup_insert_ne, lookup_insert_eq by discriminate.
  - apply lookup_union_Some_l. unfold data. now rewrite lookup_insert_eq.
  - intros field H1 H2 H3.
    rewrite lookup_union, lookup_singleton_ne by congruence.
    unfold data. rewrite !lookup_insert_ne by congruence.
    now destruct (analysis !! field).
Qed.

Lemma saveExerciseAnalysis_then_fetch_witness :
  let db' :=
    snd (saveExerciseAnalysis clock0 true "alice" "calc101"
           {[ "id"%string := JsStr "other" ]} dbEmpty) in
  exists entries entry,
    fst (fetchExercises true "alice" db') = Returned entries /\
    entry ∈ entries /\
    entry !! "id"%string = Some (JsStr "calc101") /\
    entry !! "createdAt"%string = Some (JsStr (clock0 0%nat)) /\
    entry !! "updatedAt"%string = Some (JsStr (clock0 1%nat)) /\
    (forall field : string,
       field <> "id"%string -> field <> "createdAt"%string ->
       field <> "updatedAt"%string ->
       entry !! field
       = ({[ "id"%string := JsStr "other" ]} : Data) !! field).
Proof.
  apply (saveExerciseAnalysis_then_fetch clock0 "alice" "calc101"
           {[ "id"%string := JsStr "other" ]} dbEmpty); reflexivity.
Defined.

End FirestoreFacts.

(* ===================================================================== *)
(** * Which answers are tried again, and the auth store                   *)
(* ===================================================================== *)

Section StatusRetry.
Import JsString Mathpix Observers MathpixScenario RetryScenario.

Lemma processImage_not_ok imageUrl (w : World) response rest :
  net w = Some response :: rest ->
  ok response = false ->
  processImageWithMathpix imageUrl w
  = (Threw (MathpixError (statusErrorCode (http_status response))),
     mkWorld rest (storage_up w)
       (requests w ++ [MATHPIX_BASE_URL +:+ "/text"]) (uploads w) (timers w)).
Proof.
  intros Hnet Hok.
  unfold processImageWithMathpix, try_catch, bind, fetch,
    handleMathpixResponse, throw.
  rewrite Hnet. cbn [tail]. rewrite Hok. reflexivity.
Qed.

Lemma processImage_not_ok_at imageUrl response rest up rq ul tm :
  ok response = false ->
  processImageWithMathpix imageUrl (mkWorld (Some response :: rest) up rq ul tm)
  = (Threw (MathpixError (statusErrorCode (http_status response))),
     mkWorld rest up (rq ++ [MATHPIX_BASE_URL +:+ "/text"]) ul tm).
Proof. intros Hok. now apply processImage_not_ok. Qed.

(** X27: which answers of the service are tried again.  When the service
    answers the recognition of an image with a status [s] outside 200..299,
    three times if asked three times, the orchestrator throws the error that
    the status stands for; it gives up after the first request when [s] is
    400, 401, 413, 415 or 429, and for every other status, 403 and 404 among
    them, it asks three times, waiting 2 s and then 4 s. *)
Theorem image_status_retry (env0 : Env) (storageUrl userId filename : string)
    (w : World) (s : Z) r1 r2 r3 rest :
  truthy (EXPO_PUBLIC_MATHPIX_APP_ID env0) = true ->
  truthy (EXPO_PUBLIC_MATHPIX_APP_KEY env0) = true ->
  isImage filename = true ->
  s < 200 \/ 299 < s ->
  net w = Some r1 :: Some r2 :: Some r3 :: rest ->
  http_status r1 = s -> http_status r2 = s -> http_status r3 = s ->
  let final := s =? 400 in
  let final := final || (s =? 401) || (s =? 413) || (s =? 415) || (s =? 429) in
  let url := MATHPIX_BASE_URL +:+ "/text" in
  processWithMathpix env0 storageUrl userId filename w
  = (Threw (MathpixError (statusErrorCode s)),
     if final
     then mkWorld (Some r2 :: Some r3 :: rest) (storage_up w)
            (requests w ++ [url]) (uploads w) (timers w)
     else mkWorld rest (storage_up w)
            (requests w ++ [url; url; url]) (uploads w)
            (timers w ++ [2000; 4000])).
Proof.
  intros Hid Hkey Himage Hs Hnet H1 H2 H3 final0 final url.
  subst final0 final url.
  assert (Hnot : forall r, http_status r = s -> ok r = false).
  { intros r Hr. unfold ok. rewrite Hr. lia. }
  unfold processWithMathpix. rewrite Hid, Hkey, Himage. cbn [negb orb].
  unfold try_catch, retryWithDelay, MAX_RETRIES.
  change (Z.to_nat 3) with 3%nat. cbn [retryLoop].
  rewrite (processImage_not_ok storageUrl w r1 _ Hnet (Hnot r1 H1)), H1.
  unfold statusErrorCode.
  destruct (s =? 400) eqn:E400; [reflexivity|].
  destruct (s =? 401) eqn:E401; [reflexivity|].
  destruct (s =? 429) eqn:E429;
    [cbn [orb retryable andb rethrowTyped]; now rewrite ?orb_true_r|].
  destruct (s =? 413) eqn:E413;
    [cbn [orb retryable andb rethrowTyped]; now rewrite ?orb_true_r|].
  destruct (s =? 415) eqn:E415;
    [cbn [orb retryable andb rethrowTyped]; now rewrite ?orb_true_r|].
  cbn [orb].
  assert (Hretry : retryable
    (MathpixError
       (if (s =? 500) || (s =? 502) || (s =? 503) || (s =? 504)
        then PROCESSING_ERROR else NETWORK_ERROR)) = true)
    by now destruct ((s =? 500) || (s =? 502) || (s =? 503) || (s =? 504)).
  rewrite Hretry. cbn [andb Z.ltb Z.compare Pos.compare Pos.compare_cont].
  unfold wait, sleep. cbn [snd net storage_up requests uploads timers].
  rewrite (processImage_not_ok_at storageUrl r2) by now apply Hnot.
  rewrite H2. unfold statusErrorCode.
  rewrite E400, E401, E429, E413, E415, Hretry.
  cbn [andb Z.add Pos.add Z.ltb Z.compare Pos.compare Pos.compare_cont].
  cbn [snd net storage_up requests uploads timers].
  rewrite (processImage_not_ok_at storageUrl r3) by now apply Hnot.
  rewrite H3. unfold statusErrorCode.
  rewrite E400, E401, E429, E413, E415, Hretry.
  cbn [andb Z.add Pos.add Pos.succ Z.ltb Z.compare Pos.compare
       Pos.compare_cont].
  unfold rethrowTyped, throw, RETRY_DELAY.
  cbn [Z.mul Pos.mul Pos.add Z.add].
  now rewrite <- !app_assoc.
Qed.

Lemma image_status_retry_witness :
  processWithMathpix env "https://files/photo.jpg" "u1" "photo.jpg"
    (start [Some response404; Some response404; Some response404])
  = (Threw (MathpixError NETWORK_ERROR),
     mkWorld [] true
       [ "https://api.mathpix.com/v3/text"%string;
         "https://api.mathpix.com/v3/text"%string;
         "https://api.mathpix.com/v3/text"%string ] [] [2000; 4000]).
Proof.
  apply (image_status_retry env "https://files/photo.jpg" "u1" "photo.jpg"
           (start [Some response404; Some response404; Some response404])
           404 response404 response404 response404 []);
    try reflexivity.
  right. lia.
Defined.

End StatusRetry.

Section AuthStoreFacts.
Import AuthStore RetryScenario.

Lemma reported_app events1 events2 :
  reported (events1 ++ events2) = reported events1 ++ reported events2.
Proof.
  induction events1 as [|event events1 IH]; [reflexivity|].
  cbn [app reported]. destruct event as [| fu | | | | | [fu|]];
    cbn [app]; now rewrite ?IH.
Qed.

(** X28: whatever happens in the auth store, in any order, the user it
    holds is the profile of a user that Firebase reported in one of the
    events, and is on the free plan, without end of validity and without
    customer identifier: no event makes a subscriber. *)
Theorem auth_user_is_reported_and_free (events : list Event) (u : User) :
  user (foldl apply initial events) = Some u ->
  subscription u = mkSubscription free None None /\
  exists firebaseUser,
    firebaseUser ∈ reported events /\ u = createUserProfile firebaseUser.
Proof.
  assert (Hinv : forall events st seen,
    (forall u0, user st = Some u0 ->
       exists fu, fu ∈ seen /\ u0 = createUserProfile fu) ->
    forall u0, user (foldl apply st events) = Some u0 ->
      exists fu, fu ∈ seen ++ reported events /\ u0 = createUserProfile fu).
  { clear. induction events as [|event events IH]; intros st seen Hst u0 Hu.
    - rewrite app_nil_r. now apply Hst.
    - cbn [foldl] in Hu.
      change (event :: events) with ([event] ++ events).
      rewrite reported_app, app_assoc.
      apply (IH (apply st event) (seen ++ reported [event])); [|exact Hu].
      clear Hu u0. intros u0 Hu0.
      destruct event as [| fu | | | | | [fu|]]; cbn [apply user reported] in *;
        rewrite ?app_nil_r;
        try (now apply Hst); try discriminate.
      + injection Hu0 as <-. exists fu. split; [|reflexivity].
        apply elem_of_app. right. apply list_elem_of_singleton. reflexivity.
      + injection Hu0 as <-. exists fu. split; [|reflexivity].
        apply elem_of_app. right. apply list_elem_of_singleton. reflexivity. }
  intros Hu.
  destruct (Hinv events initial [] ltac:(discriminate) u Hu) as (fu & Hin & ->).
  split; [reflexivity|]. now exists fu.
Qed.

Lemma auth_user_is_reported_and_free_witness :
  subscription (createUserProfile firebaseAlice) = mkSubscription free None None /\
  exists firebaseUser,
    firebaseUser ∈ reported [SignStarted; SignSucceeded firebaseAlice;
                             ErrorSet None] /\
    createUserProfile firebaseAlice = createUserProfile firebaseUser.
Proof.
  apply (auth_user_is_reported_and_free
           [SignStarted; SignSucceeded firebaseAlice; ErrorSet None]
           (createUserProfile firebaseAlice)).
  reflexivity.
Defined.

End AuthStoreFacts.
